(** * The write/read consistency pipeline of the library tracker

    A shallow embedding of the TypeScript sources of the book service:
    the [Book] aggregate with its outbox of domain events, the PostgreSQL
    write repository with its optimistic version check, the RabbitMQ
    event publisher, the command handlers that sequence them, and the
    MongoDB projections that maintain the read model.

    Conventions of the embedding.
    - A JavaScript [number] that the code requires to be an integer is a
      [Z]; a [Date] is the number of milliseconds since the epoch, a [Z].
    - Strings are sequences of ASCII code units.
    - [T | null] is [option T]; an optional property [p?: T] of an input
      object is [option T] as well, [None] standing for [undefined].
    - Code that throws, reads the clock, draws a UUID or talks to a store
      lives in the monad [Js] over the record [World]. *)

From Stdlib Require Import ZArith Ascii String.
From stdpp Require Import base option list gmap strings sorting pretty.

Local Open Scope string_scope.
Local Open Scope list_scope.
Local Open Scope Z_scope.

(** ** JavaScript strings *)

Module Str.

(** The ASCII part of the class [\s]. *)
Definition isSpace (c : ascii) : bool :=
  let n := nat_of_ascii c in
  ((n =? 32) || ((9 <=? n) && (n <=? 13)))%nat.

Fixpoint trimStart (s : string) : string :=
  match s with
  | EmptyString => EmptyString
  | String c s' => if isSpace c then trimStart s' else s
  end.

Definition trimEnd (s : string) : string :=
  String.rev (trimStart (String.rev s)).

Definition trim (s : string) : string := trimEnd (trimStart s).

(** [s.replace(/\s+/g, ' ')]: [gap] tells that the previous code unit
    was white space, already replaced. *)
Fixpoint collapseSpaces (gap : bool) (s : string) : string :=
  match s with
  | EmptyString => EmptyString
  | String c s' =>
      if isSpace c
      then (if gap then collapseSpaces true s'
            else String " " (collapseSpaces true s'))
      else String c (collapseSpaces false s')
  end.

(** [s.replace(/[-\s]/g, '')] *)
Fixpoint stripDashesAndSpaces (s : string) : string :=
  match s with
  | EmptyString => EmptyString
  | String c s' =>
      if isSpace c || Ascii.eqb c "-"%char
      then stripDashesAndSpaces s'
      else String c (stripDashesAndSpaces s')
  end.

Definition toUpperChar (c : ascii) : ascii :=
  let n := nat_of_ascii c in
  if ((97 <=? n) && (n <=? 122))%nat then ascii_of_nat (n - 32) else c.

Fixpoint toUpperCase (s : string) : string :=
  match s with
  | EmptyString => EmptyString
  | String c s' => String (toUpperChar c) (toUpperCase s')
  end.

(** [s.substring(0, n)] *)
Fixpoint prefix (n : nat) (s : string) : string :=
  match n, s with
  | S n', String c s' => String c (prefix n' s')
  | _, _ => EmptyString
  end.

Definition len (s : string) : Z := Z.of_nat (String.length s).

(** [!s || s.trim().length === 0] *)
Definition isBlank (s : string) : bool := len (trim s) =? 0.

Definition isDigit (c : ascii) : bool :=
  let n := nat_of_ascii c in ((48 <=? n) && (n <=? 57))%nat.

(** [parseInt(c, 10)] of one decimal digit. *)
Definition digit (c : ascii) : Z := Z.of_nat (nat_of_ascii c) - 48.

Fixpoint chars (s : string) : list ascii :=
  match s with
  | EmptyString => []
  | String c s' => c :: chars s'
  end.

End Str.

(** ** Errors

    What a [throw] carries: the [name] of the error class, the [code] of a
    [DomainException] (absent on a plain [Error]) and the message. The
    [details] and [timestamp] of a [DomainException] are not kept. *)

Record JsError := {
  name : string;
  code : option string;
  message : string
}.

#[global] Instance JsError_eq_dec : EqDecision JsError.
Proof. solve_decision. Defined.

Definition Error (msg : string) : JsError :=
  {| name := "Error"; code := None; message := msg |}.

Definition DomainException (msg code : string) : JsError :=
  {| name := "DomainException"; code := Some code; message := msg |}.

Definition EntityNotFoundException (entityName id : string) : JsError :=
  {| name := "EntityNotFoundException";
     code := Some "ENTITY_NOT_FOUND";
     message := entityName +:+ " with id '" +:+ id +:+ "' was not found" |}.


Definition ConcurrencyException
    (entityName id : string) (expectedVersion actualVersion : Z) : JsError :=
  {| name := "ConcurrencyException";
     code := Some "CONCURRENCY_CONFLICT";
     message := "Concurrency conflict for " +:+ entityName +:+ " '" +:+ id
                +:+ "': expected version " +:+ pretty expectedVersion
                +:+ ", but found " +:+ pretty actualVersion |}.

(** Errors raised by the drivers: a violated unique constraint in
    PostgreSQL (SQLSTATE 23505) and a duplicate [_id] in MongoDB
    (E11000). *)
Definition UniqueViolation (constraint : string) : JsError :=
  {| name := "error"; code := Some "23505";
     message := "duplicate key value violates unique constraint " +:+ constraint |}.

Definition DuplicateKeyError (key : string) : JsError :=
  {| name := "MongoServerError"; code := Some "11000";
     message := "E11000 duplicate key error dup key: " +:+ key |}.

(** The kinds of the shared kernel's error taxonomy, as a handler that
    catches an error can tell them apart: by class name and code. *)
Definition isConcurrencyConflictKind (e : JsError) : bool :=
  bool_decide (name e = "ConcurrencyException")
  || bool_decide (code e = Some "CONCURRENCY_CONFLICT").

Definition isDomainException (e : JsError) : bool :=
  bool_decide (name e = "DomainException").

(** The outcome of running a piece of code. *)
Inductive Outcome (A : Type) : Type :=
| Returned (a : A)
| Thrown (e : JsError).
Arguments Returned {A} a.
Arguments Thrown {A} e.

Definition isThrown {A} (o : Outcome A) : bool :=
  match o with Thrown _ => true | Returned _ => false end.

(** ** Reading status (value-objects/ReadingStatus.ts) *)

Inductive ReadingStatus := TO_READ | READING | FINISHED | ABANDONED.

#[global] Instance ReadingStatus_eq_dec : EqDecision ReadingStatus.
Proof. solve_decision. Defined.

Module ReadingStatusUtils.

(** The string value of each member of the enum. *)
Definition toString (s : ReadingStatus) : string :=
  match s with
  | TO_READ => "TO_READ"
  | READING => "READING"
  | FINISHED => "FINISHED"
  | ABANDONED => "ABANDONED"
  end.

Definition values : list ReadingStatus := [TO_READ; READING; FINISHED; ABANDONED].

Definition isValid (value : string) : bool :=
  bool_decide (value ∈ toString <$> values).

Definition fromString (value : string) : Outcome ReadingStatus :=
  match List.find (fun s => String.eqb (toString s) value) values with
  | Some s => Returned s
  | None => Thrown (Error ("Invalid reading status: " +:+ value))
  end.

Definition getAllowedTransitions (status : ReadingStatus) : list ReadingStatus :=
  match status with
  | TO_READ => [READING]
  | READING => [FINISHED; ABANDONED; TO_READ]
  | FINISHED => [READING]
  | ABANDONED => [READING; TO_READ]
  end.

Definition canTransition (from to : ReadingStatus) : bool :=
  bool_decide (to ∈ getAllowedTransitions from).

End ReadingStatusUtils.

(** ** Domain events (shared-kernel DomainEvent.ts, domain/events) *)

Module BookCreatedEvent.
Definition EVENT_NAME : string := "library.book.created".
Record Payload := {
  bookId : string;
  title : string;
  authorId : string;
  pageCount : Z;
  isbn : option string;
  yearRead : option Z;
  status : string
}.
End BookCreatedEvent.

Module BookUpdatedEvent.
Definition EVENT_NAME : string := "library.book.updated".
(** The sparse change-set: [None] is an absent property, [Some None] a
    property that is present and [null]. [coverUrl] is not declared in
    the payload's type but [Book.updateDetails] stores it in the object
    it casts to that type, so the run-time object carries it. *)
Record Changes := {
  title : option string;
  pageCount : option Z;
  yearRead : option (option Z);
  rating : option (option Z);
  coverUrl : option (option string);
  status : option string
}.
Definition noChanges : Changes :=
  {| title := None; pageCount := None; yearRead := None;
     rating := None; coverUrl := None; status := None |}.
Record Payload := {
  bookId : string;
  changes : Changes;
  updatedAt : Z
}.

(** Assignments [changes.key = v]. *)
Definition put_title (v : string) (c : Changes) : Changes :=
  {| title := Some v; pageCount := pageCount c; yearRead := yearRead c;
     rating := rating c; coverUrl := coverUrl c; status := status c |}.
Definition put_pageCount (v : Z) (c : Changes) : Changes :=
  {| title := title c; pageCount := Some v; yearRead := yearRead c;
     rating := rating c; coverUrl := coverUrl c; status := status c |}.
Definition put_yearRead (v : option Z) (c : Changes) : Changes :=
  {| title := title c; pageCount := pageCount c; yearRead := Some v;
     rating := rating c; coverUrl := coverUrl c; status := status c |}.
Definition put_rating (v : option Z) (c : Changes) : Changes :=
  {| title := title c; pageCount := pageCount c; yearRead := yearRead c;
     rating := Some v; coverUrl := coverUrl c; status := status c |}.
Definition put_coverUrl (v : option string) (c : Changes) : Changes :=
  {| title := title c; pageCount := pageCount c; yearRead := yearRead c;
     rating := rating c; coverUrl := Some v; status := status c |}.
Definition put_status (v : string) (c : Changes) : Changes :=
  {| title := title c; pageCount := pageCount c; yearRead := yearRead c;
     rating := rating c; coverUrl := coverUrl c; status := Some v |}.

(** [Object.keys(changes).length] *)
Definition keysLength (c : Changes) : nat :=
  (length (option_list (title c)) + length (option_list (pageCount c))
   + length (option_list (yearRead c)) + length (option_list (rating c))
   + length (option_list (coverUrl c)) + length (option_list (status c)))%nat.
End BookUpdatedEvent.

Module BookDeletedEvent.
Definition EVENT_NAME : string := "library.book.deleted".
Record Payload := {
  bookId : string;
  authorId : string;
  pageCount : Z;
  yearRead : option Z
}.
End BookDeletedEvent.

Module BookFinishedEvent.
Definition EVENT_NAME : string := "library.book.finished".
Record Payload := {
  bookId : string;
  authorId : string;
  title : string;
  pageCount : Z;
  yearRead : Z;
  rating : option Z;
  finishedAt : Z
}.
End BookFinishedEvent.

Module QuoteAddedEvent.
Definition EVENT_NAME : string := "library.book.quote_added".
Record Payload := {
  bookId : string;
  quoteId : string;
  content : string;
  page : option Z
}.
End QuoteAddedEvent.

Inductive EventPayload :=
| BookCreated (p : BookCreatedEvent.Payload)
| BookUpdated (p : BookUpdatedEvent.Payload)
| BookDeleted (p : BookDeletedEvent.Payload)
| BookFinished (p : BookFinishedEvent.Payload)
| QuoteAdded (p : QuoteAddedEvent.Payload).

Record EventMetadata := {
  meta_eventId : string;
  meta_occurredAt : Z;
  correlationId : option string;
  causationId : option string;
  userId : option string
}.

(** A [DomainEvent] object; [toJSON] keeps the same five properties (the
    date as an ISO string, here the same [Z]), so the record also stands
    for the serialized event. *)
Record DomainEvent := {
  eventId : string;
  occurredAt : Z;
  metadata : EventMetadata;
  eventName : string;
  payload : EventPayload
}.

(** [getAggregateId], overridden by each of the five event classes to
    return the payload's [bookId]. *)
Definition getAggregateId (e : DomainEvent) : string :=
  match payload e with
  | BookCreated p => BookCreatedEvent.bookId p
  | BookUpdated p => BookUpdatedEvent.bookId p
  | BookDeleted p => BookDeletedEvent.bookId p
  | BookFinished p => BookFinishedEvent.bookId p
  | QuoteAdded p => QuoteAddedEvent.bookId p
  end.

Definition toJSON (e : DomainEvent) : DomainEvent := e.

(** ** Rows of the write store (PostgresBookRepository.ts, postgres.ts)

    Each table is a finite map from its primary key, the column [id], to
    the other columns. Column types and the foreign keys are not
    modelled; primary keys and the unique [isbn] are. *)

Module BookRow.
Record t := {
  title : string;
  author_id : string;
  page_count : Z;
  isbn : option string;
  year_read : option Z;
  status : string;
  rating : option Z;
  cover_url : option string;
  version : Z;
  created_at : Z;
  updated_at : Z
}.
End BookRow.

Module QuoteRow.
Record t := {
  book_id : string;
  content : string;
  page : option Z;
  created_at : Z
}.
End QuoteRow.

Module NoteRow.
Record t := {
  book_id : string;
  content : string;
  chapter : option string;
  created_at : Z
}.
End NoteRow.

Record Database := {
  books : gmap string BookRow.t;
  quotes : gmap string QuoteRow.t;
  notes : gmap string NoteRow.t
}.

(** ** Documents of the read store (ReadModels.ts); [_id] is the key. *)

Module QuoteDocument.
Record t := {
  id : string;
  content : string;
  page : option Z;
  createdAt : Z
}.
End QuoteDocument.

Module NoteDocument.
Record t := {
  id : string;
  content : string;
  chapter : option string;
  createdAt : Z
}.
End NoteDocument.

Module BookDocument.
Record t := {
  title : string;
  authorId : string;
  authorName : string;
  pageCount : Z;
  isbn : option string;
  yearRead : option Z;
  status : string;
  rating : option Z;
  coverUrl : option string;
  quotes : list QuoteDocument.t;
  notes : list NoteDocument.t;
  quotesCount : Z;
  notesCount : Z;
  createdAt : Z;
  updatedAt : Z
}.
End BookDocument.

(** ** Messages handed to the broker channel (rabbitmq.ts) *)

Record MessageHeaders := {
  h_eventName : string;
  h_aggregateId : string;
  h_correlationId : option string
}.

Record Message := {
  exchangeName : string;
  routingKey : string;
  content : DomainEvent;
  persistent : bool;
  contentType : string;
  timestamp : Z;
  messageId : string;
  headers : MessageHeaders
}.

(** ** The world the code runs in

    [Host] is what the run time provides: the successive readings of the
    clock ([new Date()], [Date.now()]), the successive results of
    [uuidv4()] and the calendar year of a date ([getFullYear]).
    [channel] is the module variable of rabbitmq.ts: [None] while it is
    [null], otherwise the messages passed to [ch.publish], oldest first.
    [journal] is ghost state: the command handlers record there, in
    program order, the completion of the calls they sequence, and
    [publish] records each call of [ch.publish] where the source writes
    its "Event published" line to the console. *)

Inductive Step :=
| SaveReturned (bookId : string)
| SaveThrew (bookId : string)
| PublishCalled (eventId : string)
| PublishAllReturned
| EventsCleared (bookId : string).

#[global] Instance Step_eq_dec : EqDecision Step.
Proof. solve_decision. Defined.

Record Host := {
  clock : nat → Z;
  uuid : nat → string;
  getFullYear : Z → Z
}.

Record World := {
  host : Host;
  clockReads : nat;
  uuidDraws : nat;
  pg : Database;
  channel : option (list Message);
  mongo : gmap string BookDocument.t;
  journal : list Step
}.

Definition set_pg (d : Database) (w : World) : World :=
  {| host := host w; clockReads := clockReads w; uuidDraws := uuidDraws w;
     pg := d; channel := channel w; mongo := mongo w; journal := journal w |}.

Definition set_channel (c : option (list Message)) (w : World) : World :=
  {| host := host w; clockReads := clockReads w; uuidDraws := uuidDraws w;
     pg := pg w; channel := c; mongo := mongo w; journal := journal w |}.

Definition set_mongo (m : gmap string BookDocument.t) (w : World) : World :=
  {| host := host w; clockReads := clockReads w; uuidDraws := uuidDraws w;
     pg := pg w; channel := channel w; mongo := m; journal := journal w |}.

Definition set_journal (j : list Step) (w : World) : World :=
  {| host := host w; clockReads := clockReads w; uuidDraws := uuidDraws w;
     pg := pg w; channel := channel w; mongo := mongo w; journal := j |}.

(** ** The monad of effectful code *)

Definition Js (A : Type) : Type := World → Outcome A * World.

#[global] Instance Js_ret : MRet Js := fun A a w => (Returned a, w).

#[global] Instance Js_bind : MBind Js := fun A B f m w =>
  match m w with
  | (Returned a, w') => f a w'
  | (Thrown e, w') => (Thrown e, w')
  end.

Definition throw {A} (e : JsError) : Js A := fun w => (Thrown e, w).

(** A call of a function that may throw but has no other effect. *)
Definition call {A} (o : Outcome A) : Js A := fun w => (o, w).

(** [new Date()] and [Date.now()] *)
Definition newDate : Js Z := fun w =>
  (Returned (clock (host w) (clockReads w)),
   {| host := host w; clockReads := S (clockReads w); uuidDraws := uuidDraws w;
      pg := pg w; channel := channel w; mongo := mongo w; journal := journal w |}).

Definition uuidv4 : Js string := fun w =>
  (Returned (uuid (host w) (uuidDraws w)),
   {| host := host w; clockReads := clockReads w; uuidDraws := S (uuidDraws w);
      pg := pg w; channel := channel w; mongo := mongo w; journal := journal w |}).

Definition fullYear (d : Z) : Js Z := fun w => (Returned (getFullYear (host w) d), w).

Definition getPg : Js Database := fun w => (Returned (pg w), w).
Definition putPg (d : Database) : Js unit := fun w => (Returned tt, set_pg d w).
Definition getMongo : Js (gmap string BookDocument.t) := fun w => (Returned (mongo w), w).
Definition putMongo (m : gmap string BookDocument.t) : Js unit :=
  fun w => (Returned tt, set_mongo m w).
Definition record (s : Step) : Js unit :=
  fun w => (Returned tt, set_journal (journal w ++ [s]) w).

(** [for (const x of xs) { await body(x) }] *)
Fixpoint forOf {A} (xs : list A) (body : A → Js unit) : Js unit :=
  match xs with
  | [] => mret tt
  | x :: xs' => body x ;; forOf xs' body
  end.

(** The pure analogue of bind, for validation code without effects. *)
Definition andThen {A B} (o : Outcome A) (k : A → Outcome B) : Outcome B :=
  match o with
  | Returned a => k a
  | Thrown e => Thrown e
  end.

(** The construction of a [DomainEvent] without metadata: a fresh UUID,
    then the current date. *)
Definition newDomainEvent (eventName : string) (payload : EventPayload) : Js DomainEvent :=
  eventId ← uuidv4;
  occurredAt ← newDate;
  mret {| eventId := eventId;
          occurredAt := occurredAt;
          metadata := {| meta_eventId := eventId;
                         meta_occurredAt := occurredAt;
                         correlationId := None;
                         causationId := None;
                         userId := None |};
          eventName := eventName;
          payload := payload |}.

(** ** Value objects

    A value object is represented by its [value]; [create] validates and
    normalizes, [fromString] and [fromNumber] trust their argument and are
    the identity. [Number.isInteger] holds of every [Z]. *)

Module Title.
Definition MIN_LENGTH : Z := 1.
Definition MAX_LENGTH : Z := 500.

Definition normalize (title : string) : string :=
  Str.collapseSpaces false (Str.trim title).

Definition create (title : string) : Outcome string :=
  if bool_decide (title = "") then
    Thrown (DomainException "Title is required" "INVALID_TITLE")
  else
    let normalized := normalize title in
    if Str.len normalized <? MIN_LENGTH then
      Thrown (DomainException "Title cannot be empty" "INVALID_TITLE")
    else if Str.len normalized >? MAX_LENGTH then
      Thrown (DomainException
                ("Title cannot exceed " +:+ pretty MAX_LENGTH +:+ " characters")
                "INVALID_TITLE")
    else Returned normalized.

Definition fromString (value : string) : string := value.
End Title.

Module PageCount.
Definition MIN_PAGES : Z := 1.
Definition MAX_PAGES : Z := 50000.

Definition create (pages : Z) : Outcome Z :=
  if pages <? MIN_PAGES then
    Thrown (DomainException
              ("Page count must be at least " +:+ pretty MIN_PAGES)
              "INVALID_PAGE_COUNT")
  else if pages >? MAX_PAGES then
    Thrown (DomainException
              ("Page count cannot exceed " +:+ pretty MAX_PAGES)
              "INVALID_PAGE_COUNT")
  else Returned pages.

Definition fromNumber (value : Z) : Z := value.
End PageCount.

Module Rating.
Definition MIN_RATING : Z := 1.
Definition MAX_RATING : Z := 5.

Definition create (rating : Z) : Outcome Z :=
  if (rating <? MIN_RATING) || (rating >? MAX_RATING) then
    Thrown (DomainException
              ("Rating must be between " +:+ pretty MIN_RATING
               +:+ " and " +:+ pretty MAX_RATING)
              "INVALID_RATING")
  else Returned rating.

Definition fromNumber (value : Z) : Z := value.
End Rating.

Module ISBN.
Definition normalize (isbn : string) : string :=
  Str.toUpperCase (Str.stripDashesAndSpaces isbn).

(** [sum += parseInt(isbn[i]) * (10 - i)] for [i] from [i0] on. *)
Fixpoint weighted10 (i : Z) (ds : list ascii) : Z :=
  match ds with
  | [] => 0
  | d :: ds' => Str.digit d * (10 - i) + weighted10 (i + 1) ds'
  end.

Definition validateISBN10 (isbn : string) : bool :=
  let cs := Str.chars isbn in
  let body := take 9 cs in
  match drop 9 cs with
  | [last] =>
      if forallb Str.isDigit body
         && (Str.isDigit last || Ascii.eqb last "X"%char)
      then
        let check := if Ascii.eqb last "X"%char then 10 else Str.digit last in
        (weighted10 0 body + check) mod 11 =? 0
      else false
  | _ => false
  end.

(** [sum += i % 2 === 0 ? digit : digit * 3] *)
Fixpoint weighted13 (i : Z) (ds : list ascii) : Z :=
  match ds with
  | [] => 0
  | d :: ds' =>
      (if i mod 2 =? 0 then Str.digit d else Str.digit d * 3)
      + weighted13 (i + 1) ds'
  end.

Definition validateISBN13 (isbn : string) : bool :=
  let cs := Str.chars isbn in
  match drop 12 cs with
  | [last] =>
      if forallb Str.isDigit cs then
        let sum := weighted13 0 (take 12 cs) in
        (10 - sum mod 10) mod 10 =? Str.digit last
      else false
  | _ => false
  end.

Definition isValid (isbn : string) : bool :=
  let normalized := normalize isbn in
  if Str.len normalized =? 10 then validateISBN10 normalized
  else if Str.len normalized =? 13 then validateISBN13 normalized
  else false.

Definition create (isbn : string) : Outcome string :=
  let normalized := normalize isbn in
  if negb (isValid normalized) then
    Thrown (DomainException ("Invalid ISBN: " +:+ isbn) "INVALID_ISBN")
  else Returned normalized.

Definition fromString (value : string) : string := value.
End ISBN.

(** Identifiers: [generate] wraps a fresh UUID (never blank, so the check
    of the [UniqueId] constructor cannot fire); [fromString] rejects a
    blank string. *)
Module BookId.
Definition generate : Js string := uuidv4.
Definition fromString (value : string) : Outcome string :=
  if Str.isBlank value then Thrown (Error "BookId cannot be empty")
  else Returned value.
End BookId.

Module QuoteId.
Definition generate : Js string := uuidv4.
Definition fromString (value : string) : Outcome string :=
  if Str.isBlank value then Thrown (Error "QuoteId cannot be empty")
  else Returned value.
End QuoteId.

Module NoteId.
Definition generate : Js string := uuidv4.
Definition fromString (value : string) : Outcome string :=
  if Str.isBlank value then Thrown (Error "NoteId cannot be empty")
  else Returned value.
End NoteId.

(** ** Entities of the aggregate (entities/Quote.ts, entities/Note.ts) *)

Module Quote.

Record t := {
  id : string;
  bookId : string;
  content : string;
  page : option Z;
  createdAt : Z
}.

Definition create (bookId content : string) (page : option Z) : Js Quote.t :=
  if Str.isBlank content then
    throw (DomainException "Quote content cannot be empty" "INVALID_QUOTE")
  else if Str.len content >? 5000 then
    throw (DomainException "Quote content cannot exceed 5000 characters" "INVALID_QUOTE")
  else if match page with Some p => p <? 1 | None => false end then
    throw (DomainException "Page number must be a positive integer" "INVALID_QUOTE")
  else
    id ← QuoteId.generate;
    now ← newDate;
    mret {| Quote.id := id; Quote.bookId := bookId;
            Quote.content := Str.trim content; Quote.page := page;
            Quote.createdAt := now |}.

Definition reconstitute (id bookId content : string) (page : option Z)
    (createdAt : Z) : Outcome Quote.t :=
  andThen (QuoteId.fromString id) (fun id =>
  andThen (BookId.fromString bookId) (fun bookId =>
  Returned {| Quote.id := id; Quote.bookId := bookId;
              Quote.content := content; Quote.page := page;
              Quote.createdAt := createdAt |})).

End Quote.

Module Note.

Record t := {
  id : string;
  bookId : string;
  content : string;
  chapter : option string;
  createdAt : Z;
  updatedAt : Z
}.

Definition create (bookId content : string) (chapter : option string) : Js Note.t :=
  if Str.isBlank content then
    throw (DomainException "Note content cannot be empty" "INVALID_NOTE")
  else if Str.len content >? 10000 then
    throw (DomainException "Note content cannot exceed 10000 characters" "INVALID_NOTE")
  else if match chapter with Some c => Str.len c >? 255 | None => false end then
    throw (DomainException "Chapter name cannot exceed 255 characters" "INVALID_NOTE")
  else
    now ← newDate;
    id ← NoteId.generate;
    mret {| Note.id := id; Note.bookId := bookId;
            Note.content := Str.trim content;
            Note.chapter := Str.trim <$> chapter;
            Note.createdAt := now; Note.updatedAt := now |}.

Definition updateContent (content : string) (n : Note.t) : Js Note.t :=
  if Str.isBlank content then
    throw (DomainException "Note content cannot be empty" "INVALID_NOTE")
  else if Str.len content >? 10000 then
    throw (DomainException "Note content cannot exceed 10000 characters" "INVALID_NOTE")
  else
    now ← newDate;
    mret {| Note.id := Note.id n; Note.bookId := Note.bookId n;
            Note.content := Str.trim content; Note.chapter := Note.chapter n;
            Note.createdAt := Note.createdAt n; Note.updatedAt := now |}.

Definition reconstitute (id bookId content : string) (chapter : option string)
    (createdAt updatedAt : Z) : Outcome Note.t :=
  andThen (NoteId.fromString id) (fun id =>
  andThen (BookId.fromString bookId) (fun bookId =>
  Returned {| Note.id := id; Note.bookId := bookId;
              Note.content := content; Note.chapter := chapter;
              Note.createdAt := createdAt; Note.updatedAt := updatedAt |})).

End Note.

(** ** The values that [!==] compares in [updateDetails] *)

Inductive JsValue := JsUndefined | JsNull | JsNumber (n : Z).

#[global] Instance JsValue_eq_dec : EqDecision JsValue.
Proof. solve_decision. Defined.

Definition strictNotEqual (a b : JsValue) : bool := negb (bool_decide (a = b)).

(** [r?.value] for [r : Rating | null] *)
Definition valueOrUndefined (r : option Z) : JsValue :=
  match r with Some n => JsNumber n | None => JsUndefined end.

(** [r?.value ?? null] *)
Definition valueOrNull (r : option Z) : JsValue :=
  match r with Some n => JsNumber n | None => JsNull end.

(** [s?.trim() || null] *)
Definition trimOrNull (s : option string) : option string :=
  match s with
  | Some s => let t := Str.trim s in if bool_decide (t = "") then None else Some t
  | None => None
  end.

(** [x ? f(x) : null] for a string and for a number: the empty string and
    zero are falsy. *)
Definition truthyString (s : option string) : option string :=
  match s with
  | Some s => if bool_decide (s = "") then None else Some s
  | None => None
  end.

Definition truthyNumber (n : option Z) : option Z :=
  match n with
  | Some n => if n =? 0 then None else Some n
  | None => None
  end.

(** [x !== null ? f(x) : null], where [f] may throw. *)
Definition orNull {A B} (f : A → Outcome B) (x : option A) : Outcome (option B) :=
  match x with
  | Some a => andThen (f a) (fun b => Returned (Some b))
  | None => Returned None
  end.

(** ** The Book aggregate (aggregates/Book.ts, shared-kernel AggregateRoot.ts)

    The record joins the [BookState] of the class with the two private
    fields of [AggregateRoot]: the outbox [domainEvents] and [version]. A
    method that mutates [this] is a function to the mutated aggregate. *)

Module Book.

Record t := {
  id : string;
  title : string;
  authorId : string;
  pageCount : Z;
  isbn : option string;
  yearRead : option Z;
  status : ReadingStatus;
  rating : option Z;
  coverUrl : option string;
  quotes : list Quote.t;
  notes : list Note.t;
  createdAt : Z;
  updatedAt : Z;
  domainEvents : list DomainEvent;
  version : Z
}.

Record CreateBookProps := {
  p_title : string;
  p_authorId : string;
  p_pageCount : Z;
  p_isbn : option string;
  p_yearRead : option Z;
  p_status : option ReadingStatus;
  p_rating : option Z;
  p_coverUrl : option string
}.

(** The argument of [updateDetails]. *)
Record DetailChanges := {
  c_title : option string;
  c_pageCount : option Z;
  c_yearRead : option (option Z);
  c_rating : option (option Z);
  c_coverUrl : option (option string)
}.

Record ReconstituteProps := {
  r_id : string;
  r_title : string;
  r_authorId : string;
  r_pageCount : Z;
  r_isbn : option string;
  r_yearRead : option Z;
  r_status : string;
  r_rating : option Z;
  r_coverUrl : option string;
  r_quotes : list Quote.t;
  r_notes : list Note.t;
  r_version : Z;
  r_createdAt : Z;
  r_updatedAt : Z
}.

(** *** Assignments to one field of [this.state] or of the root *)

Definition set_title (v : string) (b : t) : t :=
  {| id := id b; title := v; authorId := authorId b; pageCount := pageCount b;
     isbn := isbn b; yearRead := yearRead b; status := status b; rating := rating b;
     coverUrl := coverUrl b; quotes := quotes b; notes := notes b;
     createdAt := createdAt b; updatedAt := updatedAt b;
     domainEvents := domainEvents b; version := version b |}.

Definition set_pageCount (v : Z) (b : t) : t :=
  {| id := id b; title := title b; authorId := authorId b; pageCount := v;
     isbn := isbn b; yearRead := yearRead b; status := status b; rating := rating b;
     coverUrl := coverUrl b; quotes := quotes b; notes := notes b;
     createdAt := createdAt b; updatedAt := updatedAt b;
     domainEvents := domainEvents b; version := version b |}.

Definition set_yearRead (v : option Z) (b : t) : t :=
  {| id := id b; title := title b; authorId := authorId b; pageCount := pageCount b;
     isbn := isbn b; yearRead := v; status := status b; rating := rating b;
     coverUrl := coverUrl b; quotes := quotes b; notes := notes b;
     createdAt := createdAt b; updatedAt := updatedAt b;
     domainEvents := domainEvents b; version := version b |}.

Definition set_status (v : ReadingStatus) (b : t) : t :=
  {| id := id b; title := title b; authorId := authorId b; pageCount := pageCount b;
     isbn := isbn b; yearRead := yearRead b; status := v; rating := rating b;
     coverUrl := coverUrl b; quotes := quotes b; notes := notes b;
     createdAt := createdAt b; updatedAt := updatedAt b;
     domainEvents := domainEvents b; version := version b |}.

Definition set_rating (v : option Z) (b : t) : t :=
  {| id := id b; title := title b; authorId := authorId b; pageCount := pageCount b;
     isbn := isbn b; yearRead := yearRead b; status := status b; rating := v;
     coverUrl := coverUrl b; quotes := quotes b; notes := notes b;
     createdAt := createdAt b; updatedAt := updatedAt b;
     domainEvents := domainEvents b; version := version b |}.

Definition set_coverUrl (v : option string) (b : t) : t :=
  {| id := id b; title := title b; authorId := authorId b; pageCount := pageCount b;
     isbn := isbn b; yearRead := yearRead b; status := status b; rating := rating b;
     coverUrl := v; quotes := quotes b; notes := notes b;
     createdAt := createdAt b; updatedAt := updatedAt b;
     domainEvents := domainEvents b; version := version b |}.

Definition set_quotes (v : list Quote.t) (b : t) : t :=
  {| id := id b; title := title b; authorId := authorId b; pageCount := pageCount b;
     isbn := isbn b; yearRead := yearRead b; status := status b; rating := rating b;
     coverUrl := coverUrl b; quotes := v; notes := notes b;
     createdAt := createdAt b; updatedAt := updatedAt b;
     domainEvents := domainEvents b; version := version b |}.

Definition set_notes (v : list Note.t) (b : t) : t :=
  {| id := id b; title := title b; authorId := authorId b; pageCount := pageCount b;
     isbn := isbn b; yearRead := yearRead b; status := status b; rating := rating b;
     coverUrl := coverUrl b; quotes := quotes b; notes := v;
     createdAt := createdAt b; updatedAt := updatedAt b;
     domainEvents := domainEvents b; version := version b |}.

Definition set_updatedAt (v : Z) (b : t) : t :=
  {| id := id b; title := title b; authorId := authorId b; pageCount := pageCount b;
     isbn := isbn b; yearRead := yearRead b; status := status b; rating := rating b;
     coverUrl := coverUrl b; quotes := quotes b; notes := notes b;
     createdAt := createdAt b; updatedAt := v;
     domainEvents := domainEvents b; version := version b |}.

Definition set_domainEvents (v : list DomainEvent) (b : t) : t :=
  {| id := id b; title := title b; authorId := authorId b; pageCount := pageCount b;
     isbn := isbn b; yearRead := yearRead b; status := status b; rating := rating b;
     coverUrl := coverUrl b; quotes := quotes b; notes := notes b;
     createdAt := createdAt b; updatedAt := updatedAt b;
     domainEvents := v; version := version b |}.

(** *** AggregateRoot *)

Definition setVersion (v : Z) (b : t) : t :=
  {| id := id b; title := title b; authorId := authorId b; pageCount := pageCount b;
     isbn := isbn b; yearRead := yearRead b; status := status b; rating := rating b;
     coverUrl := coverUrl b; quotes := quotes b; notes := notes b;
     createdAt := createdAt b; updatedAt := updatedAt b;
     domainEvents := domainEvents b; version := v |}.

Definition incrementVersion (b : t) : t := setVersion (version b + 1) b.

Definition addDomainEvent (e : DomainEvent) (b : t) : t :=
  set_domainEvents (domainEvents b ++ [e]) b.

Definition clearDomainEvents (b : t) : t := set_domainEvents [] b.

Definition hasUncommittedEvents (b : t) : bool :=
  (0 <? length (domainEvents b))%nat.

(** *** Private helper *)

Definition validateYearRead (year : Z) : Js unit :=
  now ← newDate;
  currentYear ← fullYear now;
  if (year <? 1900) || (year >? currentYear + 1) then
    throw (DomainException
             ("Year must be between 1900 and " +:+ pretty (currentYear + 1))
             "INVALID_YEAR")
  else mret tt.

(** *** Factory methods *)

Definition create (props : CreateBookProps) : Js t :=
  id ← BookId.generate;
  now ← newDate;
  title ← call (Title.create (p_title props));
  pageCount ← call (PageCount.create (p_pageCount props));
  isbn ← call (orNull ISBN.create (truthyString (p_isbn props)));
  rating ← call (orNull Rating.create (truthyNumber (p_rating props)));
  let status := default TO_READ (p_status props) in
  let yearRead := p_yearRead props in
  if Str.isBlank (p_authorId props) then
    throw (DomainException "Author ID is required" "INVALID_BOOK")
  else
    match yearRead with
    | Some y => validateYearRead y
    | None => mret tt
    end;;
    if bool_decide (status = FINISHED ∧ yearRead = None) then
      throw (DomainException
               "Year read is required when book status is FINISHED"
               "INVALID_BOOK")
    else
      let authorId := Str.trim (p_authorId props) in
      let book :=
        {| id := id; title := title; authorId := authorId;
           pageCount := pageCount; isbn := isbn; yearRead := yearRead;
           status := status; rating := rating;
           coverUrl := trimOrNull (p_coverUrl props);
           quotes := []; notes := [];
           createdAt := now; updatedAt := now;
           domainEvents := []; version := 0 |} in
      event ← newDomainEvent BookCreatedEvent.EVENT_NAME
                (BookCreated
                   {| BookCreatedEvent.bookId := id;
                      BookCreatedEvent.title := title;
                      BookCreatedEvent.authorId := authorId;
                      BookCreatedEvent.pageCount := pageCount;
                      BookCreatedEvent.isbn := isbn;
                      BookCreatedEvent.yearRead := yearRead;
                      BookCreatedEvent.status := ReadingStatusUtils.toString status |});
      mret (addDomainEvent event book).

(** Reconstitution builds the state first and the identifier last; it
    adds no event. *)
Definition reconstitute (props : ReconstituteProps) : Outcome t :=
  andThen (ReadingStatusUtils.fromString (r_status props)) (fun status =>
  andThen (BookId.fromString (r_id props)) (fun id =>
  Returned
    (setVersion (r_version props)
       {| id := id;
          title := Title.fromString (r_title props);
          authorId := r_authorId props;
          pageCount := PageCount.fromNumber (r_pageCount props);
          isbn := ISBN.fromString <$> truthyString (r_isbn props);
          yearRead := r_yearRead props;
          status := status;
          rating := Rating.fromNumber <$> truthyNumber (r_rating props);
          coverUrl := r_coverUrl props;
          quotes := r_quotes props; notes := r_notes props;
          createdAt := r_createdAt props; updatedAt := r_updatedAt props;
          domainEvents := []; version := 0 |}))).

(** *** Commands *)

(** [updateDetails] is five blocks [if (changes.x !== undefined) { ... }],
    each working on [this.state] and on the object [actualChanges], and
    the final test of [Object.keys(actualChanges)]. A block is a function
    on the pair of the aggregate and [actualChanges]. *)
Definition updateTitle (title : option string) (st : t * BookUpdatedEvent.Changes)
    : Js (t * BookUpdatedEvent.Changes) :=
  let '(b, actualChanges) := st in
  match title with
  | Some title =>
      newTitle ← call (Title.create title);
      if bool_decide (newTitle ≠ Book.title b)
      then mret (set_title newTitle b,
                 BookUpdatedEvent.put_title newTitle actualChanges)
      else mret (b, actualChanges)
  | None => mret (b, actualChanges)
  end.

Definition updatePageCount (pageCount : option Z) (st : t * BookUpdatedEvent.Changes)
    : Js (t * BookUpdatedEvent.Changes) :=
  let '(b, actualChanges) := st in
  match pageCount with
  | Some pageCount =>
      newPageCount ← call (PageCount.create pageCount);
      if bool_decide (newPageCount ≠ Book.pageCount b)
      then mret (set_pageCount newPageCount b,
                 BookUpdatedEvent.put_pageCount newPageCount actualChanges)
      else mret (b, actualChanges)
  | None => mret (b, actualChanges)
  end.

Definition updateYearRead (yearRead : option (option Z))
    (st : t * BookUpdatedEvent.Changes) : Js (t * BookUpdatedEvent.Changes) :=
  let '(b, actualChanges) := st in
  match yearRead with
  | Some yearRead =>
      match yearRead with
      | Some y => validateYearRead y
      | None => mret tt
      end;;
      if bool_decide (yearRead ≠ Book.yearRead b)
      then mret (set_yearRead yearRead b,
                 BookUpdatedEvent.put_yearRead yearRead actualChanges)
      else mret (b, actualChanges)
  | None => mret (b, actualChanges)
  end.

Definition updateRating (rating : option (option Z))
    (st : t * BookUpdatedEvent.Changes) : Js (t * BookUpdatedEvent.Changes) :=
  let '(b, actualChanges) := st in
  match rating with
  | Some rating =>
      newRating ← call (orNull Rating.create rating);
      let currentRating := valueOrNull (Book.rating b) in
      if strictNotEqual (valueOrUndefined newRating) currentRating
      then mret (set_rating newRating b,
                 BookUpdatedEvent.put_rating newRating actualChanges)
      else mret (b, actualChanges)
  | None => mret (b, actualChanges)
  end.

Definition updateCoverUrl (coverUrl : option (option string))
    (st : t * BookUpdatedEvent.Changes) : Js (t * BookUpdatedEvent.Changes) :=
  let '(b, actualChanges) := st in
  match coverUrl with
  | Some coverUrl =>
      let newCoverUrl := trimOrNull coverUrl in
      if bool_decide (newCoverUrl ≠ Book.coverUrl b)
      then mret (set_coverUrl newCoverUrl b,
                 BookUpdatedEvent.put_coverUrl newCoverUrl actualChanges)
      else mret (b, actualChanges)
  | None => mret (b, actualChanges)
  end.

Definition updateDetails (changes : DetailChanges) (b : t) : Js t :=
  st ← updateTitle (c_title changes) (b, BookUpdatedEvent.noChanges);
  st ← updatePageCount (c_pageCount changes) st;
  st ← updateYearRead (c_yearRead changes) st;
  st ← updateRating (c_rating changes) st;
  '(b, actualChanges) ← updateCoverUrl (c_coverUrl changes) st;
  if (0 <? BookUpdatedEvent.keysLength actualChanges)%nat then
    now ← newDate;
    let b := set_updatedAt now b in
    event ← newDomainEvent BookUpdatedEvent.EVENT_NAME
              (BookUpdated
                 {| BookUpdatedEvent.bookId := id b;
                    BookUpdatedEvent.changes := actualChanges;
                    BookUpdatedEvent.updatedAt := now |});
    mret (addDomainEvent event b)
  else mret b.

Definition changeStatus (newStatus : ReadingStatus) (b : t) : Js t :=
  if bool_decide (status b = newStatus) then mret b
  else if negb (ReadingStatusUtils.canTransition (status b) newStatus) then
    throw (DomainException
             ("Cannot transition from " +:+ ReadingStatusUtils.toString (status b)
              +:+ " to " +:+ ReadingStatusUtils.toString newStatus)
             "INVALID_STATUS_TRANSITION")
  else
    let b := set_status newStatus b in
    now ← newDate;
    let b := set_updatedAt now b in
    event ← newDomainEvent BookUpdatedEvent.EVENT_NAME
              (BookUpdated
                 {| BookUpdatedEvent.bookId := id b;
                    BookUpdatedEvent.changes :=
                      BookUpdatedEvent.put_status
                        (ReadingStatusUtils.toString newStatus)
                        BookUpdatedEvent.noChanges;
                    BookUpdatedEvent.updatedAt := now |});
    let b := addDomainEvent event b in
    if bool_decide (newStatus = FINISHED ∧ yearRead b = None) then
      today ← newDate;
      year ← fullYear today;
      mret (set_yearRead (Some year) b)
    else mret b.

Definition markAsFinished (yearRead : Z) (rating : option Z) (b : t) : Js t :=
  validateYearRead yearRead;;
  newRating ← match rating with
               | Some r => call (andThen (Rating.create r) (fun v => Returned (Some v)))
               | None => mret (Book.rating b)
               end;
  let b := set_status FINISHED b in
  let b := set_yearRead (Some yearRead) b in
  let b := set_rating newRating b in
  now ← newDate;
  let b := set_updatedAt now b in
  event ← newDomainEvent BookFinishedEvent.EVENT_NAME
            (BookFinished
               {| BookFinishedEvent.bookId := id b;
                  BookFinishedEvent.authorId := authorId b;
                  BookFinishedEvent.title := title b;
                  BookFinishedEvent.pageCount := pageCount b;
                  BookFinishedEvent.yearRead := yearRead;
                  BookFinishedEvent.rating := newRating;
                  BookFinishedEvent.finishedAt := now |});
  mret (addDomainEvent event b).

Definition addQuote (content : string) (page : option Z) (b : t) : Js (Quote.t * t) :=
  quote ← Quote.create (id b) content page;
  let b := set_quotes (quotes b ++ [quote]) b in
  now ← newDate;
  let b := set_updatedAt now b in
  event ← newDomainEvent QuoteAddedEvent.EVENT_NAME
            (QuoteAdded
               {| QuoteAddedEvent.bookId := id b;
                  QuoteAddedEvent.quoteId := Quote.id quote;
                  QuoteAddedEvent.content := Quote.content quote;
                  QuoteAddedEvent.page := Quote.page quote |});
  mret (quote, addDomainEvent event b).

Definition addNote (content : string) (chapter : option string) (b : t) : Js (Note.t * t) :=
  note ← Note.create (id b) content chapter;
  let b := set_notes (notes b ++ [note]) b in
  now ← newDate;
  mret (note, set_updatedAt now b).

Definition markAsDeleted (b : t) : Js t :=
  event ← newDomainEvent BookDeletedEvent.EVENT_NAME
            (BookDeleted
               {| BookDeletedEvent.bookId := id b;
                  BookDeletedEvent.authorId := authorId b;
                  BookDeletedEvent.pageCount := pageCount b;
                  BookDeletedEvent.yearRead := Book.yearRead b |});
  mret (addDomainEvent event b).

End Book.

(** ** The write store (postgres.ts, PostgresBookRepository.ts)

    A table is a finite map from the primary key. The key columns are of
    type UUID; a key stands for the text of the uuid, and a statement with
    a parameter that is no uuid, which the server rejects, is not
    modelled. *)

Definition set_books (t : gmap string BookRow.t) (d : Database) : Database :=
  {| books := t; quotes := quotes d; notes := notes d |}.

Definition set_quotes (t : gmap string QuoteRow.t) (d : Database) : Database :=
  {| books := books d; quotes := t; notes := notes d |}.

Definition set_notes (t : gmap string NoteRow.t) (d : Database) : Database :=
  {| books := books d; quotes := quotes d; notes := t |}.

(** [transaction(callback)]: BEGIN, the callback, then COMMIT, or ROLLBACK
    and rethrow. One connection at a time works on the database, so a
    transaction is atomic and a rollback restores the tables found at
    BEGIN. *)
Definition transaction {A} (callback : Js A) : Js A := fun w =>
  match callback w with
  | (Returned a, w') => (Returned a, w')
  | (Thrown e, w') => (Thrown e, set_pg (pg w) w')
  end.

(** The reconciliation of a child table with the children of the
    aggregate, shared by [syncQuotes] and [syncNotes], which differ in the
    row type only. *)
Section SyncChildren.

Context {Child Row : Type}.
Variable childId : Child → string.
Variable rowBookId : Row → string.
(** [UPDATE ... SET ... WHERE id = $1] *)
Variable patch : Child → Row → Row.
(** The row of [INSERT INTO ... VALUES (...)] for a book id. *)
Variable fresh : string → Child → Row.
Variable pkey : string.

(** [SELECT id FROM t WHERE book_id = $1], collected in a [Set]. *)
Definition existingIdsOf (bookId : string) (table : gmap string Row) : gset string :=
  dom (filter (fun kv : string * Row => rowBookId kv.2 = bookId) table).

Definition currentIdsOf (children : list Child) : gset string :=
  list_to_set (childId <$> children).

(** The first loop: delete the rows whose id the aggregate lost. *)
Definition deleteRemoved (existingIds currentIds : gset string)
    (table : gmap string Row) : gmap string Row :=
  foldl (fun t existingId =>
           if bool_decide (existingId ∉ currentIds) then delete existingId t else t)
        table (elements existingIds).

(** The second loop: update the rows known at the start, insert the
    others; an insert under a taken primary key fails. *)
Fixpoint upsertAll (bookId : string) (existingIds : gset string)
    (children : list Child) (table : gmap string Row) : Outcome (gmap string Row) :=
  match children with
  | [] => Returned table
  | c :: rest =>
      if bool_decide (childId c ∈ existingIds) then
        upsertAll bookId existingIds rest (alter (patch c) (childId c) table)
      else
        match table !! childId c with
        | Some _ => Thrown (UniqueViolation pkey)
        | None =>
            upsertAll bookId existingIds rest (<[childId c := fresh bookId c]> table)
        end
  end.

Definition syncChildren (bookId : string) (children : list Child)
    (table : gmap string Row) : Outcome (gmap string Row) :=
  let existingIds := existingIdsOf bookId table in
  let currentIds := currentIdsOf children in
  upsertAll bookId existingIds children
    (deleteRemoved existingIds currentIds table).

End SyncChildren.

(** [xs.map(f)] where [f] may throw. *)
Fixpoint mapOutcome {A B} (f : A → Outcome B) (xs : list A) : Outcome (list B) :=
  match xs with
  | [] => Returned []
  | x :: xs' =>
      andThen (f x) (fun y =>
      andThen (mapOutcome f xs') (fun ys => Returned (y :: ys)))
  end.

Module PostgresBookRepository.

Definition quotePatch (q : Quote.t) (r : QuoteRow.t) : QuoteRow.t :=
  {| QuoteRow.book_id := QuoteRow.book_id r;
     QuoteRow.content := Quote.content q;
     QuoteRow.page := Quote.page q;
     QuoteRow.created_at := QuoteRow.created_at r |}.

Definition quoteFresh (bookId : string) (q : Quote.t) : QuoteRow.t :=
  {| QuoteRow.book_id := bookId;
     QuoteRow.content := Quote.content q;
     QuoteRow.page := Quote.page q;
     QuoteRow.created_at := Quote.createdAt q |}.

Definition notePatch (n : Note.t) (r : NoteRow.t) : NoteRow.t :=
  {| NoteRow.book_id := NoteRow.book_id r;
     NoteRow.content := Note.content n;
     NoteRow.chapter := Note.chapter n;
     NoteRow.created_at := NoteRow.created_at r |}.

Definition noteFresh (bookId : string) (n : Note.t) : NoteRow.t :=
  {| NoteRow.book_id := bookId;
     NoteRow.content := Note.content n;
     NoteRow.chapter := Note.chapter n;
     NoteRow.created_at := Note.createdAt n |}.

Definition existsInTransaction (id : string) : Js bool :=
  db ← getPg;
  mret (bool_decide (is_Some (books db !! id))).

(** The unique constraint on [books.isbn]: another row holds the same
    non-null ISBN. *)
Definition isbnTaken (id : string) (isbn : option string)
    (table : gmap string BookRow.t) : bool :=
  match isbn with
  | None => false
  | Some i =>
      existsb (fun kv : string * BookRow.t =>
                 bool_decide (kv.1 ≠ id ∧ BookRow.isbn kv.2 = Some i))
              (map_to_list table)
  end.

(** The row of [INSERT INTO books (...) VALUES ($1, ..., $12)]. *)
Definition insertValues (book : Book.t) : BookRow.t :=
  {| BookRow.title := Book.title book;
     BookRow.author_id := Book.authorId book;
     BookRow.page_count := Book.pageCount book;
     BookRow.isbn := Book.isbn book;
     BookRow.year_read := Book.yearRead book;
     BookRow.status := ReadingStatusUtils.toString (Book.status book);
     BookRow.rating := Book.rating book;
     BookRow.cover_url := Book.coverUrl book;
     BookRow.version := Book.version book + 1;
     BookRow.created_at := Book.createdAt book;
     BookRow.updated_at := Book.updatedAt book |}.

(** What [UPDATE books SET title = $2, ..., version = version + 1,
    updated_at = $9] makes of the row it matches. *)
Definition updateSet (book : Book.t) (row : BookRow.t) : BookRow.t :=
  {| BookRow.title := Book.title book;
     BookRow.author_id := BookRow.author_id row;
     BookRow.page_count := Book.pageCount book;
     BookRow.isbn := Book.isbn book;
     BookRow.year_read := Book.yearRead book;
     BookRow.status := ReadingStatusUtils.toString (Book.status book);
     BookRow.rating := Book.rating book;
     BookRow.cover_url := Book.coverUrl book;
     BookRow.version := BookRow.version row + 1;
     BookRow.created_at := BookRow.created_at row;
     BookRow.updated_at := Book.updatedAt book |}.

Definition insert (book : Book.t) : Js unit :=
  db ← getPg;
  if bool_decide (is_Some (books db !! Book.id book)) then
    throw (UniqueViolation "books_pkey")
  else if isbnTaken (Book.id book) (Book.isbn book) (books db) then
    throw (UniqueViolation "books_isbn_key")
  else
    putPg (set_books (<[Book.id book := insertValues book]> (books db)) db).

(** [UPDATE books SET ... WHERE id = $1 AND version = $10]; the result is
    the number of rows updated. *)
Definition updateStatement (book : Book.t) : Js Z :=
  db ← getPg;
  match books db !! Book.id book with
  | Some row =>
      if BookRow.version row =? Book.version book then
        if isbnTaken (Book.id book) (Book.isbn book) (books db) then
          throw (UniqueViolation "books_isbn_key")
        else
          putPg (set_books (<[Book.id book := updateSet book row]> (books db)) db);;
          mret 1
      else mret 0
  | None => mret 0
  end.

Definition update (book : Book.t) : Js unit :=
  rowCount ← updateStatement book;
  if rowCount =? 0 then
    throw (Error ("Optimistic concurrency conflict for Book " +:+ Book.id book))
  else mret tt.

Definition syncQuotes (book : Book.t) : Js unit :=
  db ← getPg;
  table ← call (syncChildren Quote.id QuoteRow.book_id quotePatch quoteFresh
                  "quotes_pkey" (Book.id book) (Book.quotes book) (quotes db));
  putPg (set_quotes table db).

Definition syncNotes (book : Book.t) : Js unit :=
  db ← getPg;
  table ← call (syncChildren Note.id NoteRow.book_id notePatch noteFresh
                  "notes_pkey" (Book.id book) (Book.notes book) (notes db));
  putPg (set_notes table db).

Definition save (book : Book.t) : Js unit :=
  transaction (
    exists_ ← existsInTransaction (Book.id book);
    (if exists_ : bool then update book else insert book);;
    syncQuotes book;;
    syncNotes book).

(** [SELECT * FROM quotes WHERE book_id = $1], in the order in which the
    table yields its rows, and the same [ORDER BY created_at]. *)
Definition selectQuotes (bookId : string) (db : Database) : list (string * QuoteRow.t) :=
  map_to_list (filter (fun kv : string * QuoteRow.t => QuoteRow.book_id kv.2 = bookId)
                      (quotes db)).

Definition quoteOrder (a b : string * QuoteRow.t) : Prop :=
  QuoteRow.created_at a.2 ≤ QuoteRow.created_at b.2.

#[global] Instance quoteOrder_dec a b : Decision (quoteOrder a b).
Proof. unfold quoteOrder. apply _. Defined.

Definition selectQuotesOrdered (bookId : string) (db : Database)
    : list (string * QuoteRow.t) :=
  merge_sort quoteOrder (selectQuotes bookId db).

Definition selectNotes (bookId : string) (db : Database) : list (string * NoteRow.t) :=
  map_to_list (filter (fun kv : string * NoteRow.t => NoteRow.book_id kv.2 = bookId)
                      (notes db)).

Definition noteOrder (a b : string * NoteRow.t) : Prop :=
  NoteRow.created_at a.2 ≤ NoteRow.created_at b.2.

#[global] Instance noteOrder_dec a b : Decision (noteOrder a b).
Proof. unfold noteOrder. apply _. Defined.

Definition selectNotesOrdered (bookId : string) (db : Database)
    : list (string * NoteRow.t) :=
  merge_sort noteOrder (selectNotes bookId db).

Definition toQuote (row : string * QuoteRow.t) : Outcome Quote.t :=
  Quote.reconstitute row.1 (QuoteRow.book_id row.2) (QuoteRow.content row.2)
    (QuoteRow.page row.2) (QuoteRow.created_at row.2).

(** The notes table has no [updated_at]: [created_at] is used for both. *)
Definition toNote (row : string * NoteRow.t) : Outcome Note.t :=
  Note.reconstitute row.1 (NoteRow.book_id row.2) (NoteRow.content row.2)
    (NoteRow.chapter row.2) (NoteRow.created_at row.2) (NoteRow.created_at row.2).

Definition toAggregate (id : string) (bookRow : BookRow.t)
    (quoteRows : list (string * QuoteRow.t))
    (noteRows : list (string * NoteRow.t)) : Outcome Book.t :=
  andThen (mapOutcome toQuote quoteRows) (fun quotes =>
  andThen (mapOutcome toNote noteRows) (fun notes =>
  Book.reconstitute
    {| Book.r_id := id;
       Book.r_title := BookRow.title bookRow;
       Book.r_authorId := BookRow.author_id bookRow;
       Book.r_pageCount := BookRow.page_count bookRow;
       Book.r_isbn := BookRow.isbn bookRow;
       Book.r_yearRead := BookRow.year_read bookRow;
       Book.r_status := BookRow.status bookRow;
       Book.r_rating := BookRow.rating bookRow;
       Book.r_coverUrl := BookRow.cover_url bookRow;
       Book.r_quotes := quotes;
       Book.r_notes := notes;
       Book.r_version := BookRow.version bookRow;
       Book.r_createdAt := BookRow.created_at bookRow;
       Book.r_updatedAt := BookRow.updated_at bookRow |})).

Definition findById (id : string) : Js (option Book.t) :=
  db ← getPg;
  match books db !! id with
  | None => mret None
  | Some bookRow =>
      book ← call (toAggregate id bookRow
                     (selectQuotesOrdered id db) (selectNotesOrdered id db));
      mret (Some book)
  end.

Definition findByIsbn (isbn : string) : Js (option Book.t) :=
  db ← getPg;
  match List.find (fun kv : string * BookRow.t =>
                     bool_decide (BookRow.isbn kv.2 = Some isbn))
                  (map_to_list (books db)) with
  | None => mret None
  | Some (id, bookRow) =>
      book ← call (toAggregate id bookRow (selectQuotes id db) (selectNotes id db));
      mret (Some book)
  end.

(** [DELETE FROM books WHERE id = $1]; quotes and notes go by CASCADE. *)
Definition delete (id : string) : Js unit :=
  transaction (
    db ← getPg;
    putPg {| books := base.delete id (books db);
             quotes := filter (fun kv : string * QuoteRow.t =>
                                 QuoteRow.book_id kv.2 ≠ id) (quotes db);
             notes := filter (fun kv : string * NoteRow.t =>
                                NoteRow.book_id kv.2 ≠ id) (notes db) |}).

End PostgresBookRepository.

(** ** The event publisher (rabbitmq.ts) *)

Definition EXCHANGE_NAME : string := "library.events".

Definition getChannel : Js (list Message) := fun w =>
  match channel w with
  | Some ch => (Returned ch, w)
  | None => (Thrown (Error "RabbitMQ not connected. Call connectRabbitMQ() first."), w)
  end.

(** [ch.publish(exchange, routingKey, content, options)] *)
Definition channelPublish (m : Message) : Js unit := fun w =>
  (Returned tt, set_channel ((fun ch : list Message => ch ++ [m]) <$> channel w) w).

Module RabbitMQEventPublisher.

Definition publish (event : DomainEvent) : Js unit :=
  _ ← getChannel;
  let routingKey := eventName event in
  let message := toJSON event in
  now ← newDate;
  channelPublish
    {| exchangeName := EXCHANGE_NAME;
       routingKey := routingKey;
       content := message;
       persistent := true;
       contentType := "application/json";
       timestamp := now;
       messageId := eventId event;
       headers := {| h_eventName := eventName event;
                     h_aggregateId := getAggregateId event;
                     h_correlationId := correlationId (metadata event) |} |};;
  record (PublishCalled (eventId event)).

Definition publishAll (events : list DomainEvent) : Js unit :=
  forOf events publish.

End RabbitMQEventPublisher.

(** ** Command handlers (application/handlers)

    The three calls a handler sequences leave a [Step] in the journal when
    they complete: [await this.bookRepository.save(book)],
    [await this.eventPublisher.publishAll(events)] and
    [book.clearDomainEvents()]. *)

Definition awaitSave (book : Book.t) : Js unit := fun w =>
  match PostgresBookRepository.save book w with
  | (Returned u, w') =>
      (Returned u, set_journal (journal w' ++ [SaveReturned (Book.id book)]) w')
  | (Thrown e, w') =>
      (Thrown e, set_journal (journal w' ++ [SaveThrew (Book.id book)]) w')
  end.

Definition awaitPublishAll (events : list DomainEvent) : Js unit :=
  RabbitMQEventPublisher.publishAll events;;
  record PublishAllReturned.

Definition callClearDomainEvents (book : Book.t) : Js Book.t :=
  record (EventsCleared (Book.id book));;
  mret (Book.clearDomainEvents book).

(** [const book = await this.bookRepository.findById(BookId.fromString(bookId));
    if (!book) throw new EntityNotFoundException('Book', bookId)] *)
Definition loadBook (bookId : string) : Js Book.t :=
  id ← call (BookId.fromString bookId);
  found ← PostgresBookRepository.findById id;
  match found with
  | Some book => mret book
  | None => throw (EntityNotFoundException "Book" bookId)
  end.

Module CreateBookHandler.

Definition execute (payload : Book.CreateBookProps) : Js string :=
  match truthyString (Book.p_isbn payload) with
  | Some isbn =>
      existingBook ← PostgresBookRepository.findByIsbn isbn;
      if bool_decide (is_Some existingBook)
      then throw (Error ("Book with ISBN " +:+ isbn +:+ " already exists"))
      else mret tt
  | None => mret tt
  end;;
  book ← Book.create payload;
  awaitSave book;;
  awaitPublishAll (Book.domainEvents book);;
  book ← callClearDomainEvents book;
  mret (Book.id book).

End CreateBookHandler.

Module UpdateBookHandler.

Definition execute (bookId : string) (changes : Book.DetailChanges) : Js unit :=
  book ← loadBook bookId;
  book ← Book.updateDetails changes book;
  awaitSave book;;
  if Book.hasUncommittedEvents book then
    awaitPublishAll (Book.domainEvents book);;
    _ ← callClearDomainEvents book;
    mret tt
  else mret tt.

End UpdateBookHandler.

Module MarkBookAsFinishedHandler.

Definition execute (bookId : string) (yearRead : Z) (rating : option Z) : Js unit :=
  book ← loadBook bookId;
  book ← Book.markAsFinished yearRead rating book;
  awaitSave book;;
  awaitPublishAll (Book.domainEvents book);;
  _ ← callClearDomainEvents book;
  mret tt.

End MarkBookAsFinishedHandler.

Module AddQuoteHandler.

Definition execute (bookId content : string) (page : option Z) : Js string :=
  book ← loadBook bookId;
  '(quote, book) ← Book.addQuote content page book;
  awaitSave book;;
  awaitPublishAll (Book.domainEvents book);;
  _ ← callClearDomainEvents book;
  mret (Quote.id quote).

End AddQuoteHandler.

Module DeleteBookHandler.

Definition execute (bookId : string) : Js unit :=
  id ← call (BookId.fromString bookId);
  found ← PostgresBookRepository.findById id;
  match found with
  | None => throw (EntityNotFoundException "Book" bookId)
  | Some book =>
      book ← Book.markAsDeleted book;
      PostgresBookRepository.delete id;;
      awaitPublishAll (Book.domainEvents book)
  end.

End DeleteBookHandler.

(** ** Projections onto the read store (BookProjections.ts)

    The collection is a finite map from [_id]. [insertOne] fails on a
    taken [_id]; [updateOne] without upsert and [deleteOne] do nothing
    when no document matches. *)

Definition insertOne (_id : string) (document : BookDocument.t) : Js unit :=
  collection ← getMongo;
  match collection !! _id with
  | Some _ => throw (DuplicateKeyError _id)
  | None => putMongo (<[_id := document]> collection)
  end.

Definition updateOne (_id : string) (update : BookDocument.t → BookDocument.t) : Js unit :=
  collection ← getMongo;
  putMongo (alter update _id collection).

Definition deleteOne (_id : string) : Js unit :=
  collection ← getMongo;
  putMongo (delete _id collection).

Module BookProjections.

Definition fetchAuthorName (authorId : string) : string :=
  "Author " +:+ Str.prefix 8 authorId.

Definition onBookCreated (payload : BookCreatedEvent.Payload) : Js unit :=
  let authorName := fetchAuthorName (BookCreatedEvent.authorId payload) in
  createdAt ← newDate;
  updatedAt ← newDate;
  insertOne (BookCreatedEvent.bookId payload)
    {| BookDocument.title := BookCreatedEvent.title payload;
       BookDocument.authorId := BookCreatedEvent.authorId payload;
       BookDocument.authorName := authorName;
       BookDocument.pageCount := BookCreatedEvent.pageCount payload;
       BookDocument.isbn := BookCreatedEvent.isbn payload;
       BookDocument.yearRead := BookCreatedEvent.yearRead payload;
       BookDocument.status := BookCreatedEvent.status payload;
       BookDocument.rating := None;
       BookDocument.coverUrl := None;
       BookDocument.quotes := [];
       BookDocument.notes := [];
       BookDocument.quotesCount := 0;
       BookDocument.notesCount := 0;
       BookDocument.createdAt := createdAt;
       BookDocument.updatedAt := updatedAt |}.

(** [{ $set: updateFields }]: [updatedAt] always, the five fields the
    handler copies when the change-set has them. *)
Definition setFields (changes : BookUpdatedEvent.Changes) (updatedAt : Z)
    (d : BookDocument.t) : BookDocument.t :=
  {| BookDocument.title := default (BookDocument.title d) (BookUpdatedEvent.title changes);
     BookDocument.authorId := BookDocument.authorId d;
     BookDocument.authorName := BookDocument.authorName d;
     BookDocument.pageCount :=
       default (BookDocument.pageCount d) (BookUpdatedEvent.pageCount changes);
     BookDocument.isbn := BookDocument.isbn d;
     BookDocument.yearRead :=
       default (BookDocument.yearRead d) (BookUpdatedEvent.yearRead changes);
     BookDocument.status :=
       default (BookDocument.status d) (BookUpdatedEvent.status changes);
     BookDocument.rating :=
       default (BookDocument.rating d) (BookUpdatedEvent.rating changes);
     BookDocument.coverUrl := BookDocument.coverUrl d;
     BookDocument.quotes := BookDocument.quotes d;
     BookDocument.notes := BookDocument.notes d;
     BookDocument.quotesCount := BookDocument.quotesCount d;
     BookDocument.notesCount := BookDocument.notesCount d;
     BookDocument.createdAt := BookDocument.createdAt d;
     BookDocument.updatedAt := updatedAt |}.

Definition onBookUpdated (payload : BookUpdatedEvent.Payload) : Js unit :=
  updateOne (BookUpdatedEvent.bookId payload)
    (setFields (BookUpdatedEvent.changes payload) (BookUpdatedEvent.updatedAt payload)).

Definition onBookDeleted (payload : BookDeletedEvent.Payload) : Js unit :=
  deleteOne (BookDeletedEvent.bookId payload).

(** [{ $push: { quotes: newQuote }, $inc: { quotesCount: 1 },
      $set: { updatedAt } }] *)
Definition pushQuote (newQuote : QuoteDocument.t) (updatedAt : Z)
    (d : BookDocument.t) : BookDocument.t :=
  {| BookDocument.title := BookDocument.title d;
     BookDocument.authorId := BookDocument.authorId d;
     BookDocument.authorName := BookDocument.authorName d;
     BookDocument.pageCount := BookDocument.pageCount d;
     BookDocument.isbn := BookDocument.isbn d;
     BookDocument.yearRead := BookDocument.yearRead d;
     BookDocument.status := BookDocument.status d;
     BookDocument.rating := BookDocument.rating d;
     BookDocument.coverUrl := BookDocument.coverUrl d;
     BookDocument.quotes := BookDocument.quotes d ++ [newQuote];
     BookDocument.notes := BookDocument.notes d;
     BookDocument.quotesCount := BookDocument.quotesCount d + 1;
     BookDocument.notesCount := BookDocument.notesCount d;
     BookDocument.createdAt := BookDocument.createdAt d;
     BookDocument.updatedAt := updatedAt |}.

Definition onQuoteAdded (payload : QuoteAddedEvent.Payload) : Js unit :=
  createdAt ← newDate;
  let newQuote :=
    {| QuoteDocument.id := QuoteAddedEvent.quoteId payload;
       QuoteDocument.content := QuoteAddedEvent.content payload;
       QuoteDocument.page := QuoteAddedEvent.page payload;
       QuoteDocument.createdAt := createdAt |} in
  updatedAt ← newDate;
  updateOne (QuoteAddedEvent.bookId payload) (pushQuote newQuote updatedAt).

End BookProjections.

(** [createProjectionRouter]: the handler of a received event, chosen by
    its name. The payload of a received event has the shape its name
    announces; an event that breaks this is treated like an unknown name. *)
Definition projectionRouter (event : DomainEvent) : Js unit :=
  match payload event with
  | BookCreated p =>
      if bool_decide (eventName event = "library.book.created")
      then BookProjections.onBookCreated p else mret tt
  | BookUpdated p =>
      if bool_decide (eventName event = "library.book.updated")
      then BookProjections.onBookUpdated p else mret tt
  | BookDeleted p =>
      if bool_decide (eventName event = "library.book.deleted")
      then BookProjections.onBookDeleted p else mret tt
  | QuoteAdded p =>
      if bool_decide (eventName event = "library.book.quote_added")
      then BookProjections.onQuoteAdded p else mret tt
  | BookFinished p =>
      if bool_decide (eventName event = "library.book.finished") then
        updatedAt ← newDate;
        BookProjections.onBookUpdated
          {| BookUpdatedEvent.bookId := BookFinishedEvent.bookId p;
             BookUpdatedEvent.changes :=
               {| BookUpdatedEvent.title := None;
                  BookUpdatedEvent.pageCount := None;
                  BookUpdatedEvent.yearRead := Some (Some (BookFinishedEvent.yearRead p));
                  BookUpdatedEvent.rating := Some (BookFinishedEvent.rating p);
                  BookUpdatedEvent.coverUrl := None;
                  BookUpdatedEvent.status := Some "FINISHED" |};
             BookUpdatedEvent.updatedAt := updatedAt |}
      else mret tt
  end.

(** * Predicates and sample data of the statements *)

Definition isReturned {A} (o : Outcome A) : bool := negb (isThrown o).

(** The inputs that [Book.create] accepts in world [w]: every value object
    can be created, the author id is not blank, the year (checked against
    the second reading of the clock) is in range, and a finished book has
    its year. *)
Definition validCreateProps (w : World) (props : Book.CreateBookProps) : bool :=
  isReturned (Title.create (Book.p_title props))
  && isReturned (PageCount.create (Book.p_pageCount props))
  && isReturned (orNull ISBN.create (truthyString (Book.p_isbn props)))
  && isReturned (orNull Rating.create (truthyNumber (Book.p_rating props)))
  && negb (Str.isBlank (Book.p_authorId props))
  && match Book.p_yearRead props with
     | Some y =>
         (1900 <=? y)
         && (y <=? getFullYear (host w) (clock (host w) (S (clockReads w))) + 1)
     | None => negb (bool_decide (default TO_READ (Book.p_status props) = FINISHED))
     end.

Definition sampleUuids : list string :=
  ["uuid-0"; "uuid-1"; "uuid-2"; "uuid-3"; "uuid-4"; "uuid-5"; "uuid-6"; "uuid-7"].

Definition sampleHost : Host :=
  {| clock := fun n => Z.of_nat n + 1704067200000;
     uuid := fun n => default "uuid-8" (sampleUuids !! n);
     getFullYear := fun _ => 2024 |}.

Definition emptyDatabase : Database := {| books := ∅; quotes := ∅; notes := ∅ |}.

Definition sampleWorld : World :=
  {| host := sampleHost; clockReads := 0; uuidDraws := 0;
     pg := emptyDatabase; channel := Some []; mongo := ∅; journal := [] |}.

Definition sampleProps : Book.CreateBookProps :=
  {| Book.p_title := "Domain-Driven Design";
     Book.p_authorId := "author-123";
     Book.p_pageCount := 560;
     Book.p_isbn := Some "978-0321125217";
     Book.p_yearRead := None;
     Book.p_status := Some READING;
     Book.p_rating := None;
     Book.p_coverUrl := None |}.

(** A book as [Book.create sampleProps] leaves it once saved and reloaded:
    status READING, no rating, no year, an empty outbox. *)
Definition sampleBook : Book.t :=
  {| Book.id := "uuid-0";
     Book.title := "Domain-Driven Design";
     Book.authorId := "author-123";
     Book.pageCount := 560;
     Book.isbn := Some "9780321125217";
     Book.yearRead := None;
     Book.status := READING;
     Book.rating := None;
     Book.coverUrl := None;
     Book.quotes := [];
     Book.notes := [];
     Book.createdAt := 1704067200000;
     Book.updatedAt := 1704067200000;
     Book.domainEvents := [];
     Book.version := 1 |}.

Definition abandonedBook : Book.t := Book.set_status ABANDONED sampleBook.

(** [{ rating: null }] *)
Definition nullRating : Book.DetailChanges :=
  {| Book.c_title := None; Book.c_pageCount := None; Book.c_yearRead := None;
     Book.c_rating := Some None; Book.c_coverUrl := None |}.

(** [{ title: 'Domain-Driven Design', pageCount: 560 }] *)
Definition sameTitleAndPages : Book.DetailChanges :=
  {| Book.c_title := Some "Domain-Driven Design"; Book.c_pageCount := Some 560;
     Book.c_yearRead := None; Book.c_rating := None; Book.c_coverUrl := None |}.

(** [{ title: 'Domain-Driven Design', pageCount: 561 }] *)
Definition sameTitleNewPages : Book.DetailChanges :=
  {| Book.c_title := Some "Domain-Driven Design"; Book.c_pageCount := Some 561;
     Book.c_yearRead := None; Book.c_rating := None; Book.c_coverUrl := None |}.

(** Replaying a projection handler: [appliedOnce] is the world after one
    application in [w], [appliedTwice] the world after a second
    application in the world the first one left. *)
Definition appliedOnce (handler : Js unit) (w : World) : World := (handler w).2.

Definition appliedTwice (handler : Js unit) (w : World) : World :=
  (handler (appliedOnce handler w)).2.

Definition idempotentOn (handler : Js unit) (w : World) : Prop :=
  mongo (appliedTwice handler w) = mongo (appliedOnce handler w).

Definition sampleDocument : BookDocument.t :=
  {| BookDocument.title := "Domain-Driven Design";
     BookDocument.authorId := "author-123";
     BookDocument.authorName := "Author author-1";
     BookDocument.pageCount := 560;
     BookDocument.isbn := Some "9780321125217";
     BookDocument.yearRead := None;
     BookDocument.status := "READING";
     BookDocument.rating := None;
     BookDocument.coverUrl := None;
     BookDocument.quotes := [];
     BookDocument.notes := [];
     BookDocument.quotesCount := 0;
     BookDocument.notesCount := 0;
     BookDocument.createdAt := 1704067200000;
     BookDocument.updatedAt := 1704067200000 |}.

(** A world whose read store holds the sample book. *)
Definition sampleReadWorld : World :=
  set_mongo {[ "uuid-0" := sampleDocument ]} sampleWorld.

Definition sampleQuoteAdded : QuoteAddedEvent.Payload :=
  {| QuoteAddedEvent.bookId := "uuid-0";
     QuoteAddedEvent.quoteId := "uuid-2";
     QuoteAddedEvent.content := "The bounded context is a central pattern.";
     QuoteAddedEvent.page := Some 42 |}.

(** The error [update] throws when no row matched. *)
Definition conflictError (id : string) : JsError :=
  Error ("Optimistic concurrency conflict for Book " +:+ id).

(** What [save] does to the three tables, as one function of the
    database; [save_run] shows that the transaction computes it. *)
Definition storeBookRow (book : Book.t) (table : gmap string BookRow.t)
    : Outcome (gmap string BookRow.t) :=
  match table !! Book.id book with
  | None =>
      if PostgresBookRepository.isbnTaken (Book.id book) (Book.isbn book) table
      then Thrown (UniqueViolation "books_isbn_key")
      else Returned (<[Book.id book := PostgresBookRepository.insertValues book]> table)
  | Some row =>
      if BookRow.version row =? Book.version book then
        if PostgresBookRepository.isbnTaken (Book.id book) (Book.isbn book) table
        then Thrown (UniqueViolation "books_isbn_key")
        else Returned
               (<[Book.id book := PostgresBookRepository.updateSet book row]> table)
      else Thrown (conflictError (Book.id book))
  end.

Definition syncedQuotes (book : Book.t) (table : gmap string QuoteRow.t)
    : Outcome (gmap string QuoteRow.t) :=
  syncChildren Quote.id QuoteRow.book_id PostgresBookRepository.quotePatch
    PostgresBookRepository.quoteFresh "quotes_pkey"
    (Book.id book) (Book.quotes book) table.

Definition syncedNotes (book : Book.t) (table : gmap string NoteRow.t)
    : Outcome (gmap string NoteRow.t) :=
  syncChildren Note.id NoteRow.book_id PostgresBookRepository.notePatch
    PostgresBookRepository.noteFresh "notes_pkey"
    (Book.id book) (Book.notes book) table.

Definition saveOutcome (book : Book.t) (db : Database) : Outcome Database :=
  andThen (storeBookRow book (books db)) (fun bookTable =>
  andThen (syncedQuotes book (quotes db)) (fun quoteTable =>
  andThen (syncedNotes book (notes db)) (fun noteTable =>
  Returned {| books := bookTable; quotes := quoteTable; notes := noteTable |}))).

(** Two writers of the same book. [storedWorld] holds the sample book at
    version 2; both writers loaded it there. The first saves a new title,
    the second then saves a new page count. *)
Definition storedWorld : World :=
  (PostgresBookRepository.save sampleBook sampleWorld).2.

Definition loadedBook : Book.t := Book.setVersion 2 sampleBook.

Definition firstWriter : Book.t := Book.set_title "DDD, 2nd printing" loadedBook.

Definition secondWriter : Book.t := Book.set_pageCount 561 loadedBook.

Definition worldAfterFirst : World :=
  (PostgresBookRepository.save firstWriter storedWorld).2.

(** Code that neither writes to the journal nor touches the channel. *)
Definition silent {A} (m : Js A) : Prop :=
  ∀ w, journal (m w).2 = journal w ∧ channel (m w).2 = channel w.

(** The order the journal must show within one execution of a handler:
    a publish call only after a save that returned, the clearing of the
    outbox only after [publishAll] returned, and after a save that threw
    neither of them. *)
Definition wellSequenced (steps : list Step) : Prop :=
  (∀ (i : nat) e, steps !! i = Some (PublishCalled e) →
     ∃ (j : nat) id, (j < i)%nat ∧ steps !! j = Some (SaveReturned id))
  ∧ (∀ (i : nat) id, steps !! i = Some (EventsCleared id) →
       ∃ j : nat, (j < i)%nat ∧ steps !! j = Some PublishAllReturned)
  ∧ (∀ id, SaveThrew id ∈ steps →
       ∀ s, s ∈ steps → (∀ e, s ≠ PublishCalled e) ∧ (∀ b, s ≠ EventsCleared b)).

(** A handler sequences its calls when, from every world, what it adds to
    the journal is well sequenced and a save that threw leaves the channel
    as it was. *)
Definition sequencesCalls {A} (handler : Js A) : Prop :=
  ∀ w, ∃ steps,
    journal (handler w).2 = journal w ++ steps
    ∧ wellSequenced steps
    ∧ (∀ id, SaveThrew id ∈ steps → channel (handler w).2 = channel w).

(** The shapes of what a handler adds to the journal. *)
Inductive HandlerTrace : list Step → Prop :=
| trace_nothing : HandlerTrace []
| trace_save_threw id : HandlerTrace [SaveThrew id]
| trace_saved id : HandlerTrace [SaveReturned id]
| trace_completed id (es : list DomainEvent) :
    HandlerTrace
      (SaveReturned id
         :: (PublishCalled ∘ eventId <$> es) ++ [PublishAllReturned; EventsCleared id]).

(** What the store gives back for a note: the table has no [updated_at],
    so the creation date stands in for it. *)
Definition noteReloaded (n : Note.t) : Note.t :=
  {| Note.id := Note.id n; Note.bookId := Note.bookId n;
     Note.content := Note.content n; Note.chapter := Note.chapter n;
     Note.createdAt := Note.createdAt n; Note.updatedAt := Note.createdAt n |}.

(** The aggregate that [findById] rebuilds after [save book]: the same
    state but for the notes' [updatedAt], the next version, an empty
    outbox. *)
Definition reloaded (book : Book.t) : Book.t :=
  {| Book.id := Book.id book;
     Book.title := Book.title book;
     Book.authorId := Book.authorId book;
     Book.pageCount := Book.pageCount book;
     Book.isbn := Book.isbn book;
     Book.yearRead := Book.yearRead book;
     Book.status := Book.status book;
     Book.rating := Book.rating book;
     Book.coverUrl := Book.coverUrl book;
     Book.quotes := Book.quotes book;
     Book.notes := noteReloaded <$> Book.notes book;
     Book.createdAt := Book.createdAt book;
     Book.updatedAt := Book.updatedAt book;
     Book.domainEvents := [];
     Book.version := Book.version book + 1 |}.

(** What the round trip asks of the aggregate. The constructors of the
    identifiers and of the value objects give the first three conditions:
    ids are not blank, an ISBN is not empty, a rating is not zero.
    [addQuote] and [addNote] give every child the id of the book. That the
    children have distinct ids is not checked anywhere: it holds as long
    as [uuidv4] does not repeat itself. Nothing is asked of the creation
    times: two children added within one millisecond carry the same
    [createdAt]. *)
Definition quoteWellFormed (bookId : string) (q : Quote.t) : bool :=
  negb (Str.isBlank (Quote.id q)) && bool_decide (Quote.bookId q = bookId).

Definition noteWellFormed (bookId : string) (n : Note.t) : bool :=
  negb (Str.isBlank (Note.id n)) && bool_decide (Note.bookId n = bookId).

Definition wellFormed (book : Book.t) : bool :=
  negb (Str.isBlank (Book.id book))
  && bool_decide (Book.isbn book ≠ Some "")
  && bool_decide (Book.rating book ≠ Some 0)
  && forallb (quoteWellFormed (Book.id book)) (Book.quotes book)
  && bool_decide (NoDup (Quote.id <$> Book.quotes book))
  && forallb (noteWellFormed (Book.id book)) (Book.notes book)
  && bool_decide (NoDup (Note.id <$> Book.notes book)).

(** The aggregate is in step with the database: the columns that [save]
    never rewrites hold the aggregate's values already. That is so for a
    new aggregate on a database that does not know its ids, and for an
    aggregate loaded from the database and changed by its commands. *)
Definition quoteInStep (db : Database) (bookId : string) (q : Quote.t) : bool :=
  match quotes db !! Quote.id q with
  | Some row =>
      negb (bool_decide (QuoteRow.book_id row = bookId))
      || (QuoteRow.created_at row =? Quote.createdAt q)
  | None => true
  end.

Definition noteInStep (db : Database) (bookId : string) (n : Note.t) : bool :=
  match notes db !! Note.id n with
  | Some row =>
      negb (bool_decide (NoteRow.book_id row = bookId))
      || (NoteRow.created_at row =? Note.createdAt n)
  | None => true
  end.

Definition inStepWith (db : Database) (book : Book.t) : bool :=
  match books db !! Book.id book with
  | Some row =>
      bool_decide (BookRow.author_id row = Book.authorId book)
      && (BookRow.created_at row =? Book.createdAt book)
  | None => true
  end
  && forallb (quoteInStep db (Book.id book)) (Book.quotes book)
  && forallb (noteInStep db (Book.id book)) (Book.notes book).

(** A book with two quotes and a note that was edited after its creation
    ([Note.updateContent] moved [updatedAt]). *)
Definition annotatedBook : Book.t :=
  Book.set_notes
    [{| Note.id := "uuid-6"; Note.bookId := "uuid-0";
        Note.content := "Aggregates are consistency boundaries.";
        Note.chapter := Some "Chapter 6";
        Note.createdAt := 1704067200010; Note.updatedAt := 1704067200999 |}]
    (Book.set_quotes
       [{| Quote.id := "uuid-2"; Quote.bookId := "uuid-0";
           Quote.content := "The bounded context is a central pattern.";
           Quote.page := Some 42; Quote.createdAt := 1704067200002 |};
        {| Quote.id := "uuid-4"; Quote.bookId := "uuid-0";
           Quote.content := "Make the implicit explicit.";
           Quote.page := None; Quote.createdAt := 1704067200005 |}]
       sampleBook).

(** A book with two quotes that [addQuote] stamped within the same
    millisecond. *)
Definition sameMillisecondBook : Book.t :=
  Book.set_quotes
    [{| Quote.id := "uuid-4"; Quote.bookId := "uuid-0";
        Quote.content := "Make the implicit explicit.";
        Quote.page := None; Quote.createdAt := 1704067200002 |};
     {| Quote.id := "uuid-2"; Quote.bookId := "uuid-0";
        Quote.content := "The bounded context is a central pattern.";
        Quote.page := Some 42; Quote.createdAt := 1704067200002 |}]
    sampleBook.

(** Three events of one aggregate, in the order of their emission. *)
Definition sampleEvent (id name : string) (at_ : Z) (p : EventPayload) : DomainEvent :=
  {| eventId := id; occurredAt := at_;
     metadata := {| meta_eventId := id; meta_occurredAt := at_;
                    correlationId := None; causationId := None; userId := None |};
     eventName := name; payload := p |}.

Definition sampleEvents : list DomainEvent :=
  [ sampleEvent "uuid-1" BookCreatedEvent.EVENT_NAME 1704067200001
      (BookCreated
         {| BookCreatedEvent.bookId := "uuid-0";
            BookCreatedEvent.title := "Domain-Driven Design";
            BookCreatedEvent.authorId := "author-123";
            BookCreatedEvent.pageCount := 560;
            BookCreatedEvent.isbn := Some "9780321125217";
            BookCreatedEvent.yearRead := None;
            BookCreatedEvent.status := "READING" |});
    sampleEvent "uuid-3" QuoteAddedEvent.EVENT_NAME 1704067200004
      (QuoteAdded sampleQuoteAdded);
    sampleEvent "uuid-5" BookFinishedEvent.EVENT_NAME 1704067200007
      (BookFinished
         {| BookFinishedEvent.bookId := "uuid-0";
            BookFinishedEvent.authorId := "author-123";
            BookFinishedEvent.title := "Domain-Driven Design";
            BookFinishedEvent.pageCount := 560;
            BookFinishedEvent.yearRead := 2024;
            BookFinishedEvent.rating := Some 5;
            BookFinishedEvent.finishedAt := 1704067200006 |}) ].

(** The change-set that lists the fields of [b'] that differ from [b]
    and only those, except that a null rating may be listed although the
    rating was null before. *)
Definition changedOr {A} `{EqDecision A} (old new : A) : option A :=
  if bool_decide (new = old) then None else Some new.

Definition changeSetOf (b b' : Book.t) (ch : BookUpdatedEvent.Changes) : Prop :=
  BookUpdatedEvent.title ch = changedOr (Book.title b) (Book.title b')
  ∧ BookUpdatedEvent.pageCount ch = changedOr (Book.pageCount b) (Book.pageCount b')
  ∧ BookUpdatedEvent.yearRead ch = changedOr (Book.yearRead b) (Book.yearRead b')
  ∧ BookUpdatedEvent.coverUrl ch = changedOr (Book.coverUrl b) (Book.coverUrl b')
  ∧ (BookUpdatedEvent.rating ch = changedOr (Book.rating b) (Book.rating b')
     ∨ (BookUpdatedEvent.rating ch = Some None
        ∧ Book.rating b = None ∧ Book.rating b' = None))
  ∧ BookUpdatedEvent.status ch = None.

Definition abandonedProps : Book.CreateBookProps :=
  {| Book.p_title := "Domain-Driven Design";
     Book.p_authorId := "author-123";
     Book.p_pageCount := 560;
     Book.p_isbn := Some "978-0321125217";
     Book.p_yearRead := None;
     Book.p_status := Some ABANDONED;
     Book.p_rating := None;
     Book.p_coverUrl := None |}.

Definition sampleNote : Note.t :=
  {| Note.id := "uuid-6"; Note.bookId := "uuid-0";
     Note.content := "Aggregates are boundaries.";
     Note.chapter := Some "Chapter 6";
     Note.createdAt := 1704067200010; Note.updatedAt := 1704067200010 |}.

(** * The remaining members of the classes

    The methods and getters that the pipeline above does not call. A
    module [XMore] holds the remaining members of the class [X], with the
    names they have there. *)

(** ** More of JavaScript's strings *)

Module Text.

(** [s.slice(n)] for [n ≥ 0] *)
Fixpoint skip (n : nat) (s : string) : string :=
  match n, s with
  | S n', String _ s' => skip n' s'
  | _, _ => s
  end.

(** [s.slice(from, to)] for [0 ≤ from ≤ to] *)
Definition slice (from to : nat) (s : string) : string :=
  Str.prefix (to - from)%nat (skip from s).

Definition toLowerChar (c : ascii) : ascii :=
  let n := nat_of_ascii c in
  if ((65 <=? n) && (n <=? 90))%nat then ascii_of_nat (n + 32) else c.

Fixpoint toLowerCase (s : string) : string :=
  match s with
  | EmptyString => EmptyString
  | String c s' => String (toLowerChar c) (toLowerCase s')
  end.

(** [hay.includes(needle)] *)
Fixpoint includes (needle hay : string) : bool :=
  String.prefix needle hay
  || match hay with
     | EmptyString => false
     | String _ hay' => includes needle hay'
     end.

End Text.

(** ** ISBN: formats and conversion (value-objects/ISBN.ts) *)

Module ISBNMore.

Definition isISBN10 (value : string) : bool := Str.len value =? 10.

Definition isISBN13 (value : string) : bool := Str.len value =? 13.

(** [parseInt] of a code unit that is no decimal digit, or of the
    [undefined] that indexing past the end gives, is [NaN]; the sum and
    the check digit are then [NaN] too, and the string ends in "NaN". *)
Definition toISBN13 (value : string) : string :=
  if isISBN13 value then value
  else
    let isbn12 := "978" +:+ Text.slice 0 9 value in
    let digits := Str.chars isbn12 in
    if (length digits =? 12)%nat && forallb Str.isDigit digits then
      let sum := ISBN.weighted13 0 digits in
      let check := (10 - sum mod 10) mod 10 in
      isbn12 +:+ pretty check
    else isbn12 +:+ "NaN".

Definition formatted (value : string) : string :=
  if isISBN13 value then
    Text.slice 0 3 value +:+ "-" +:+ Text.slice 3 4 value +:+ "-"
    +:+ Text.slice 4 6 value +:+ "-" +:+ Text.slice 6 12 value +:+ "-"
    +:+ Text.skip 12 value
  else
    Text.slice 0 1 value +:+ "-" +:+ Text.slice 1 4 value +:+ "-"
    +:+ Text.slice 4 9 value +:+ "-" +:+ Text.skip 9 value.

End ISBNMore.

(** ** Title: views (value-objects/Title.ts) *)

Module TitleMore.

Definition lowercase (value : string) : string := Text.toLowerCase value.

Definition isSlugChar (c : ascii) : bool :=
  let n := nat_of_ascii c in
  ((97 <=? n) && (n <=? 122))%nat || Str.isDigit c.

(** [s.replace(/[^a-z0-9]+/g, '-')]: [gap] tells that the previous code
    unit was outside the class, already replaced. *)
Fixpoint dashRuns (gap : bool) (s : string) : string :=
  match s with
  | EmptyString => EmptyString
  | String c s' =>
      if isSlugChar c then String c (dashRuns false s')
      else if gap then dashRuns true s'
      else String "-" (dashRuns true s')
  end.

Definition stripLeadingDash (s : string) : string :=
  match s with
  | String c s' => if Ascii.eqb c "-"%char then s' else s
  | EmptyString => s
  end.

Definition stripTrailingDash (s : string) : string :=
  String.rev (stripLeadingDash (String.rev s)).

(** [s.replace(/^-|-$/g, '')]: the dash at the start, then the dash at
    the end of what is left. *)
Definition stripEdgeDashes (s : string) : string :=
  stripTrailingDash (stripLeadingDash s).

Definition slug (value : string) : string :=
  stripEdgeDashes (dashRuns false (Text.toLowerCase value)).

Definition contains (searchTerm value : string) : bool :=
  Text.includes (Text.toLowerCase searchTerm) (lowercase value).

End TitleMore.

(** ** PageCount: views (value-objects/PageCount.ts) *)

Module PageCountMore.

Definition LONG_BOOK_THRESHOLD : Z := 500.

Definition isLongBook (value : Z) : bool := value >=? LONG_BOOK_THRESHOLD.

Definition isShortBook (value : Z) : bool := value <? 200.

Definition lengthDescription (value : Z) : string :=
  if value <? 100 then "very short"
  else if value <? 200 then "short"
  else if value <? 400 then "medium"
  else if value <? 600 then "long"
  else "very long".

Definition add (pages value : Z) : Outcome Z := PageCount.create (value + pages).

End PageCountMore.

(** ** Rating: views (value-objects/Rating.ts) *)

(** The two code units of the star representation, U+2605 and U+2606. *)
Inductive Star := BlackStar | WhiteStar.

#[global] Instance Star_eq_dec : EqDecision Star.
Proof. solve_decision. Defined.

Definition RangeError (msg : string) : JsError :=
  {| name := "RangeError"; code := None; message := msg |}.

Module RatingMore.

(** [c.repeat(count)] throws a RangeError for a negative count. *)
Definition repeat (c : Star) (count : Z) : Outcome (list Star) :=
  if count <? 0 then Thrown (RangeError ("Invalid count value: " +:+ pretty count))
  else Returned (replicate (Z.to_nat count) c).

Definition stars (value : Z) : Outcome (list Star) :=
  andThen (repeat BlackStar value) (fun filled =>
  andThen (repeat WhiteStar (Rating.MAX_RATING - value)) (fun empty =>
  Returned (filled ++ empty))).

Definition isHighRating (value : Z) : bool := value >=? 4.

Definition isLowRating (value : Z) : bool := value <=? 2.

Definition description (value : Z) : string :=
  if value =? 1 then "Poor"
  else if value =? 2 then "Fair"
  else if value =? 3 then "Good"
  else if value =? 4 then "Very Good"
  else if value =? 5 then "Excellent"
  else "Unknown".

End RatingMore.

(** ** Quote and Note: updates, previews, plain objects
    (entities/Quote.ts, entities/Note.ts) *)

Module QuoteObject.
Record t := {
  id : string;
  bookId : string;
  content : string;
  page : option Z;
  createdAt : Z
}.
End QuoteObject.

Module NoteObject.
Record t := {
  id : string;
  bookId : string;
  content : string;
  chapter : option string;
  createdAt : Z;
  updatedAt : Z
}.
End NoteObject.

Module QuoteMore.

Definition updateContent (content : string) (q : Quote.t) : Outcome Quote.t :=
  if Str.isBlank content then
    Thrown (DomainException "Quote content cannot be empty" "INVALID_QUOTE")
  else if Str.len content >? 5000 then
    Thrown (DomainException "Quote content cannot exceed 5000 characters" "INVALID_QUOTE")
  else
    Returned {| Quote.id := Quote.id q; Quote.bookId := Quote.bookId q;
                Quote.content := Str.trim content; Quote.page := Quote.page q;
                Quote.createdAt := Quote.createdAt q |}.

Definition updatePage (page : option Z) (q : Quote.t) : Outcome Quote.t :=
  if match page with Some p => p <? 1 | None => false end then
    Thrown (DomainException "Page number must be a positive integer" "INVALID_QUOTE")
  else
    Returned {| Quote.id := Quote.id q; Quote.bookId := Quote.bookId q;
                Quote.content := Quote.content q; Quote.page := page;
                Quote.createdAt := Quote.createdAt q |}.

(** [substring(0, maxLength)] reads a negative [maxLength] as 0. *)
Definition getPreview (maxLength : Z) (q : Quote.t) : string :=
  if Str.len (Quote.content q) <=? maxLength then Quote.content q
  else Str.trim (Str.prefix (Z.to_nat maxLength) (Quote.content q)) +:+ "...".

Definition toObject (q : Quote.t) : QuoteObject.t :=
  {| QuoteObject.id := Quote.id q;
     QuoteObject.bookId := Quote.bookId q;
     QuoteObject.content := Quote.content q;
     QuoteObject.page := Quote.page q;
     QuoteObject.createdAt := Quote.createdAt q |}.

End QuoteMore.

Module NoteMore.

Definition updateChapter (chapter : option string) (n : Note.t) : Js Note.t :=
  if match chapter with Some c => Str.len c >? 255 | None => false end then
    throw (DomainException "Chapter name cannot exceed 255 characters" "INVALID_NOTE")
  else
    now ← newDate;
    mret {| Note.id := Note.id n; Note.bookId := Note.bookId n;
            Note.content := Note.content n;
            Note.chapter := Str.trim <$> chapter;
            Note.createdAt := Note.createdAt n; Note.updatedAt := now |}.

Definition getPreview (maxLength : Z) (n : Note.t) : string :=
  if Str.len (Note.content n) <=? maxLength then Note.content n
  else Str.trim (Str.prefix (Z.to_nat maxLength) (Note.content n)) +:+ "...".

Definition toObject (n : Note.t) : NoteObject.t :=
  {| NoteObject.id := Note.id n;
     NoteObject.bookId := Note.bookId n;
     NoteObject.content := Note.content n;
     NoteObject.chapter := Note.chapter n;
     NoteObject.createdAt := Note.createdAt n;
     NoteObject.updatedAt := Note.updatedAt n |}.

End NoteMore.

(** ** Book: removal of children, getters, plain object (aggregates/Book.ts) *)

Module BookObject.
Record t := {
  id : string;
  title : string;
  authorId : string;
  pageCount : Z;
  isbn : option string;
  yearRead : option Z;
  status : string;
  rating : option Z;
  coverUrl : option string;
  quotes : list QuoteObject.t;
  notes : list NoteObject.t;
  version : Z;
  createdAt : Z;
  updatedAt : Z
}.
End BookObject.

Module BookMore.

Definition isFinished (b : Book.t) : bool := bool_decide (Book.status b = FINISHED).

Definition isLongBook (b : Book.t) : bool := PageCountMore.isLongBook (Book.pageCount b).

(** [findIndex], then [splice(index, 1)]. *)
Definition removeQuote (quoteId : string) (b : Book.t) : Js Book.t :=
  match list_find (fun q => Quote.id q = quoteId) (Book.quotes b) with
  | None => throw (DomainException "Quote not found" "QUOTE_NOT_FOUND")
  | Some (index, _) =>
      let b := Book.set_quotes (delete index (Book.quotes b)) b in
      now ← newDate;
      mret (Book.set_updatedAt now b)
  end.

Definition removeNote (noteId : string) (b : Book.t) : Js Book.t :=
  match list_find (fun n => Note.id n = noteId) (Book.notes b) with
  | None => throw (DomainException "Note not found" "NOTE_NOT_FOUND")
  | Some (index, _) =>
      let b := Book.set_notes (delete index (Book.notes b)) b in
      now ← newDate;
      mret (Book.set_updatedAt now b)
  end.

Definition toObject (b : Book.t) : BookObject.t :=
  {| BookObject.id := Book.id b;
     BookObject.title := Book.title b;
     BookObject.authorId := Book.authorId b;
     BookObject.pageCount := Book.pageCount b;
     BookObject.isbn := Book.isbn b;
     BookObject.yearRead := Book.yearRead b;
     BookObject.status := ReadingStatusUtils.toString (Book.status b);
     BookObject.rating := Book.rating b;
     BookObject.coverUrl := Book.coverUrl b;
     BookObject.quotes := QuoteMore.toObject <$> Book.quotes b;
     BookObject.notes := NoteMore.toObject <$> Book.notes b;
     BookObject.version := Book.version b;
     BookObject.createdAt := Book.createdAt b;
     BookObject.updatedAt := Book.updatedAt b |}.

(** [uncommittedEventsCount] of AggregateRoot. *)
Definition uncommittedEventsCount (b : Book.t) : nat := length (Book.domainEvents b).

End BookMore.

(** ** The write repository: exists, nextId (PostgresBookRepository.ts) *)

Module PostgresBookRepositoryMore.

Definition exists_ (id : string) : Js bool :=
  db ← getPg;
  mret (bool_decide (is_Some (books db !! id))).

Definition nextId : Js string := BookId.generate.

End PostgresBookRepositoryMore.

(** ** The consumer of the queue (rabbitmq.ts, subscribeToEvents)

    The callback given to [ch.consume]. A null message is ignored.
    Otherwise the event is parsed from the content and handed to the
    handler; the message is acknowledged when the handler returns and
    rejected without requeue, [ch.nack(msg, false, false)], when it
    throws. The callback itself does not throw. *)

Inductive Settlement := Acked | NackedWithoutRequeue.

Definition onMessage (handler : DomainEvent → Js unit) (msg : option Message)
    : Js (option Settlement) := fun w =>
  match msg with
  | None => (Returned None, w)
  | Some msg =>
      let event := content msg in
      match handler event w with
      | (Returned _, w') => (Returned (Some Acked), w')
      | (Thrown _, w') => (Returned (Some NackedWithoutRequeue), w')
      end
  end.

(** ** The event base class: construction with metadata, withCorrelation
       (shared-kernel DomainEvent.ts, domain/events) *)

Module DomainEventMore.

(** [Partial<EventMetadata>] *)
Record PartialMetadata := {
  p_eventId : option string;
  p_occurredAt : option Z;
  p_correlationId : option string;
  p_causationId : option string;
  p_userId : option string
}.

(** [protected constructor(eventName, payload, metadata?)] *)
Definition construct (eventName : string) (payload : EventPayload)
    (metadata : option PartialMetadata) : Js DomainEvent :=
  eventId ← match metadata ≫= p_eventId with
             | Some given => mret given
             | None => uuidv4
             end;
  occurredAt ← match metadata ≫= p_occurredAt with
                | Some given => mret given
                | None => newDate
                end;
  mret {| eventId := eventId;
          occurredAt := occurredAt;
          metadata := {| meta_eventId := eventId;
                         meta_occurredAt := occurredAt;
                         correlationId := metadata ≫= p_correlationId;
                         causationId := metadata ≫= p_causationId;
                         userId := metadata ≫= p_userId |};
          eventName := eventName;
          payload := payload |}.

(** [static readonly EVENT_NAME] of the class of a payload. *)
Definition EVENT_NAME (payload : EventPayload) : string :=
  match payload with
  | BookCreated _ => BookCreatedEvent.EVENT_NAME
  | BookUpdated _ => BookUpdatedEvent.EVENT_NAME
  | BookDeleted _ => BookDeletedEvent.EVENT_NAME
  | BookFinished _ => BookFinishedEvent.EVENT_NAME
  | QuoteAdded _ => QuoteAddedEvent.EVENT_NAME
  end.

(** [new Constructor(payload, metadata)] for the class of an event of the
    book service. Each of the five classes declares
    [constructor(payload) { super(EVENT_NAME, payload); }]: the second
    argument of the call has no parameter to go to. *)
Definition newConstructor (payload : EventPayload)
    (metadata : option PartialMetadata) : Js DomainEvent :=
  construct (EVENT_NAME payload) payload None.

(** [{ ...this.metadata, correlationId, causationId: causationId ?? this.eventId }] *)
Definition withCorrelation (correlationId : string) (causationId : option string)
    (this : DomainEvent) : Js DomainEvent :=
  newConstructor (payload this)
    (Some {| p_eventId := Some (meta_eventId (metadata this));
             p_occurredAt := Some (meta_occurredAt (metadata this));
             p_correlationId := Some correlationId;
             p_causationId := Some (default (eventId this) causationId);
             p_userId := userId (metadata this) |}).

End DomainEventMore.

(** * Predicates of the further statements *)

(** The code units of a normalized ISBN: a decimal digit or [X]. *)
Definition isIsbnChar (c : ascii) : bool := Str.isDigit c || Ascii.eqb c "X"%char.

(** The string [s] with the code unit at index [i] replaced by [d]. *)
Fixpoint setChar (i : nat) (d : ascii) (s : string) : string :=
  match s, i with
  | EmptyString, _ => EmptyString
  | String _ s', O => String d s'
  | String c s', S i' => String c (setChar i' d s')
  end.

(** The invariant of a quote: its content is trimmed, not empty and at
    most 5000 code units long; its page, when there is one, is at least 1. *)
Definition quoteValid (q : Quote.t) : bool :=
  negb (bool_decide (Quote.content q = ""))
  && bool_decide (Str.trim (Quote.content q) = Quote.content q)
  && (Str.len (Quote.content q) <=? 5000)
  && match Quote.page q with Some p => 1 <=? p | None => true end.

(** The quotes that the class can produce: by [create], then by any
    number of updates. *)
Inductive QuoteReachable : Quote.t → Prop :=
| quote_created bookId content page w q w' :
    Quote.create bookId content page w = (Returned q, w') → QuoteReachable q
| quote_content_updated content q q' :
    QuoteReachable q → QuoteMore.updateContent content q = Returned q' →
    QuoteReachable q'
| quote_page_updated page q q' :
    QuoteReachable q → QuoteMore.updatePage page q = Returned q' →
    QuoteReachable q'.

(** The invariant of a note: its content is trimmed, not empty and at
    most 10000 code units long; its chapter, when there is one, is trimmed
    and at most 255 code units long. *)
Definition noteValid (n : Note.t) : bool :=
  negb (bool_decide (Note.content n = ""))
  && bool_decide (Str.trim (Note.content n) = Note.content n)
  && (Str.len (Note.content n) <=? 10000)
  && match Note.chapter n with
     | Some c => (Str.len c <=? 255) && bool_decide (Str.trim c = c)
     | None => true
     end.

Inductive NoteReachable : Note.t → Prop :=
| note_created bookId content chapter w n w' :
    Note.create bookId content chapter w = (Returned n, w') → NoteReachable n
| note_content_updated content n w n' w' :
    NoteReachable n → Note.updateContent content n w = (Returned n', w') →
    NoteReachable n'
| note_chapter_updated chapter n w n' w' :
    NoteReachable n → NoteMore.updateChapter chapter n w = (Returned n', w') →
    NoteReachable n'.

Definition sampleQuote : Quote.t :=
  {| Quote.id := "uuid-2"; Quote.bookId := "uuid-0";
     Quote.content := "The bounded context is a central pattern.";
     Quote.page := Some 42; Quote.createdAt := 1704067200002 |}.

(** Rebuilding an aggregate from its plain object, with the three
    [reconstitute] methods. *)
Definition quoteFromObject (o : QuoteObject.t) : Outcome Quote.t :=
  Quote.reconstitute (QuoteObject.id o) (QuoteObject.bookId o)
    (QuoteObject.content o) (QuoteObject.page o) (QuoteObject.createdAt o).

Definition noteFromObject (o : NoteObject.t) : Outcome Note.t :=
  Note.reconstitute (NoteObject.id o) (NoteObject.bookId o)
    (NoteObject.content o) (NoteObject.chapter o) (NoteObject.createdAt o)
    (NoteObject.updatedAt o).

Definition bookFromObject (o : BookObject.t) : Outcome Book.t :=
  andThen (mapOutcome quoteFromObject (BookObject.quotes o)) (fun quotes =>
  andThen (mapOutcome noteFromObject (BookObject.notes o)) (fun notes =>
  Book.reconstitute
    {| Book.r_id := BookObject.id o;
       Book.r_title := BookObject.title o;
       Book.r_authorId := BookObject.authorId o;
       Book.r_pageCount := BookObject.pageCount o;
       Book.r_isbn := BookObject.isbn o;
       Book.r_yearRead := BookObject.yearRead o;
       Book.r_status := BookObject.status o;
       Book.r_rating := BookObject.rating o;
       Book.r_coverUrl := BookObject.coverUrl o;
       Book.r_quotes := quotes;
       Book.r_notes := notes;
       Book.r_version := BookObject.version o;
       Book.r_createdAt := BookObject.createdAt o;
       Book.r_updatedAt := BookObject.updatedAt o |})).

(** What the constructors of the identifiers and of the value objects
    guarantee of an aggregate: no id is blank, an ISBN is not empty, a
    rating is not zero. *)
Definition idsPresent (b : Book.t) : bool :=
  negb (Str.isBlank (Book.id b))
  && bool_decide (Book.isbn b ≠ Some "")
  && bool_decide (Book.rating b ≠ Some 0)
  && forallb (fun q => negb (Str.isBlank (Quote.id q))
                       && negb (Str.isBlank (Quote.bookId q))) (Book.quotes b)
  && forallb (fun n => negb (Str.isBlank (Note.id n))
                       && negb (Str.isBlank (Note.bookId n))) (Book.notes b).

(** The commands of the aggregate, as one type. *)
Inductive BookCommand :=
| UpdateDetails (changes : Book.DetailChanges)
| ChangeStatus (newStatus : ReadingStatus)
| MarkAsFinished (yearRead : Z) (rating : option Z)
| AddQuote (content : string) (page : option Z)
| RemoveQuote (quoteId : string)
| AddNote (content : string) (chapter : option string)
| RemoveNote (noteId : string)
| MarkAsDeleted.

Definition runCommand (c : BookCommand) (b : Book.t) : Js Book.t :=
  match c with
  | UpdateDetails changes => Book.updateDetails changes b
  | ChangeStatus newStatus => Book.changeStatus newStatus b
  | MarkAsFinished yearRead rating => Book.markAsFinished yearRead rating b
  | AddQuote content page => '(_, b') ← Book.addQuote content page b; mret b'
  | RemoveQuote quoteId => BookMore.removeQuote quoteId b
  | AddNote content chapter => '(_, b') ← Book.addNote content chapter b; mret b'
  | RemoveNote noteId => BookMore.removeNote noteId b
  | MarkAsDeleted => Book.markAsDeleted b
  end.

Definition isUpdateDetails (c : BookCommand) : bool :=
  match c with UpdateDetails _ => true | _ => false end.

(** A finished book has the year in which it was read. *)
Definition finishedHasYear (b : Book.t) : bool :=
  negb (bool_decide (Book.status b = FINISHED))
  || bool_decide (is_Some (Book.yearRead b)).

(** [{ yearRead: null }] *)
Definition nullYearRead : Book.DetailChanges :=
  {| Book.c_title := None; Book.c_pageCount := None; Book.c_yearRead := Some None;
     Book.c_rating := None; Book.c_coverUrl := None |}.

Definition finishedBook : Book.t :=
  Book.set_yearRead (Some 2023) (Book.set_status FINISHED sampleBook).

(** Code that touches no store: the host, the write store, the channel,
    the read store and the journal stay as they are; only the counters of
    clock readings and of UUIDs may move, forward. *)
Definition sameStores (w w' : World) : Prop :=
  host w' = host w ∧ pg w' = pg w ∧ channel w' = channel w
  ∧ mongo w' = mongo w ∧ journal w' = journal w
  ∧ (clockReads w ≤ clockReads w')%nat ∧ (uuidDraws w ≤ uuidDraws w')%nat.

Definition keepsStores {A} (m : Js A) : Prop := ∀ w, sameStores w (m w).2.

(** What no command may change: the identity of the aggregate, its author,
    its ISBN, its creation date and its version. *)
Definition keepsIdentity (b b' : Book.t) : Prop :=
  Book.id b' = Book.id b
  ∧ Book.authorId b' = Book.authorId b
  ∧ Book.isbn b' = Book.isbn b
  ∧ Book.createdAt b' = Book.createdAt b
  ∧ Book.version b' = Book.version b.

(** A second book, with one quote of its own and no ISBN. *)
Definition otherBook : Book.t :=
  {| Book.id := "uuid-7";
     Book.title := "Implementing Domain-Driven Design";
     Book.authorId := "author-456";
     Book.pageCount := 656;
     Book.isbn := None;
     Book.yearRead := None;
     Book.status := TO_READ;
     Book.rating := None;
     Book.coverUrl := None;
     Book.quotes :=
       [{| Quote.id := "uuid-8"; Quote.bookId := "uuid-7";
           Quote.content := "Model the ubiquitous language.";
           Quote.page := Some 20; Quote.createdAt := 1704067200020 |}];
     Book.notes := [];
     Book.createdAt := 1704067200019;
     Book.updatedAt := 1704067200020;
     Book.domainEvents := [];
     Book.version := 0 |}.

(** The world of [storedWorld] some clock readings and UUIDs later. *)
Definition laterWorld : World :=
  {| host := host storedWorld; clockReads := 5; uuidDraws := 5;
     pg := pg storedWorld; channel := channel storedWorld;
     mongo := mongo storedWorld; journal := journal storedWorld |}.

(** The text of a uuid value: 32 lower-case hexadecimal digits in groups
    of 8, 4, 4, 4 and 12, joined by dashes. [uuidv4()] generates ids in
    this form, and PostgreSQL gives the value of a UUID column back in it.
    The [id] and [book_id] columns of the three tables are of type UUID
    (postgres.ts, initializeDatabase): a key of a table of the model
    stands for such a text, and a statement whose parameter is no uuid,
    which the server rejects, is outside the model. A theorem about an id
    that no code has produced takes the id in this form. *)
Definition isLowerHex (c : ascii) : bool :=
  let n := nat_of_ascii c in
  Str.isDigit c || ((97 <=? n) && (n <=? 102))%nat.

Fixpoint uuidShape (i : nat) (s : string) : bool :=
  match s with
  | EmptyString => (i =? 36)%nat
  | String c s' =>
      (if ((i =? 8) || (i =? 13) || (i =? 18) || (i =? 23))%nat
       then Ascii.eqb c "-"%char else isLowerHex c)
      && uuidShape (S i) s'
  end.

Definition uuidText (s : string) : bool := uuidShape 0 s.

(** A book whose ids are uuids, with one quote, and the world in which it
    has been saved; an id that is stored nowhere. *)
Definition uuidBook : Book.t :=
  {| Book.id := "3b241101-e2bb-4255-8caf-4136c566a962";
     Book.title := "Domain-Driven Design";
     Book.authorId := "9c5b94b1-35ad-49bb-b118-8e8fc24abf80";
     Book.pageCount := 560;
     Book.isbn := Some "9780321125217";
     Book.yearRead := None;
     Book.status := READING;
     Book.rating := None;
     Book.coverUrl := None;
     Book.quotes :=
       [{| Quote.id := "c4a760a8-dbcf-4e14-9f39-645a8e933d60";
           Quote.bookId := "3b241101-e2bb-4255-8caf-4136c566a962";
           Quote.content := "The bounded context is a central pattern.";
           Quote.page := Some 42; Quote.createdAt := 1704067200002 |}];
     Book.notes := [];
     Book.createdAt := 1704067200000;
     Book.updatedAt := 1704067200002;
     Book.domainEvents := [];
     Book.version := 0 |}.

Definition uuidWorld : World := (PostgresBookRepository.save uuidBook sampleWorld).2.

Definition unknownId : string := "7d444840-9dc0-41e1-b2a1-0c1d2e3f4a5b".

(** The events of an outbox handed to the projection router one by one,
    in order, as the consumer of the queue does. *)
Definition projectAll (events : list DomainEvent) : Js unit :=
  forOf events projectionRouter.

(** A document of the read store shows the aggregate's title, page count,
    year, rating and status. *)
Definition agrees (b : Book.t) (d : BookDocument.t) : Prop :=
  BookDocument.title d = Book.title b
  ∧ BookDocument.pageCount d = Book.pageCount b
  ∧ BookDocument.yearRead d = Book.yearRead b
  ∧ BookDocument.rating d = Book.rating b
  ∧ BookDocument.status d = ReadingStatusUtils.toString (Book.status b).

(** The commands after which the document of the book is still there and
    is told of every change: all but the deletion and but [changeStatus]
    when it fills in the year of a book that has none. *)
Definition followedByReadModel (c : BookCommand) (b : Book.t) : bool :=
  match c with
  | MarkAsDeleted => false
  | ChangeStatus newStatus =>
      negb (bool_decide (newStatus = FINISHED) && bool_decide (Book.yearRead b = None))
  | _ => true
  end.

(** The shape every document written by the projections has: the counter
    of quotes is the length of the list, there are no notes, no cover. *)
Definition documentShape (d : BookDocument.t) : bool :=
  (BookDocument.quotesCount d =? Z.of_nat (length (BookDocument.quotes d)))
  && bool_decide (BookDocument.notes d = [])
  && (BookDocument.notesCount d =? 0)
  && bool_decide (BookDocument.coverUrl d = None).

(** The two sides of the service. Code of the command side leaves the
    read store alone; code of the projections leaves the tables, the
    channel and the journal alone. *)
Definition leavesReadStore {A} (m : Js A) : Prop :=
  ∀ w, mongo (m w).2 = mongo w.

Definition leavesWriteSide {A} (m : Js A) : Prop :=
  ∀ w, pg (m w).2 = pg w ∧ channel (m w).2 = channel w ∧ journal (m w).2 = journal w.

(** A string over the alphabet of slugs (a to z, 0 to 9 and the dash) in
    which no dash follows a dash; [afterDash] tells that the code unit
    before the string is a dash. *)
Fixpoint slugShaped (afterDash : bool) (s : string) : bool :=
  match s with
  | EmptyString => true
  | String c s' =>
      if Ascii.eqb c "-"%char then negb afterDash && slugShaped true s'
      else TitleMore.isSlugChar c && slugShaped false s'
  end.

(** * Properties *)

(** ** Value objects on examples *)

Example title_normalized :
  Title.create "  Domain-Driven   Design " = Returned "Domain-Driven Design".
Proof. reflexivity. Qed.

Example isbn13_accepted : ISBN.create "978-0-13-468599-1" = Returned "9780134685991".
Proof. reflexivity. Qed.

Example isbn10_accepted : ISBN.create "0-321-12521-5" = Returned "0321125215".
Proof. reflexivity. Qed.

Example isbn_rejected : isThrown (ISBN.create "978-0-13-468599-2") = true.
Proof. reflexivity. Qed.

Example allowed_transitions :
  ReadingStatusUtils.canTransition READING FINISHED = true
  ∧ ReadingStatusUtils.canTransition ABANDONED FINISHED = false
  ∧ ReadingStatusUtils.canTransition TO_READ FINISHED = false
  ∧ ReadingStatusUtils.canTransition FINISHED READING = true.
Proof. repeat split. Qed.

(** ** Running monadic code *)

Lemma run_bind {A B} (m : Js A) (f : A → Js B) (w : World) :
  (m ≫= f) w =
  match m w with
  | (Returned a, w') => f a w'
  | (Thrown e, w') => (Thrown e, w')
  end.
Proof. reflexivity. Qed.

Ltac js_unfold :=
  unfold mbind, Js_bind, mret, Js_ret, call, throw, newDate, uuidv4, fullYear,
    getPg, putPg, getMongo, putMongo, record in *.

Lemma isReturned_inv {A} (o : Outcome A) :
  isReturned o = true → ∃ a, o = Returned a.
Proof. destruct o; [eauto | discriminate]. Qed.

(** ** Book.create *)

(** [Book.create] returns exactly on the inputs [validCreateProps]
    describes. *)
Lemma create_returns_only_valid props w b w' :
  Book.create props w = (Returned b, w') → validCreateProps w props = true.
Proof.
  unfold Book.create, BookId.generate, Book.validateYearRead, newDomainEvent,
    validCreateProps.
  js_unfold. cbn.
  destruct (Title.create _); [|discriminate].
  destruct (PageCount.create _); [|discriminate].
  destruct (orNull ISBN.create _); [|discriminate].
  destruct (orNull Rating.create _); [|discriminate].
  destruct (Str.isBlank _); [discriminate|].
  destruct (Book.p_yearRead props) as [y|]; cbn.
  - destruct (y <? 1900) eqn:E1; [discriminate|].
    destruct (y >? _) eqn:E2; [discriminate|]. intros _.
    rewrite andb_true_iff. split; lia.
  - repeat case_bool_decide; try discriminate; naive_solver.
Qed.

(** C7. For every valid input, [Book.create] returns an aggregate whose
    version is 0 and whose outbox holds exactly one event: the creation
    event, carrying the bookId, title, authorId, pageCount, isbn, yearRead
    and status of the new aggregate. *)
Theorem create_version_zero_one_event (props : Book.CreateBookProps) (w : World) :
  validCreateProps w props = true →
  ∃ b w' e,
    Book.create props w = (Returned b, w')
    ∧ Book.version b = 0
    ∧ Book.domainEvents b = [e]
    ∧ eventName e = BookCreatedEvent.EVENT_NAME
    ∧ payload e =
        BookCreated
          {| BookCreatedEvent.bookId := Book.id b;
             BookCreatedEvent.title := Book.title b;
             BookCreatedEvent.authorId := Book.authorId b;
             BookCreatedEvent.pageCount := Book.pageCount b;
             BookCreatedEvent.isbn := Book.isbn b;
             BookCreatedEvent.yearRead := Book.yearRead b;
             BookCreatedEvent.status := ReadingStatusUtils.toString (Book.status b) |}.
Proof.
  unfold validCreateProps. rewrite !andb_true_iff.
  intros [[[[[Ht Hp] Hi] Hr] Ha] Hy].
  apply isReturned_inv in Ht as [t Ht], Hp as [p Hp], Hi as [i Hi], Hr as [r Hr].
  apply negb_true_iff in Ha.
  unfold Book.create, BookId.generate, Book.validateYearRead, newDomainEvent.
  js_unfold. cbn. rewrite Ht, Hp, Hi, Hr, Ha. cbn.
  destruct (Book.p_yearRead props) as [y|]; cbn.
  - apply andb_true_iff in Hy as [Hlo Hhi].
    replace (y <? 1900) with false by lia.
    replace (y >? _) with false by lia. cbn.
    rewrite bool_decide_eq_false_2 by (intros [_ ?]; discriminate).
    do 3 eexists. repeat split.
  - apply negb_true_iff, bool_decide_eq_false in Hy.
    rewrite bool_decide_eq_false_2 by (intros [? _]; done).
    do 3 eexists. repeat split.
Qed.

Lemma create_version_zero_one_event_witness :
  ∃ b w' e,
    Book.create sampleProps sampleWorld = (Returned b, w')
    ∧ Book.version b = 0
    ∧ Book.domainEvents b = [e]
    ∧ eventName e = BookCreatedEvent.EVENT_NAME
    ∧ payload e =
        BookCreated
          {| BookCreatedEvent.bookId := Book.id b;
             BookCreatedEvent.title := Book.title b;
             BookCreatedEvent.authorId := Book.authorId b;
             BookCreatedEvent.pageCount := Book.pageCount b;
             BookCreatedEvent.isbn := Book.isbn b;
             BookCreatedEvent.yearRead := Book.yearRead b;
             BookCreatedEvent.status := ReadingStatusUtils.toString (Book.status b) |}.
Proof. apply (create_version_zero_one_event sampleProps sampleWorld). reflexivity. Defined.

(** ** The sample aggregates arise from the code *)

Example abandoned_book_from_create :
  ∃ b w',
    Book.create abandonedProps sampleWorld = (Returned b, w')
    ∧ Book.status b = ABANDONED ∧ Book.yearRead b = None.
Proof. vm_compute. do 2 eexists. repeat split. Qed.

Example edited_note_from_updateContent :
  ∃ n w',
    Note.updateContent "Aggregates are consistency boundaries." sampleNote
      sampleWorld = (Returned n, w')
    ∧ Note.createdAt n = 1704067200010
    ∧ Note.updatedAt n ≠ Note.createdAt n.
Proof. vm_compute. do 2 eexists. repeat split. discriminate. Qed.

(** ** Status transitions *)


Example changeStatus_abandoned_to_finished :
  ∃ e, Book.changeStatus FINISHED abandonedBook sampleWorld = (Thrown e, sampleWorld)
       ∧ isDomainException e = true
       ∧ code e = Some "INVALID_STATUS_TRANSITION".
Proof. eexists. repeat split. Qed.

(** [markAsFinished] consults neither the current status nor the table:
    with a year in range and no rating it moves a book of any status to
    FINISHED and adds a BookFinishedEvent. *)
Lemma markAsFinished_from_any_status (yearRead : Z) (b : Book.t) (w : World) :
  1900 ≤ yearRead ≤ getFullYear (host w) (clock (host w) (clockReads w)) + 1 →
  ∃ b' w' e,
    Book.markAsFinished yearRead None b w = (Returned b', w')
    ∧ Book.status b' = FINISHED
    ∧ Book.yearRead b' = Some yearRead
    ∧ Book.version b' = Book.version b
    ∧ Book.domainEvents b' = Book.domainEvents b ++ [e]
    ∧ eventName e = BookFinishedEvent.EVENT_NAME.
Proof.
  intros Hy. unfold Book.markAsFinished, Book.validateYearRead, newDomainEvent.
  js_unfold. cbn.
  replace (yearRead <? 1900) with false by lia.
  replace (yearRead >? _) with false by lia. cbn.
  do 3 eexists. repeat split.
Qed.



(** The example of the class documentation: a book created with the
    default status TO_READ, a quote, then [markAsFinished(2024, 5)], a
    move the table does not list. The outbox holds the three events the
    documentation names. *)
Example markAsFinished_as_documented :
  ReadingStatusUtils.canTransition TO_READ FINISHED = false
  ∧ ∃ b0 w0 q b1 w1 b2 w2,
      Book.create
        {| Book.p_title := "Domain-Driven Design"; Book.p_authorId := "author-123";
           Book.p_pageCount := 560; Book.p_isbn := Some "978-0321125217";
           Book.p_yearRead := None; Book.p_status := None;
           Book.p_rating := None; Book.p_coverUrl := None |} sampleWorld
      = (Returned b0, w0)
      ∧ Book.status b0 = TO_READ
      ∧ Book.addQuote "The bounded context is a central pattern in DDD..." (Some 42) b0 w0
        = (Returned (q, b1), w1)
      ∧ Book.markAsFinished 2024 (Some 5) b1 w1 = (Returned b2, w2)
      ∧ Book.status b2 = FINISHED
      ∧ eventName <$> Book.domainEvents b2
        = ["library.book.created"; "library.book.quote_added"; "library.book.finished"].
Proof. split; [reflexivity|]. vm_compute. do 7 eexists. repeat split. Qed.



(** ** updateDetails *)

(** C6. The claim fails on a null rating: on a book without rating,
    [updateDetails({ rating: null })] repeats the current value and still
    adds a BookUpdatedEvent, with the change-set [{ rating: null }], and
    moves [updatedAt]. The comparison is [newRating?.value !== currentRating],
    that is [undefined !== null]. *)
Theorem updateDetails_null_rating_emits_event :
  Book.rating sampleBook = None
  ∧ strictNotEqual (valueOrUndefined None) (valueOrNull (Book.rating sampleBook)) = true
  ∧ ∃ b' w' e,
      Book.updateDetails nullRating sampleBook sampleWorld = (Returned b', w')
      ∧ Book.rating b' = Book.rating sampleBook
      ∧ Book.domainEvents sampleBook = []
      ∧ Book.domainEvents b' = [e]
      ∧ payload e =
          BookUpdated
            {| BookUpdatedEvent.bookId := "uuid-0";
               BookUpdatedEvent.changes :=
                 BookUpdatedEvent.put_rating None BookUpdatedEvent.noChanges;
               BookUpdatedEvent.updatedAt := 1704067200000 |}
      ∧ Book.version b' = Book.version sampleBook.
Proof. do 2 (split; [reflexivity|]). vm_compute. do 3 eexists. repeat split. Qed.

(** The detection works for the fields that are compared as values: the
    same title and page count leave the book as it is, and a new page
    count next to the same title gives one event with the page count
    alone. *)
Example updateDetails_same_title_and_pages :
  Book.updateDetails sameTitleAndPages sampleBook sampleWorld
  = (Returned sampleBook, sampleWorld).
Proof. reflexivity. Qed.

Example updateDetails_one_changed_field :
  ∃ b' w' e,
    Book.updateDetails sameTitleNewPages sampleBook sampleWorld = (Returned b', w')
    ∧ Book.domainEvents b' = [e]
    ∧ payload e =
        BookUpdated
          {| BookUpdatedEvent.bookId := "uuid-0";
             BookUpdatedEvent.changes :=
               BookUpdatedEvent.put_pageCount 561 BookUpdatedEvent.noChanges;
             BookUpdatedEvent.updatedAt := 1704067200000 |}
    ∧ Book.version b' = Book.version sampleBook.
Proof. vm_compute. do 3 eexists. repeat split. Qed.

(** *** Field by field *)

(** Each block either leaves the pair as it is or assigns the new value
    to the field and to the change-set; the value then differs from the
    current one, except that the rating block also assigns a null rating
    over a null rating. *)
Lemma updateTitle_shape o b ch b' ch' w w' :
  Book.updateTitle o (b, ch) w = (Returned (b', ch'), w') →
  (b' = b ∧ ch' = ch)
  ∨ ∃ v, v ≠ Book.title b
         ∧ b' = Book.set_title v b ∧ ch' = BookUpdatedEvent.put_title v ch.
Proof.
  unfold Book.updateTitle. js_unfold. destruct o as [v|]; cbn.
  - destruct (Title.create v) as [v'|]; cbn; [|discriminate].
    case_bool_decide; intros ?; simplify_eq/=; [right; eauto|by left].
  - intros ?; simplify_eq/=. by left.
Qed.

Lemma updatePageCount_shape o b ch b' ch' w w' :
  Book.updatePageCount o (b, ch) w = (Returned (b', ch'), w') →
  (b' = b ∧ ch' = ch)
  ∨ ∃ v, v ≠ Book.pageCount b
         ∧ b' = Book.set_pageCount v b ∧ ch' = BookUpdatedEvent.put_pageCount v ch.
Proof.
  unfold Book.updatePageCount. js_unfold. destruct o as [v|]; cbn.
  - destruct (PageCount.create v) as [v'|]; cbn; [|discriminate].
    case_bool_decide; intros ?; simplify_eq/=; [right; eauto|by left].
  - intros ?; simplify_eq/=. by left.
Qed.

Lemma updateYearRead_shape o b ch b' ch' w w' :
  Book.updateYearRead o (b, ch) w = (Returned (b', ch'), w') →
  (b' = b ∧ ch' = ch)
  ∨ ∃ v, v ≠ Book.yearRead b
         ∧ b' = Book.set_yearRead v b ∧ ch' = BookUpdatedEvent.put_yearRead v ch.
Proof.
  unfold Book.updateYearRead, Book.validateYearRead. js_unfold.
  destruct o as [[y|]|]; cbn.
  - destruct (_ || _); cbn; [discriminate|].
    case_bool_decide; intros ?; simplify_eq/=; [right; eauto|by left].
  - case_bool_decide; intros ?; simplify_eq/=; [right; eauto|by left].
  - intros ?; simplify_eq/=. by left.
Qed.

Lemma updateRating_shape o b ch b' ch' w w' :
  Book.updateRating o (b, ch) w = (Returned (b', ch'), w') →
  (b' = b ∧ ch' = ch)
  ∨ ∃ v, (v ≠ Book.rating b ∨ (v = None ∧ Book.rating b = None))
         ∧ b' = Book.set_rating v b ∧ ch' = BookUpdatedEvent.put_rating v ch.
Proof.
  unfold Book.updateRating. js_unfold. destruct o as [[r|]|]; cbn.
  - destruct (Rating.create r) as [r'|]; cbn; [|discriminate].
    unfold strictNotEqual. case_bool_decide as Hcmp; cbn; intros ?; simplify_eq/=.
    + by left.
    + right. exists (Some r'). split; [|done]. left. intros Heq.
      apply Hcmp. by rewrite <- Heq.
  - unfold strictNotEqual. destruct (Book.rating b) as [r|] eqn:Hr; cbn;
      intros ?; simplify_eq/=; right; exists None; (split; [|done]).
    + by left.
    + by right.
  - intros ?; simplify_eq/=. by left.
Qed.

Lemma updateCoverUrl_shape o b ch b' ch' w w' :
  Book.updateCoverUrl o (b, ch) w = (Returned (b', ch'), w') →
  (b' = b ∧ ch' = ch)
  ∨ ∃ v, v ≠ Book.coverUrl b
         ∧ b' = Book.set_coverUrl v b ∧ ch' = BookUpdatedEvent.put_coverUrl v ch.
Proof.
  unfold Book.updateCoverUrl. js_unfold. destruct o as [v|]; cbn.
  - case_bool_decide; intros ?; simplify_eq/=; [right; eauto|by left].
  - intros ?; simplify_eq/=. by left.
Qed.

Lemma changedOr_same {A} `{EqDecision A} (x : A) : changedOr x x = None.
Proof. unfold changedOr. by rewrite bool_decide_eq_true_2. Qed.

Lemma changedOr_other {A} `{EqDecision A} (old new : A) :
  new ≠ old → changedOr old new = Some new.
Proof. intros Hne. unfold changedOr. by rewrite bool_decide_eq_false_2. Qed.

(** Whenever [updateDetails] returns, the version and the status are
    untouched and the fields it assigned are described by one
    change-set: with no key the aggregate is unchanged and no event was
    added; otherwise exactly one BookUpdatedEvent with that change-set was
    added. The change-set lists the changed fields and only them, but for
    a null rating repeated over a null rating. *)
Lemma updateDetails_change_set (c : Book.DetailChanges) (b b' : Book.t) (w w' : World) :
  Book.updateDetails c b w = (Returned b', w') →
  Book.version b' = Book.version b
  ∧ Book.status b' = Book.status b
  ∧ ∃ ch,
      changeSetOf b b' ch
      ∧ if (0 <? BookUpdatedEvent.keysLength ch)%nat then
          ∃ e,
            Book.domainEvents b' = Book.domainEvents b ++ [e]
            ∧ eventName e = BookUpdatedEvent.EVENT_NAME
            ∧ payload e =
                BookUpdated
                  {| BookUpdatedEvent.bookId := Book.id b;
                     BookUpdatedEvent.changes := ch;
                     BookUpdatedEvent.updatedAt := Book.updatedAt b' |}
        else b' = b.
Proof.
  unfold Book.updateDetails. rewrite run_bind.
  destruct (Book.updateTitle _ _ w) as [[[b1 ch1]|e1] w1] eqn:H1; [|discriminate].
  rewrite run_bind.
  destruct (Book.updatePageCount _ _ w1) as [[[b2 ch2]|e2] w2] eqn:H2; [|discriminate].
  rewrite run_bind.
  destruct (Book.updateYearRead _ _ w2) as [[[b3 ch3]|e3] w3] eqn:H3; [|discriminate].
  rewrite run_bind.
  destruct (Book.updateRating _ _ w3) as [[[b4 ch4]|e4] w4] eqn:H4; [|discriminate].
  rewrite run_bind.
  destruct (Book.updateCoverUrl _ _ w4) as [[[b5 ch5]|e5] w5] eqn:H5; [|discriminate].
  apply updateTitle_shape in H1. apply updatePageCount_shape in H2.
  apply updateYearRead_shape in H3. apply updateRating_shape in H4.
  apply updateCoverUrl_shape in H5.
  assert (Hset : changeSetOf b b5 ch5
                 ∧ Book.version b5 = Book.version b ∧ Book.status b5 = Book.status b
                 ∧ Book.id b5 = Book.id b
                 ∧ Book.domainEvents b5 = Book.domainEvents b
                 ∧ (BookUpdatedEvent.keysLength ch5 = 0%nat → b5 = b)).
  { destruct b as [bid bt ba bp bi by_ bs br bc bq bn bca bua be bv].
    unfold changeSetOf.
    destruct H1 as [[-> ->]|(v1 & Hv1 & -> & ->)];
    destruct H2 as [[-> ->]|(v2 & Hv2 & -> & ->)];
    destruct H3 as [[-> ->]|(v3 & Hv3 & -> & ->)];
    destruct H4 as [[-> ->]|(v4 & [Hv4|[-> Hv4]] & -> & ->)];
    destruct H5 as [[-> ->]|(v5 & Hv5 & -> & ->)];
    cbn in *; subst;
    rewrite ?changedOr_same, ?changedOr_other by done;
    repeat split; try done; try (by left); try (by right). }
  destruct Hset as (Hcs & Hv & Hs & Hid & Hev & Hnone).
  unfold newDomainEvent. js_unfold.
  destruct (0 <? BookUpdatedEvent.keysLength ch5)%nat eqn:Hkeys;
    intros Hrun; cbn in Hrun; injection Hrun as <- <-.
  - split; [exact Hv|]. split; [exact Hs|].
    exists ch5. split; [exact Hcs|]. rewrite Hkeys.
    eexists. cbn. rewrite Hev, Hid. repeat split.
  - split; [done|]. split; [done|].
    exists ch5. split; [done|]. rewrite Hkeys. apply Hnone.
    apply Nat.ltb_ge in Hkeys. lia.
Qed.

(** When the call changes no field there is no event, unless the rating
    was and stays null and the call passed a null rating: then there is
    one event, with the change-set [{ rating: null }]. *)
Lemma updateDetails_unchanged_fields (c : Book.DetailChanges) (b b' : Book.t)
    (w w' : World) :
  Book.updateDetails c b w = (Returned b', w') →
  Book.title b' = Book.title b →
  Book.pageCount b' = Book.pageCount b →
  Book.yearRead b' = Book.yearRead b →
  Book.rating b' = Book.rating b →
  Book.coverUrl b' = Book.coverUrl b →
  b' = b
  ∨ (Book.rating b = None
     ∧ ∃ e,
         Book.domainEvents b' = Book.domainEvents b ++ [e]
         ∧ payload e =
             BookUpdated
               {| BookUpdatedEvent.bookId := Book.id b;
                  BookUpdatedEvent.changes :=
                    BookUpdatedEvent.put_rating None BookUpdatedEvent.noChanges;
                  BookUpdatedEvent.updatedAt := Book.updatedAt b' |}).
Proof.
  intros Hrun Ht Hp Hy Hr Hc.
  destruct (updateDetails_change_set _ _ _ _ _ Hrun) as (_ & _ & ch & Hcs & Hev).
  destruct Hcs as (Hcht & Hchp & Hchy & Hchc & Hchr & Hchs).
  rewrite Ht, Hp, Hy, Hc, Hr, !changedOr_same in *.
  destruct ch as [cht chp chy chr chc chs]. cbn in *. subst.
  destruct Hchr as [->|(-> & Hnull & _)]; cbn in Hev.
  - by left.
  - right. split; [done|]. destruct Hev as (e & He & _ & Hpay). eauto.
Qed.

(** ** changeStatus to FINISHED *)

Lemma canTransition_to_finished (s : ReadingStatus) :
  ReadingStatusUtils.canTransition s FINISHED = true → s = READING.
Proof. destruct s; [discriminate | done | discriminate | discriminate]. Qed.

(** [onBookUpdated] with a change-set that lacks [yearRead] leaves the
    [yearRead] of every document of the read store as it was. *)
Lemma onBookUpdated_keeps_yearRead (p : BookUpdatedEvent.Payload) (v : World) (k : string) :
  BookUpdatedEvent.yearRead (BookUpdatedEvent.changes p) = None →
  BookDocument.yearRead <$> (mongo (BookProjections.onBookUpdated p v).2 !! k)
  = BookDocument.yearRead <$> (mongo v !! k).
Proof.
  intros Hy. unfold BookProjections.onBookUpdated, updateOne. js_unfold. cbn.
  rewrite lookup_alter. destruct (decide _) as [<-|]; [|done].
  destruct (mongo v !! _) as [d|]; [|done].
  cbn. unfold BookProjections.setFields. cbn. by rewrite Hy.
Qed.

(** C10. For a book without [yearRead], an allowed [changeStatus] to
    FINISHED returns an aggregate whose [yearRead] is the calendar year of
    the clock's third reading, while the one event it adds is a
    BookUpdatedEvent whose change-set has the status alone; routed to the
    projections, that event leaves the [yearRead] of every read document
    unchanged. *)
Theorem changeStatus_finished_year_not_in_event (b : Book.t) (w : World) :
  Book.yearRead b = None →
  ReadingStatusUtils.canTransition (Book.status b) FINISHED = true →
  ∃ b' w' e,
    Book.changeStatus FINISHED b w = (Returned b', w')
    ∧ Book.status b' = FINISHED
    ∧ Book.yearRead b' =
        Some (getFullYear (host w) (clock (host w) (S (S (clockReads w)))))
    ∧ Book.domainEvents b' = Book.domainEvents b ++ [e]
    ∧ eventName e = BookUpdatedEvent.EVENT_NAME
    ∧ payload e =
        BookUpdated
          {| BookUpdatedEvent.bookId := Book.id b;
             BookUpdatedEvent.changes :=
               {| BookUpdatedEvent.title := None;
                  BookUpdatedEvent.pageCount := None;
                  BookUpdatedEvent.yearRead := None;
                  BookUpdatedEvent.rating := None;
                  BookUpdatedEvent.coverUrl := None;
                  BookUpdatedEvent.status := Some "FINISHED" |};
             BookUpdatedEvent.updatedAt := clock (host w) (clockReads w) |}
    ∧ ∀ (v : World) (k : string),
        BookDocument.yearRead <$> (mongo (projectionRouter e v).2 !! k)
        = BookDocument.yearRead <$> (mongo v !! k).
Proof.
  intros Hy Hcan. pose proof (canTransition_to_finished _ Hcan) as Hs.
  unfold Book.changeStatus. rewrite Hcan, Hs.
  rewrite bool_decide_eq_false_2 by discriminate.
  unfold newDomainEvent. js_unfold. cbn. rewrite Hy.
  rewrite bool_decide_eq_true_2 by done.
  do 3 eexists. repeat split.
  intros v k. unfold projectionRouter. cbn.
  apply onBookUpdated_keeps_yearRead. reflexivity.
Qed.

Lemma changeStatus_finished_year_not_in_event_witness :
  ∃ b' w' e,
    Book.changeStatus FINISHED sampleBook sampleWorld = (Returned b', w')
    ∧ Book.status b' = FINISHED
    ∧ Book.yearRead b' =
        Some (getFullYear (host sampleWorld)
                (clock (host sampleWorld) (S (S (clockReads sampleWorld)))))
    ∧ Book.domainEvents b' = Book.domainEvents sampleBook ++ [e]
    ∧ eventName e = BookUpdatedEvent.EVENT_NAME
    ∧ payload e =
        BookUpdated
          {| BookUpdatedEvent.bookId := Book.id sampleBook;
             BookUpdatedEvent.changes :=
               {| BookUpdatedEvent.title := None;
                  BookUpdatedEvent.pageCount := None;
                  BookUpdatedEvent.yearRead := None;
                  BookUpdatedEvent.rating := None;
                  BookUpdatedEvent.coverUrl := None;
                  BookUpdatedEvent.status := Some "FINISHED" |};
             BookUpdatedEvent.updatedAt :=
               clock (host sampleWorld) (clockReads sampleWorld) |}
    ∧ ∀ (v : World) (k : string),
        BookDocument.yearRead <$> (mongo (projectionRouter e v).2 !! k)
        = BookDocument.yearRead <$> (mongo v !! k).
Proof.
  apply (changeStatus_finished_year_not_in_event sampleBook sampleWorld);
    reflexivity.
Defined.

(** ** publishAll *)

(** The message [publish] hands to the channel when the clock reads [now]. *)
Lemma publish_connected (event : DomainEvent) (w : World) (ch : list Message) :
  channel w = Some ch →
  ∃ w' m,
    RabbitMQEventPublisher.publish event w = (Returned tt, w')
    ∧ channel w' = Some (ch ++ [m])
    ∧ journal w' = journal w ++ [PublishCalled (eventId event)]
    ∧ routingKey m = eventName event
    ∧ content m = toJSON event
    ∧ exchangeName m = EXCHANGE_NAME
    ∧ persistent m = true
    ∧ messageId m = eventId event.
Proof.
  intros Hch. unfold RabbitMQEventPublisher.publish, getChannel, channelPublish.
  js_unfold. rewrite Hch. cbn. rewrite Hch. cbn.
  do 2 eexists. repeat split.
Qed.

(** The messages [publishAll] hands to a connected channel. *)
Lemma publishAll_connected (events : list DomainEvent) (w : World)
    (ch : list Message) :
  channel w = Some ch →
  ∃ w' msgs,
    RabbitMQEventPublisher.publishAll events w = (Returned tt, w')
    ∧ channel w' = Some (ch ++ msgs)
    ∧ content <$> msgs = toJSON <$> events
    ∧ routingKey <$> msgs = eventName <$> events
    ∧ Forall (fun m => exchangeName m = EXCHANGE_NAME ∧ persistent m = true) msgs
    ∧ journal w' = journal w ++ (PublishCalled ∘ eventId <$> events).
Proof.
  unfold RabbitMQEventPublisher.publishAll.
  revert w ch. induction events as [|e events IH]; intros w ch Hch.
  - exists w, []. cbn. rewrite !app_nil_r. done.
  - destruct (publish_connected e w ch Hch)
      as (w1 & m & Hrun & Hch1 & Hj1 & Hkey & Hbody & Hex & Hper & _).
    destruct (IH w1 (ch ++ [m]) Hch1) as (w' & msgs & Hrun' & Hch' & Hc & Hk & Hall & Hj).
    exists w', (m :: msgs). cbn [forOf]. rewrite run_bind, Hrun. cbn.
    rewrite Hrun', Hch', Hj, Hj1, Hc, Hk, Hkey, Hbody, <- !app_assoc. cbn.
    repeat split. by constructor.
Qed.

(** C8. On a connected channel [publishAll] returns after handing to the
    channel one message per event, after the messages already there and in
    the order of the list: the i-th new message carries the i-th event,
    serialized, with the event's name as routing key, on the events
    exchange and persistent; the publish calls are journalled in the same
    order. *)
Theorem publishAll_in_emission_order (events : list DomainEvent) (w : World)
    (ch : list Message) :
  channel w = Some ch →
  ∃ w' msgs,
    RabbitMQEventPublisher.publishAll events w = (Returned tt, w')
    ∧ channel w' = Some (ch ++ msgs)
    ∧ content <$> msgs = toJSON <$> events
    ∧ routingKey <$> msgs = eventName <$> events
    ∧ Forall (fun m => exchangeName m = EXCHANGE_NAME ∧ persistent m = true) msgs
    ∧ journal w' = journal w ++ (PublishCalled ∘ eventId <$> events).
Proof. exact (publishAll_connected events w ch). Qed.

Lemma publishAll_in_emission_order_witness :
  ∃ w' msgs,
    RabbitMQEventPublisher.publishAll sampleEvents sampleWorld = (Returned tt, w')
    ∧ channel w' = Some ([] ++ msgs)
    ∧ content <$> msgs = toJSON <$> sampleEvents
    ∧ routingKey <$> msgs = eventName <$> sampleEvents
    ∧ Forall (fun m => exchangeName m = EXCHANGE_NAME ∧ persistent m = true) msgs
    ∧ journal w' = journal sampleWorld ++ (PublishCalled ∘ eventId <$> sampleEvents).
Proof.
  apply (publishAll_in_emission_order sampleEvents sampleWorld []). reflexivity.
Defined.

Example publishAll_routing_keys :
  (fun ch : list Message => routingKey <$> ch)
    <$> channel (RabbitMQEventPublisher.publishAll sampleEvents sampleWorld).2
  = Some ["library.book.created"; "library.book.quote_added"; "library.book.finished"].
Proof. reflexivity. Qed.

(** Without a channel the first [publish] throws and nothing is handed
    over. *)
Lemma publishAll_disconnected (e : DomainEvent) (events : list DomainEvent) (w : World) :
  channel w = None →
  RabbitMQEventPublisher.publishAll (e :: events) w
  = (Thrown (Error "RabbitMQ not connected. Call connectRabbitMQ() first."), w).
Proof.
  intros Hch. unfold RabbitMQEventPublisher.publishAll. cbn [forOf].
  rewrite run_bind. unfold RabbitMQEventPublisher.publish, getChannel.
  js_unfold. by rewrite Hch.
Qed.

(** ** Replay of the projection handlers *)

Lemma setFields_idempotent (c : BookUpdatedEvent.Changes) (t : Z) (d : BookDocument.t) :
  BookProjections.setFields c t (BookProjections.setFields c t d)
  = BookProjections.setFields c t d.
Proof.
  destruct c as [ct cp cy cr cc cs]. unfold BookProjections.setFields. cbn.
  destruct ct, cp, cy, cr, cs; reflexivity.
Qed.

Lemma onBookUpdated_idempotent (p : BookUpdatedEvent.Payload) (w : World) :
  idempotentOn (BookProjections.onBookUpdated p) w.
Proof.
  unfold idempotentOn, appliedTwice, appliedOnce, BookProjections.onBookUpdated,
    updateOne.
  js_unfold. cbn. rewrite alter_alter_eq. apply alter_ext.
  intros d _. apply setFields_idempotent.
Qed.

Lemma onBookDeleted_idempotent (p : BookDeletedEvent.Payload) (w : World) :
  idempotentOn (BookProjections.onBookDeleted p) w.
Proof.
  unfold idempotentOn, appliedTwice, appliedOnce, BookProjections.onBookDeleted,
    deleteOne.
  js_unfold. cbn. apply delete_delete_eq.
Qed.

(** After [onBookCreated] the document exists, whether this application
    inserted it or found it. *)
Lemma onBookCreated_document_exists (p : BookCreatedEvent.Payload) (w : World) :
  is_Some (mongo (appliedOnce (BookProjections.onBookCreated p) w)
             !! BookCreatedEvent.bookId p).
Proof.
  unfold appliedOnce, BookProjections.onBookCreated, insertOne. js_unfold. cbn.
  destruct (mongo w !! BookCreatedEvent.bookId p) as [d|] eqn:E; cbn.
  - rewrite E. eauto.
  - rewrite lookup_insert_eq. eauto.
Qed.

Lemma onBookCreated_on_existing (p : BookCreatedEvent.Payload) (w : World) :
  is_Some (mongo w !! BookCreatedEvent.bookId p) →
  (BookProjections.onBookCreated p w).1
    = Thrown (DuplicateKeyError (BookCreatedEvent.bookId p))
  ∧ mongo (BookProjections.onBookCreated p w).2 = mongo w.
Proof.
  intros [d Hd]. unfold BookProjections.onBookCreated, insertOne. js_unfold. cbn.
  rewrite Hd. done.
Qed.

Lemma onQuoteAdded_store (p : QuoteAddedEvent.Payload) (w : World) :
  ∃ q t,
    mongo (appliedOnce (BookProjections.onQuoteAdded p) w)
    = alter (BookProjections.pushQuote q t) (QuoteAddedEvent.bookId p) (mongo w)
    ∧ QuoteDocument.id q = QuoteAddedEvent.quoteId p.
Proof.
  unfold appliedOnce, BookProjections.onQuoteAdded, updateOne. js_unfold. cbn.
  do 2 eexists. split; reflexivity.
Qed.

(** C1, as stated, fails: on a read store that holds the book, applying
    [onQuoteAdded] to the same event twice does not give the store that
    one application gives; the counter stands at 2 instead of 1 and the
    quote is embedded twice. *)
Lemma onQuoteAdded_not_idempotent :
  ¬ idempotentOn (BookProjections.onQuoteAdded sampleQuoteAdded) sampleReadWorld
  ∧ BookDocument.quotesCount
      <$> (mongo (appliedOnce (BookProjections.onQuoteAdded sampleQuoteAdded)
                    sampleReadWorld) !! "uuid-0") = Some 1
  ∧ BookDocument.quotesCount
      <$> (mongo (appliedTwice (BookProjections.onQuoteAdded sampleQuoteAdded)
                    sampleReadWorld) !! "uuid-0") = Some 2
  ∧ (fun d => QuoteDocument.id <$> BookDocument.quotes d)
      <$> (mongo (appliedTwice (BookProjections.onQuoteAdded sampleQuoteAdded)
                    sampleReadWorld) !! "uuid-0") = Some ["uuid-2"; "uuid-2"].
Proof.
  split; [|by vm_compute].
  intros H.
  apply (f_equal (fun m : gmap string BookDocument.t =>
                    BookDocument.quotesCount <$> m !! "uuid-0")) in H.
  vm_compute in H. discriminate.
Qed.

(** C1, amended. Replaying the same event leaves the read store as one
    application left it for book-updated and book-deleted; for
    book-created the second application is rejected with a duplicate-key
    error and the store keeps the one document of the first. For
    quote-added every application counts: on a store that holds the book,
    two applications raise [quotesCount] by 2 and embed the quote twice;
    on a store without the book nothing changes. *)
Theorem projections_replay (w : World) :
  (∀ p, idempotentOn (BookProjections.onBookUpdated p) w)
  ∧ (∀ p, idempotentOn (BookProjections.onBookDeleted p) w)
  ∧ (∀ p,
       idempotentOn (BookProjections.onBookCreated p) w
       ∧ (BookProjections.onBookCreated p
            (appliedOnce (BookProjections.onBookCreated p) w)).1
         = Thrown (DuplicateKeyError (BookCreatedEvent.bookId p))
       ∧ is_Some (mongo (appliedTwice (BookProjections.onBookCreated p) w)
                    !! BookCreatedEvent.bookId p))
  ∧ (∀ p,
       match mongo w !! QuoteAddedEvent.bookId p with
       | Some d =>
           ∃ d2,
             mongo (appliedTwice (BookProjections.onQuoteAdded p) w)
               !! QuoteAddedEvent.bookId p = Some d2
             ∧ BookDocument.quotesCount d2 = BookDocument.quotesCount d + 2
             ∧ QuoteDocument.id <$> BookDocument.quotes d2
               = (QuoteDocument.id <$> BookDocument.quotes d)
                   ++ [QuoteAddedEvent.quoteId p; QuoteAddedEvent.quoteId p]
       | None =>
           mongo (appliedTwice (BookProjections.onQuoteAdded p) w) = mongo w
       end).
Proof.
  split; [exact (fun p => onBookUpdated_idempotent p w)|].
  split; [exact (fun p => onBookDeleted_idempotent p w)|].
  split.
  - intros p.
    pose proof (onBookCreated_document_exists p w) as Hex.
    destruct (onBookCreated_on_existing p _ Hex) as [Hthrown Hsame].
    unfold idempotentOn, appliedTwice. rewrite Hsame. done.
  - intros p. unfold appliedTwice.
    destruct (onQuoteAdded_store p w) as (q1 & t1 & H1 & Hq1).
    destruct (onQuoteAdded_store p (appliedOnce (BookProjections.onQuoteAdded p) w))
      as (q2 & t2 & H2 & Hq2).
    unfold appliedOnce in H2 at 1. rewrite H2, H1.
    destruct (mongo w !! QuoteAddedEvent.bookId p) as [d|] eqn:E.
    + eexists. rewrite !lookup_alter_eq, E. cbn. split; [reflexivity|].
      unfold BookProjections.pushQuote. cbn.
      split; [lia|]. rewrite !fmap_app. cbn. rewrite Hq1, Hq2, <- app_assoc. done.
    + apply map_eq. intros k.
      destruct (decide (QuoteAddedEvent.bookId p = k)) as [<-|Hne].
      * by rewrite !lookup_alter_eq, E.
      * by rewrite !lookup_alter_ne.
Qed.

(** ** The write store: what save does *)

Lemma set_pg_same (w : World) : set_pg (pg w) w = w.
Proof. by destruct w. Qed.

Lemma set_pg_twice (d d' : Database) (w : World) : set_pg d (set_pg d' w) = set_pg d w.
Proof. reflexivity. Qed.

(** [save] runs [saveOutcome] on the database: it commits the three new
    tables together, or throws and leaves the world as it found it. *)
Lemma save_run (book : Book.t) (w : World) :
  PostgresBookRepository.save book w =
  match saveOutcome book (pg w) with
  | Returned db => (Returned tt, set_pg db w)
  | Thrown e => (Thrown e, w)
  end.
Proof.
  unfold PostgresBookRepository.save, transaction, saveOutcome, storeBookRow,
    PostgresBookRepository.existsInTransaction, PostgresBookRepository.update,
    PostgresBookRepository.updateStatement, PostgresBookRepository.insert,
    PostgresBookRepository.syncQuotes, PostgresBookRepository.syncNotes,
    syncedQuotes, syncedNotes, conflictError.
  js_unfold. cbn.
  destruct (books (pg w) !! Book.id book) as [row|] eqn:Hrow; cbn; rewrite ?Hrow.
  - destruct (BookRow.version row =? Book.version book); cbn;
      [|by destruct w].
    destruct (PostgresBookRepository.isbnTaken _ _ _); cbn;
      [by destruct w|].
    destruct (syncChildren Quote.id _ _ _ _ _ _ _); cbn; [|by destruct w].
    destruct (syncChildren Note.id _ _ _ _ _ _ _); cbn; [done|by destruct w].
  -
    destruct (PostgresBookRepository.isbnTaken _ _ _); cbn;
      [by destruct w|].
    destruct (syncChildren Quote.id _ _ _ _ _ _ _); cbn; [|by destruct w].
    destruct (syncChildren Note.id _ _ _ _ _ _ _); cbn; [done|by destruct w].
Qed.

(** A failed [save] changes nothing: the rollback restores the tables. *)
Lemma save_thrown_unchanged (book : Book.t) (w w' : World) (e : JsError) :
  PostgresBookRepository.save book w = (Thrown e, w') → w' = w.
Proof.
  rewrite save_run. destruct (saveOutcome book (pg w)); congruence.
Qed.

(** A stored row of another version makes [save] throw the conflict error
    of [update], a plain [Error], and the three tables stay as they were. *)
Lemma save_version_mismatch (book : Book.t) (w : World) (row : BookRow.t) :
  books (pg w) !! Book.id book = Some row →
  BookRow.version row ≠ Book.version book →
  PostgresBookRepository.save book w = (Thrown (conflictError (Book.id book)), w).
Proof.
  intros Hrow Hv. rewrite save_run. unfold saveOutcome, storeBookRow.
  rewrite Hrow. replace (_ =? _) with false by lia. reflexivity.
Qed.

(** A successful [save] over a stored row of the aggregate's version
    writes the aggregate's fields to that row and adds 1 to its version. *)
Lemma save_version_match (book : Book.t) (w w' : World) (row : BookRow.t) :
  books (pg w) !! Book.id book = Some row →
  BookRow.version row = Book.version book →
  PostgresBookRepository.save book w = (Returned tt, w') →
  books (pg w') = <[Book.id book := PostgresBookRepository.updateSet book row]> (books (pg w))
  ∧ BookRow.version (PostgresBookRepository.updateSet book row) = Book.version book + 1
  ∧ syncedQuotes book (quotes (pg w)) = Returned (quotes (pg w'))
  ∧ syncedNotes book (notes (pg w)) = Returned (notes (pg w')).
Proof.
  intros Hrow Hv. rewrite save_run. unfold saveOutcome, storeBookRow.
  rewrite Hrow. replace (_ =? _) with true by lia.
  destruct (PostgresBookRepository.isbnTaken _ _ _); cbn; [discriminate|].
  destruct (syncedQuotes _ _); cbn; [|discriminate].
  destruct (syncedNotes _ _); cbn; [|discriminate].
  intros [= <-]. cbn. rewrite Hv. done.
Qed.

(** After a successful [save] the stored row is one version ahead of the
    aggregate that was saved. *)
Lemma save_returned_row (book : Book.t) (w w' : World) :
  PostgresBookRepository.save book w = (Returned tt, w') →
  ∃ row,
    books (pg w') !! Book.id book = Some row
    ∧ BookRow.version row = Book.version book + 1.
Proof.
  rewrite save_run. unfold saveOutcome, storeBookRow.
  destruct (books (pg w) !! Book.id book) as [row|] eqn:Hrow.
  - destruct (BookRow.version row =? Book.version book) eqn:Hv; [|discriminate].
    destruct (PostgresBookRepository.isbnTaken _ _ _); cbn; [discriminate|].
    destruct (syncedQuotes _ _); cbn; [|discriminate].
    destruct (syncedNotes _ _); cbn; [|discriminate].
    intros [= <-]. cbn. rewrite lookup_insert_eq. eexists. split; [done|].
    cbn. lia.
  - destruct (PostgresBookRepository.isbnTaken _ _ _); cbn; [discriminate|].
    destruct (syncedQuotes _ _); cbn; [|discriminate].
    destruct (syncedNotes _ _); cbn; [|discriminate].
    intros [= <-]. cbn. rewrite lookup_insert_eq. eexists. split; done.
Qed.

(** C9. [save] returns nothing and the aggregate keeps its version, while
    the row it wrote is one version ahead; so a second [save] of the same
    aggregate, in the world the first one left, finds a row of another
    version and throws the conflict error, changing nothing. *)
Theorem save_again_conflicts (book : Book.t) (w w' : World) :
  PostgresBookRepository.save book w = (Returned tt, w') →
  (∃ row,
     books (pg w') !! Book.id book = Some row
     ∧ BookRow.version row = Book.version book + 1)
  ∧ PostgresBookRepository.save book w'
    = (Thrown (Error ("Optimistic concurrency conflict for Book " +:+ Book.id book)), w').
Proof.
  intros Hsave. destruct (save_returned_row _ _ _ Hsave) as (row & Hrow & Hv).
  split; [eauto|].
  apply (save_version_mismatch book w' row Hrow). lia.
Qed.

Lemma save_again_conflicts_witness :
  (∃ row,
     books (pg (PostgresBookRepository.save sampleBook sampleWorld).2)
       !! Book.id sampleBook = Some row
     ∧ BookRow.version row = Book.version sampleBook + 1)
  ∧ PostgresBookRepository.save sampleBook
      (PostgresBookRepository.save sampleBook sampleWorld).2
    = (Thrown (Error ("Optimistic concurrency conflict for Book "
                      +:+ Book.id sampleBook)),
       (PostgresBookRepository.save sampleBook sampleWorld).2).
Proof.
  apply (save_again_conflicts sampleBook sampleWorld). reflexivity.
Defined.

(** ** Optimistic concurrency *)

Example loadedBook_is_what_findById_returns :
  PostgresBookRepository.findById "uuid-0" storedWorld
  = (Returned (Some loadedBook), storedWorld).
Proof. reflexivity. Qed.

Example first_writer_wins :
  (PostgresBookRepository.save firstWriter storedWorld).1 = Returned tt
  ∧ (BookRow.title <$> books (pg worldAfterFirst) !! "uuid-0") = Some "DDD, 2nd printing"
  ∧ (BookRow.version <$> books (pg worldAfterFirst) !! "uuid-0") = Some 3.
Proof. repeat split. Qed.

(** C2. The claim fails on the kind of the error: the second writer's
    [save] finds the row at another version and does fail, leaving every
    table as the first writer left it, but what it throws is a plain
    [Error]: its name is "Error", it has no code, and it is not the
    [ConcurrencyException] (code CONCURRENCY_CONFLICT) that the shared
    kernel declares for concurrency conflicts. *)
Theorem save_conflict_is_plain_error :
  (BookRow.version <$> books (pg worldAfterFirst) !! Book.id secondWriter) = Some 3
  ∧ Book.version secondWriter = 2
  ∧ ∃ e,
      PostgresBookRepository.save secondWriter worldAfterFirst
      = (Thrown e, worldAfterFirst)
      ∧ e = Error "Optimistic concurrency conflict for Book uuid-0"
      ∧ name e = "Error"
      ∧ code e = None
      ∧ isConcurrencyConflictKind e = false
      ∧ name (ConcurrencyException "Book" "uuid-0" 2 3) = "ConcurrencyException"
      ∧ (BookRow.page_count <$> books (pg worldAfterFirst) !! "uuid-0") = Some 560.
Proof.
  do 2 (split; [reflexivity|]). eexists. split; [|repeat split].
  apply (save_version_mismatch secondWriter worldAfterFirst
           (PostgresBookRepository.updateSet firstWriter
              (PostgresBookRepository.insertValues sampleBook)));
    [reflexivity | cbn; lia].
Qed.

(** ** Command handlers: persist, then publish, then clear *)

(** Silent code: the aggregate's methods and the repository. *)
Lemma silent_ret {A} (a : A) : silent (mret a).
Proof. done. Qed.
Lemma silent_throw {A} (e : JsError) : silent (@throw A e).
Proof. done. Qed.
Lemma silent_call {A} (o : Outcome A) : silent (call o).
Proof. done. Qed.
Lemma silent_newDate : silent newDate.
Proof. done. Qed.
Lemma silent_uuidv4 : silent uuidv4.
Proof. done. Qed.
Lemma silent_fullYear d : silent (fullYear d).
Proof. done. Qed.
Lemma silent_getPg : silent getPg.
Proof. done. Qed.
Lemma silent_putPg d : silent (putPg d).
Proof. done. Qed.
Lemma silent_bind {A B} (m : Js A) (f : A → Js B) :
  silent m → (∀ a, silent (f a)) → silent (m ≫= f).
Proof.
  intros Hm Hf w. rewrite run_bind. specialize (Hm w).
  destruct (m w) as [[a|e] w1]; cbn in *; [|done].
  destruct (Hf a w1) as [-> ->]. done.
Qed.
Lemma silent_transaction {A} (m : Js A) : silent m → silent (transaction m).
Proof.
  intros Hm w. specialize (Hm w). unfold transaction.
  destruct (m w) as [[a|e] w1]; cbn in *; done.
Qed.

Create HintDb silent.
#[local] Hint Resolve silent_ret silent_throw silent_call silent_newDate silent_uuidv4
  silent_fullYear silent_getPg silent_putPg : silent.

Ltac silent_step :=
  match goal with
  | |- silent (_ ≫= _) => apply silent_bind; [|intros ?]
  | |- silent (transaction _) => apply silent_transaction
  | |- silent (match ?x with _ => _ end) => destruct x
  | |- silent _ => solve [auto with silent]
  end.
Ltac solve_silent := repeat silent_step.

Lemma silent_validateYearRead y : silent (Book.validateYearRead y).
Proof. unfold Book.validateYearRead. solve_silent. Qed.
Lemma silent_newDomainEvent n p : silent (newDomainEvent n p).
Proof. unfold newDomainEvent. solve_silent. Qed.
#[local] Hint Resolve silent_validateYearRead silent_newDomainEvent : silent.
Lemma silent_create props : silent (Book.create props).
Proof. unfold Book.create, BookId.generate. solve_silent. Qed.
Lemma silent_updateDetails c b : silent (Book.updateDetails c b).
Proof.
  unfold Book.updateDetails, Book.updateTitle, Book.updatePageCount,
    Book.updateYearRead, Book.updateRating, Book.updateCoverUrl.
  solve_silent.
Qed.
Lemma silent_markAsFinished y r b : silent (Book.markAsFinished y r b).
Proof. unfold Book.markAsFinished. solve_silent. Qed.
Lemma silent_Quote_create a b c: silent (Quote.create a b c).
Proof. unfold Quote.create, QuoteId.generate. solve_silent. Qed.
#[local] Hint Resolve silent_Quote_create : silent.
Lemma silent_addQuote c p b : silent (Book.addQuote c p b).
Proof. unfold Book.addQuote. solve_silent. Qed.
Lemma silent_findById id : silent (PostgresBookRepository.findById id).
Proof. unfold PostgresBookRepository.findById. solve_silent. Qed.
Lemma silent_findByIsbn id : silent (PostgresBookRepository.findByIsbn id).
Proof. unfold PostgresBookRepository.findByIsbn. solve_silent. Qed.
#[local] Hint Resolve silent_findById silent_findByIsbn : silent.
Lemma silent_loadBook id : silent (loadBook id).
Proof. unfold loadBook. solve_silent. Qed.
Lemma silent_save b : silent (PostgresBookRepository.save b).
Proof.
  unfold PostgresBookRepository.save, PostgresBookRepository.existsInTransaction,
    PostgresBookRepository.update, PostgresBookRepository.updateStatement,
    PostgresBookRepository.insert, PostgresBookRepository.syncQuotes,
    PostgresBookRepository.syncNotes.
  solve_silent.
Qed.

(** What the three journalled calls add. *)
Lemma awaitSave_spec (book : Book.t) (w : World) :
  ∃ o w',
    awaitSave book w = (o, w')
    ∧ channel w' = channel w
    ∧ journal w' =
        journal w ++ [if isThrown o then SaveThrew (Book.id book)
                      else SaveReturned (Book.id book)].
Proof.
  unfold awaitSave. destruct (silent_save book w) as [Hj Hc].
  destruct (PostgresBookRepository.save book w) as [[u|e] w1]; cbn in *;
    do 2 eexists; (split; [reflexivity|]); cbn; by rewrite Hj, Hc.
Qed.

Lemma awaitPublishAll_spec (events : list DomainEvent) (w : World) :
  ∃ o w',
    awaitPublishAll events w = (o, w')
    ∧ ((o = Returned tt
        ∧ journal w' =
            journal w ++ (PublishCalled ∘ eventId <$> events) ++ [PublishAllReturned])
       ∨ (isThrown o = true ∧ journal w' = journal w ∧ channel w' = channel w)).
Proof.
  unfold awaitPublishAll. rewrite run_bind.
  destruct (channel w) as [ch|] eqn:Hch.
  - destruct (publishAll_connected events w ch Hch)
      as (w1 & msgs & Hrun & _ & _ & _ & _ & Hj).
    rewrite Hrun. do 2 eexists. split; [reflexivity|]. left.
    split; [done|]. cbn. by rewrite Hj, <- app_assoc.
  - destruct events as [|e events].
    + do 2 eexists. split; [reflexivity|]. left. done.
    + rewrite publishAll_disconnected by done.
      do 2 eexists. split; [reflexivity|]. right. done.
Qed.

Lemma callClearDomainEvents_spec (book : Book.t) (w : World) :
  ∃ w',
    callClearDomainEvents book w = (Returned (Book.clearDomainEvents book), w')
    ∧ journal w' = journal w ++ [EventsCleared (Book.id book)].
Proof. eexists. split; reflexivity. Qed.

(** Every shape is well sequenced. *)
Lemma HandlerTrace_wellSequenced (steps : list Step) :
  HandlerTrace steps → wellSequenced steps.
Proof.
  intros [|id|id|id es]; unfold wellSequenced.
  - split; [|split].
    + intros i e Hi. done.
    + intros i b Hi. done.
    + intros b Hb. by apply elem_of_nil in Hb.
  - split; [|split].
    + intros [|[|i]] e Hi; done.
    + intros [|[|i]] b Hi; done.
    + intros b _ s Hs. apply list_elem_of_singleton in Hs. by subst.
  - split; [|split].
    + intros [|[|i]] e Hi; done.
    + intros [|[|i]] b Hi; done.
    + intros b Hb. by apply list_elem_of_singleton in Hb.
  - set (pubs := PublishCalled ∘ eventId <$> es).
    assert (Hpubs : ∀ (i : nat) s, pubs !! i = Some s → ∃ e, s = PublishCalled e).
    { intros i s. unfold pubs. rewrite list_lookup_fmap.
      destruct (es !! i); cbn; [|done]. intros [= <-]. eauto. }
    split; [|split].
    + intros [|i] e Hi; [done|]. exists 0%nat, id. split; [lia|done].
    + intros [|i] b Hi; [done|].
      change ((pubs ++ [PublishAllReturned; EventsCleared id]) !! i
              = Some (EventsCleared b)) in Hi.
      exists (S (length pubs)). split.
      * destruct (decide (i < length pubs)%nat) as [Hlt|Hge].
        -- rewrite lookup_app_l in Hi by done.
           destruct (Hpubs _ _ Hi) as [e He]. done.
        -- rewrite lookup_app_r in Hi by lia.
           destruct (i - length pubs)%nat as [|[|k]] eqn:Hk; cbn in Hi; try done. lia.
      * change ((pubs ++ [PublishAllReturned; EventsCleared id]) !! length pubs
                = Some PublishAllReturned).
        rewrite lookup_app_r by lia. by rewrite Nat.sub_diag.
    + intros b Hb. apply elem_of_cons in Hb as [Hb|Hb]; [done|].
      apply elem_of_app in Hb as [Hb|Hb].
      * apply list_elem_of_lookup in Hb as [i Hi].
        destruct (Hpubs _ _ Hi) as [e' He']. done.
      * apply elem_of_cons in Hb as [Hb|Hb]; [done|].
        apply list_elem_of_singleton in Hb. done.
Qed.

Lemma HandlerTrace_save_threw (steps : list Step) (id : string) :
  HandlerTrace steps → SaveThrew id ∈ steps → ∃ id', steps = [SaveThrew id'].
Proof.
  intros Htrace Hin.
  pose proof (HandlerTrace_wellSequenced _ Htrace) as (_ & _ & Hnone).
  specialize (Hnone id Hin).
  destruct Htrace as [|id'|id'|id' es].
  - by apply elem_of_nil in Hin.
  - eauto.
  - by apply list_elem_of_singleton in Hin.
  - assert (Hc : ∀ b, EventsCleared id' ≠ EventsCleared b).
    { apply Hnone. rewrite elem_of_cons, elem_of_app, !elem_of_cons.
      right; right; right; by left. }
    by destruct (Hc id').
Qed.

(** A silent prelude, which may throw, before a handler's calls. *)
Lemma sequencesCalls_prelude {A B} (m : Js A) (f : A → Js B) :
  silent m → (∀ a, sequencesCalls (f a)) → sequencesCalls (m ≫= f).
Proof.
  intros Hm Hf w. rewrite run_bind. destruct (Hm w) as [Hj Hc].
  destruct (m w) as [[a|e] w1]; cbn in *.
  - destruct (Hf a w1) as (steps & Hsteps & Hseq & Hch).
    exists steps. rewrite Hsteps, Hj. split; [done|]. split; [done|].
    intros id Hid. by rewrite (Hch id Hid).
  - exists []. rewrite Hj, app_nil_r. split; [done|].
    split; [apply HandlerTrace_wellSequenced; constructor|].
    intros id Hid. by apply elem_of_nil in Hid.
Qed.

(** [publishAll], then the clearing of the outbox, then silent code. *)
Lemma publish_then_clear {A} (book : Book.t) (k : Book.t → Js A) (w : World) :
  (∀ b, silent (k b)) →
  ∃ steps,
    journal ((awaitPublishAll (Book.domainEvents book)
              ≫= fun _ => callClearDomainEvents book ≫= k) w).2
    = journal w ++ steps
    ∧ (steps = []
       ∨ steps = (PublishCalled ∘ eventId <$> Book.domainEvents book)
                 ++ [PublishAllReturned; EventsCleared (Book.id book)]).
Proof.
  intros Hk. rewrite run_bind.
  destruct (awaitPublishAll_spec (Book.domainEvents book) w)
    as (o & w1 & Hrun & [[-> Hj]|(Hthrown & Hj & _)]); rewrite Hrun.
  - rewrite run_bind.
    destruct (callClearDomainEvents_spec book w1) as (w2 & Hclear & Hj2).
    rewrite Hclear. destruct (Hk (Book.clearDomainEvents book) w2) as [Hj3 _].
    eexists. rewrite Hj3, Hj2, Hj, <- !app_assoc. split; [reflexivity|]. by right.
  - destruct o; [done|]. exists []. cbn. rewrite Hj, app_nil_r. by split; [|left].
Qed.

(** The save, then code that adds nothing or publishes and clears. *)
Lemma save_then {A} (book : Book.t) (rest : Js A) :
  (∀ w, ∃ steps,
     journal (rest w).2 = journal w ++ steps
     ∧ (steps = []
        ∨ steps = (PublishCalled ∘ eventId <$> Book.domainEvents book)
                  ++ [PublishAllReturned; EventsCleared (Book.id book)])) →
  sequencesCalls (awaitSave book ≫= fun _ => rest).
Proof.
  intros Hrest w. rewrite run_bind.
  destruct (awaitSave_spec book w) as (o & w1 & Hrun & Hc & Hj). rewrite Hrun.
  destruct o as [u|e]; cbn in Hj.
  - destruct (Hrest w1) as (steps & Hsteps & Hshape).
    exists (SaveReturned (Book.id book) :: steps).
    assert (Htrace : HandlerTrace (SaveReturned (Book.id book) :: steps)).
    { destruct Hshape as [->| ->]; constructor. }
    rewrite Hsteps, Hj, <- app_assoc. split; [done|].
    split; [by apply HandlerTrace_wellSequenced|].
    intros id Hid. destruct (HandlerTrace_save_threw _ _ Htrace Hid) as [id' Heq].
    discriminate.
  - exists [SaveThrew (Book.id book)]. cbn. rewrite Hj. split; [done|].
    split; [apply HandlerTrace_wellSequenced; constructor|]. done.
Qed.

Lemma save_publish_clear {A} (book : Book.t) (k : Book.t → Js A) :
  (∀ b, silent (k b)) →
  sequencesCalls
    (awaitSave book ≫= fun _ =>
     awaitPublishAll (Book.domainEvents book) ≫= fun _ =>
     callClearDomainEvents book ≫= k).
Proof. intros Hk. apply save_then. intros w. by apply publish_then_clear. Qed.

(** C4. In every execution of the create, update, mark-finished and
    add-quote handlers, from every world and whatever the outcome, the
    calls are sequenced: an event is handed to the publisher only after
    [save] has returned, the outbox is cleared only after [publishAll] has
    returned, and when [save] throws no event is published, the channel
    stays as it was and the outbox is not cleared. *)
Theorem handlers_save_publish_clear :
  (∀ payload, sequencesCalls (CreateBookHandler.execute payload))
  ∧ (∀ bookId changes, sequencesCalls (UpdateBookHandler.execute bookId changes))
  ∧ (∀ bookId yearRead rating,
       sequencesCalls (MarkBookAsFinishedHandler.execute bookId yearRead rating))
  ∧ (∀ bookId content page,
       sequencesCalls (AddQuoteHandler.execute bookId content page)).
Proof.
  split; [|split; [|split]].
  - intros payload. unfold CreateBookHandler.execute.
    apply sequencesCalls_prelude; [solve_silent|intros _].
    apply sequencesCalls_prelude; [apply silent_create|intros book].
    apply save_publish_clear. intros b. solve_silent.
  - intros bookId changes. unfold UpdateBookHandler.execute.
    apply sequencesCalls_prelude; [apply silent_loadBook|intros book0].
    apply sequencesCalls_prelude; [apply silent_updateDetails|intros book].
    apply save_then. intros w.
    destruct (Book.hasUncommittedEvents book).
    + apply publish_then_clear. intros b. solve_silent.
    + exists []. cbn. rewrite app_nil_r. by split; [|left].
  - intros bookId yearRead rating. unfold MarkBookAsFinishedHandler.execute.
    apply sequencesCalls_prelude; [apply silent_loadBook|intros book0].
    apply sequencesCalls_prelude; [apply silent_markAsFinished|intros book].
    apply save_publish_clear. intros b. solve_silent.
  - intros bookId content page. unfold AddQuoteHandler.execute.
    apply sequencesCalls_prelude; [apply silent_loadBook|intros book0].
    apply sequencesCalls_prelude; [apply silent_addQuote|intros [quote book]].
    apply save_publish_clear. intros b. solve_silent.
Qed.

(** The journal of a successful creation. *)
Example create_handler_journal :
  journal (CreateBookHandler.execute sampleProps sampleWorld).2
  = [SaveReturned "uuid-0"; PublishCalled "uuid-1"; PublishAllReturned;
     EventsCleared "uuid-0"].
Proof. reflexivity. Qed.

(** With the stored row one version ahead, [save] throws: nothing reaches
    the channel and the outbox is not cleared. *)
Example update_handler_conflict :
  journal (awaitSave sampleBook storedWorld).2 = [SaveThrew "uuid-0"]
  ∧ channel (awaitSave sampleBook storedWorld).2 = Some [].
Proof. split; reflexivity. Qed.

(** ** Reconciliation of a child table *)

Section SyncChildrenFacts.

Context {Child Row : Type}.
Variable childId : Child → string.
Variable rowBookId : Row → string.
Variable patch : Child → Row → Row.
Variable fresh : string → Child → Row.
Variable pkey : string.

Hypothesis fresh_bookId : ∀ bookId c, rowBookId (fresh bookId c) = bookId.

Lemma existingIdsOf_spec (bookId : string) (table : gmap string Row) (k : string) :
  k ∈ existingIdsOf rowBookId bookId table
  ↔ ∃ r, table !! k = Some r ∧ rowBookId r = bookId.
Proof.
  unfold existingIdsOf. rewrite elem_of_dom. unfold is_Some.
  setoid_rewrite map_lookup_filter_Some. naive_solver.
Qed.

Lemma deleteRemoved_lookup (existingIds currentIds : gset string)
    (table : gmap string Row) (k : string) :
  deleteRemoved existingIds currentIds table !! k
  = if bool_decide (k ∈ existingIds ∧ k ∉ currentIds) then None else table !! k.
Proof.
  unfold deleteRemoved.
  rewrite (bool_decide_ext (k ∈ existingIds ∧ k ∉ currentIds)
             (k ∈ elements existingIds ∧ k ∉ currentIds))
    by (by rewrite elem_of_elements).
  generalize (elements existingIds). intros l. revert table.
  induction l as [|x l IH]; intros table; cbn.
  - rewrite bool_decide_eq_false_2; [done|]. intros [H _]. by apply elem_of_nil in H.
  - rewrite IH. destruct (decide (k ∈ l ∧ k ∉ currentIds)) as [Hl|Hl].
    + rewrite !bool_decide_eq_true_2; [done| |done].
      split; [apply elem_of_cons; right|]; apply Hl.
    + rewrite (bool_decide_eq_false_2 _ Hl).
      destruct (decide (x ∉ currentIds)) as [Hx|Hx].
      * rewrite (bool_decide_eq_true_2 _ Hx).
        destruct (decide (x = k)) as [->|Hne].
        -- rewrite lookup_delete_eq, bool_decide_eq_true_2; [done|].
           split; [apply elem_of_cons; by left|done].
        -- rewrite lookup_delete_ne by done.
           rewrite bool_decide_eq_false_2; [done|].
           intros [Hin Hout]. apply elem_of_cons in Hin as [->|Hin]; [done|].
           by apply Hl.
      * rewrite (bool_decide_eq_false_2 _ Hx).
        rewrite bool_decide_eq_false_2; [done|].
        intros [Hin Hout]. apply elem_of_cons in Hin as [->|Hin]; [done|].
        by apply Hl.
Qed.

Lemma upsertAll_lookup (bookId : string) (existingIds : gset string)
    (children : list Child) (table table' : gmap string Row) :
  NoDup (childId <$> children) →
  upsertAll childId patch fresh pkey bookId existingIds children table = Returned table' →
  (∀ k, k ∉ childId <$> children → table' !! k = table !! k)
  ∧ (∀ c, c ∈ children →
       table' !! childId c
       = if bool_decide (childId c ∈ existingIds)
         then patch c <$> table !! childId c
         else Some (fresh bookId c)).
Proof.
  revert table. induction children as [|c rest IH]; intros table Hnd Hrun.
  - cbn in Hrun. injection Hrun as <-. split; [done|]. intros c Hc.
    by apply elem_of_nil in Hc.
  - cbn in Hnd. apply NoDup_cons in Hnd as [Hfresh Hnd]. cbn in Hrun.
    case_bool_decide as Hex.
    + destruct (IH _ Hnd Hrun) as [Hother Hmine]. split.
      * intros k Hk. cbn in Hk. apply not_elem_of_cons in Hk as [Hne Hk].
        rewrite (Hother k Hk). by rewrite lookup_alter_ne.
      * intros c' Hc'. apply elem_of_cons in Hc' as [->|Hc'].
        -- rewrite (Hother _ Hfresh), lookup_alter_eq.
           by rewrite bool_decide_eq_true_2.
        -- rewrite (Hmine c' Hc').
           assert (childId c ≠ childId c') as Hne.
           { intros Heq. apply Hfresh. rewrite Heq. by apply list_elem_of_fmap_2. }
           by rewrite lookup_alter_ne.
    + destruct (table !! childId c) as [r|] eqn:Hr; [discriminate|].
      destruct (IH _ Hnd Hrun) as [Hother Hmine]. split.
      * intros k Hk. cbn in Hk. apply not_elem_of_cons in Hk as [Hne Hk].
        rewrite (Hother k Hk). by rewrite lookup_insert_ne.
      * intros c' Hc'. apply elem_of_cons in Hc' as [->|Hc'].
        -- rewrite (Hother _ Hfresh), lookup_insert_eq.
           by rewrite bool_decide_eq_false_2.
        -- rewrite (Hmine c' Hc').
           assert (childId c ≠ childId c') as Hne.
           { intros Heq. apply Hfresh. rewrite Heq. by apply list_elem_of_fmap_2. }
           by rewrite lookup_insert_ne.
Qed.

(** After a successful reconciliation the rows of the book are exactly the
    rows of its children, provided the rows the table already held for
    them agree with the children on the columns that UPDATE keeps. *)
Lemma syncChildren_rows (bookId : string) (children : list Child)
    (table table' : gmap string Row) :
  NoDup (childId <$> children) →
  (∀ c r, c ∈ children → table !! childId c = Some r → rowBookId r = bookId →
          patch c r = fresh bookId c) →
  syncChildren childId rowBookId patch fresh pkey bookId children table
  = Returned table' →
  filter (fun kv : string * Row => rowBookId kv.2 = bookId) table'
  = list_to_map ((fun c => (childId c, fresh bookId c)) <$> children).
Proof.
  intros Hnd Hagree Hrun. unfold syncChildren in Hrun.
  destruct (upsertAll_lookup _ _ _ _ _ Hnd Hrun) as [Hother Hmine].
  assert (Hkeys : ((fun c => (childId c, fresh bookId c)) <$> children).*1
                  = childId <$> children).
  { rewrite <- list_fmap_compose. done. }
  apply map_eq. intros k.
  destruct (decide (k ∈ childId <$> children)) as [Hin|Hout].
  - apply list_elem_of_fmap in Hin as (c & -> & Hc).
    transitivity (Some (fresh bookId c)).
    + apply map_lookup_filter_Some. split; [|by cbn].
      rewrite (Hmine c Hc). case_bool_decide as Hex; [|done].
      apply existingIdsOf_spec in Hex as (r & Hr & Hb).
      rewrite deleteRemoved_lookup.
      rewrite bool_decide_eq_false_2.
      * rewrite Hr. cbn. f_equal. by apply Hagree.
      * intros [_ Hnot]. apply Hnot. unfold currentIdsOf.
        apply elem_of_list_to_set. by apply list_elem_of_fmap_2.
    + symmetry. apply elem_of_list_to_map_1; [by rewrite Hkeys|].
      by apply (list_elem_of_fmap_2 (fun c => (childId c, fresh bookId c))).
  - transitivity (@None Row).
    + apply map_lookup_filter_None. rewrite (Hother k Hout), deleteRemoved_lookup.
      case_bool_decide as Hdel; [by left|]. right. intros r Hr Hb. cbn in Hb.
      apply Hdel. split.
      * apply existingIdsOf_spec. eauto.
      * unfold currentIdsOf. by rewrite elem_of_list_to_set.
    + symmetry. apply not_elem_of_list_to_map_1. by rewrite Hkeys.
Qed.

End SyncChildrenFacts.

(** ** ORDER BY created_at *)

Lemma Sorted_fmap_inv {A B} (f : A → B) (R : relation B) (R' : relation A)
    (l : list A) :
  (∀ x y, R (f x) (f y) → R' x y) → Sorted R (f <$> l) → Sorted R' l.
Proof.
  intros Hweak. induction l as [|x l IH]; cbn; [constructor|].
  intros Hs. apply Sorted_inv in Hs as [Hs Hhd]. constructor; [by apply IH|].
  destruct l; cbn in *; [constructor|]. apply HdRel_inv in Hhd.
  constructor. by apply Hweak.
Qed.

Lemma strictly_sorted_key_inj {A} (key : A → Z) (l : list A) (a b : A) :
  Sorted Z.lt (key <$> l) → a ∈ l → b ∈ l → key a = key b → a = b.
Proof.
  intros Hs. apply Sorted_StronglySorted in Hs; [|apply _].
  induction l as [|x l IH]; intros Ha Hb Hk; [by apply elem_of_nil in Ha|].
  cbn in Hs. apply StronglySorted_inv in Hs as [Hs Hall].
  rewrite Forall_fmap, Forall_forall in Hall.
  apply elem_of_cons in Ha as [->|Ha], Hb as [->|Hb]; [done| | |by apply IH].
  - specialize (Hall _ Hb). cbn in Hall. lia.
  - specialize (Hall _ Ha). cbn in Hall. lia.
Qed.

(** A list whose keys do not decrease and an arrangement of it whose keys
    increase strictly are the same list. *)
Lemma sorted_by_key_unique {A} (key : A → Z) (l l' : list A) :
  l' ≡ₚ l →
  Sorted Z.le (key <$> l') →
  Sorted Z.lt (key <$> l) →
  l' = l.
Proof.
  intros Hperm Hs' Hs.
  set (R := fun a b : A => key a ≤ key b).
  assert (Htrans : Transitive R) by (intros a b c; unfold R; lia).
  apply (Sorted_unique_strong R).
  - intros x1 x2 Hx1 Hx2 H12 H21. unfold R in *.
    apply (strictly_sorted_key_inj key l); [done| |done|lia].
    by rewrite <- Hperm.
  - by apply (Sorted_fmap_inv key Z.le R).
  - apply (Sorted_fmap_inv key Z.lt R); [|done]. intros a b Hab. unfold R. lia.
  - done.
Qed.

(** [ORDER BY created_at] on the rows of the children: they come back as
    the rows of some arrangement of the children in which the creation
    times do not decrease. The query does not say more of rows with equal
    creation times. *)
Lemma ordered_rows {A Row} (R : relation (string * Row))
    `{∀ x y, Decision (R x y)} (key : A → Z) (rowKey : string * Row → Z)
    (f : A → string * Row) (children : list A) (rows : list (string * Row)) :
  (∀ a b, R a b ↔ rowKey a ≤ rowKey b) →
  (∀ c, rowKey (f c) = key c) →
  rows ≡ₚ f <$> children →
  ∃ l, merge_sort R rows = f <$> l ∧ l ≡ₚ children ∧ Sorted Z.le (key <$> l).
Proof.
  intros HR Hkey Hperm.
  assert (Htotal : Total R) by (intros a b; rewrite !HR; lia).
  assert (Hp : merge_sort R rows ≡ₚ map f children).
  { rewrite merge_sort_Permutation. exact Hperm. }
  apply Permutation_map_inv in Hp as (l & Hl & Hpl).
  exists l. split; [exact Hl|]. split; [by symmetry|].
  pose proof (Sorted_merge_sort R rows) as Hs. rewrite Hl in Hs.
  apply (Sorted_fmap key (fun a b => key a ≤ key b)); [done|].
  apply (Sorted_fmap_inv f R); [|exact Hs].
  intros a b Hab. apply HR in Hab. by rewrite !Hkey in Hab.
Qed.

Lemma forallb_Permutation {A} (f : A → bool) (l l' : list A) :
  l' ≡ₚ l → forallb f l = true → forallb f l' = true.
Proof.
  intros Hperm Hall. apply forallb_forall. intros x Hx.
  apply (proj1 (forallb_forall f l) Hall). by apply (Permutation_in x Hperm).
Qed.

(** ** save, then findById *)

Lemma forallb_elem_of {A} (f : A → bool) (l : list A) (x : A) :
  forallb f l = true → x ∈ l → f x = true.
Proof.
  intros Hall Hx. apply list_elem_of_In in Hx.
  by apply (proj1 (forallb_forall f l) Hall).
Qed.

Lemma fromString_toString (s : ReadingStatus) :
  ReadingStatusUtils.fromString (ReadingStatusUtils.toString s) = Returned s.
Proof. by destruct s. Qed.

Lemma truthyString_id (s : option string) : s ≠ Some "" → truthyString s = s.
Proof.
  destruct s as [s|]; [|done]. intros Hs. cbn.
  rewrite bool_decide_eq_false_2; [done|]. congruence.
Qed.

Lemma truthyNumber_id (n : option Z) : n ≠ Some 0 → truthyNumber n = n.
Proof.
  destruct n as [n|]; [|done]. intros Hn. cbn.
  destruct (n =? 0) eqn:E; [|done]. apply Z.eqb_eq in E. congruence.
Qed.

Lemma mapOutcome_toQuote (bookId : string) (qs : list Quote.t) :
  Str.isBlank bookId = false →
  forallb (quoteWellFormed bookId) qs = true →
  mapOutcome PostgresBookRepository.toQuote
    ((fun q => (Quote.id q, PostgresBookRepository.quoteFresh bookId q)) <$> qs)
  = Returned qs.
Proof.
  intros Hid. induction qs as [|q qs IH]; [done|]. cbn.
  rewrite andb_true_iff. intros [Hq Hqs]. rewrite (IH Hqs).
  unfold quoteWellFormed in Hq. apply andb_true_iff in Hq as [Hblank Hbook].
  apply negb_true_iff in Hblank. apply bool_decide_eq_true in Hbook.
  unfold PostgresBookRepository.toQuote, Quote.reconstitute,
    QuoteId.fromString, BookId.fromString. cbn.
  rewrite Hblank, Hid. cbn. destruct q; cbn in *. by subst.
Qed.

Lemma mapOutcome_toNote (bookId : string) (ns : list Note.t) :
  Str.isBlank bookId = false →
  forallb (noteWellFormed bookId) ns = true →
  mapOutcome PostgresBookRepository.toNote
    ((fun n => (Note.id n, PostgresBookRepository.noteFresh bookId n)) <$> ns)
  = Returned (noteReloaded <$> ns).
Proof.
  intros Hid. induction ns as [|n ns IH]; [done|]. cbn.
  rewrite andb_true_iff. intros [Hn Hns]. rewrite (IH Hns).
  unfold noteWellFormed in Hn. apply andb_true_iff in Hn as [Hblank Hbook].
  apply negb_true_iff in Hblank. apply bool_decide_eq_true in Hbook.
  unfold PostgresBookRepository.toNote, Note.reconstitute,
    NoteId.fromString, BookId.fromString. cbn.
  rewrite Hblank, Hid. cbn. destruct n; cbn in *. by subst.
Qed.

(** The quotes that [findById] selects after a successful
    reconciliation are the aggregate's, ordered by creation time. *)
Lemma selectQuotesOrdered_synced (book : Book.t) (db db' : Database) :
  NoDup (Quote.id <$> Book.quotes book) →
  forallb (quoteInStep db (Book.id book)) (Book.quotes book) = true →
  syncedQuotes book (quotes db) = Returned (quotes db') →
  ∃ qs,
    PostgresBookRepository.selectQuotesOrdered (Book.id book) db'
    = (fun q => (Quote.id q, PostgresBookRepository.quoteFresh (Book.id book) q)) <$> qs
    ∧ qs ≡ₚ Book.quotes book
    ∧ Sorted Z.le (Quote.createdAt <$> qs).
Proof.
  intros Hnd Hstep Hsync.
  unfold PostgresBookRepository.selectQuotesOrdered,
    PostgresBookRepository.selectQuotes.
  unfold syncedQuotes in Hsync.
  rewrite (syncChildren_rows Quote.id QuoteRow.book_id
             PostgresBookRepository.quotePatch PostgresBookRepository.quoteFresh
             "quotes_pkey" (fun _ _ => eq_refl) _ _ _ _ Hnd)
    with (2 := Hsync).
  - apply (ordered_rows _ Quote.createdAt
             (fun kv : string * QuoteRow.t => QuoteRow.created_at kv.2)).
    + done.
    + done.
    + apply map_to_list_to_map. by rewrite <- list_fmap_compose.
  - intros q r Hq Hr Hb.
    pose proof (forallb_elem_of _ _ _ Hstep Hq) as Hin.
    unfold quoteInStep in Hin. rewrite Hr in Hin.
    rewrite bool_decide_eq_true_2 in Hin by done. cbn in Hin.
    apply Z.eqb_eq in Hin. destruct r; cbn in *.
    unfold PostgresBookRepository.quotePatch, PostgresBookRepository.quoteFresh.
    cbn. by subst.
Qed.

Lemma selectNotesOrdered_synced (book : Book.t) (db db' : Database) :
  NoDup (Note.id <$> Book.notes book) →
  forallb (noteInStep db (Book.id book)) (Book.notes book) = true →
  syncedNotes book (notes db) = Returned (notes db') →
  ∃ ns,
    PostgresBookRepository.selectNotesOrdered (Book.id book) db'
    = (fun n => (Note.id n, PostgresBookRepository.noteFresh (Book.id book) n)) <$> ns
    ∧ ns ≡ₚ Book.notes book
    ∧ Sorted Z.le (Note.createdAt <$> ns).
Proof.
  intros Hnd Hstep Hsync.
  unfold PostgresBookRepository.selectNotesOrdered,
    PostgresBookRepository.selectNotes.
  unfold syncedNotes in Hsync.
  rewrite (syncChildren_rows Note.id NoteRow.book_id
             PostgresBookRepository.notePatch PostgresBookRepository.noteFresh
             "notes_pkey" (fun _ _ => eq_refl) _ _ _ _ Hnd)
    with (2 := Hsync).
  - apply (ordered_rows _ Note.createdAt
             (fun kv : string * NoteRow.t => NoteRow.created_at kv.2)).
    + done.
    + done.
    + apply map_to_list_to_map. by rewrite <- list_fmap_compose.
  - intros n r Hn Hr Hb.
    pose proof (forallb_elem_of _ _ _ Hstep Hn) as Hin.
    unfold noteInStep in Hin. rewrite Hr in Hin.
    rewrite bool_decide_eq_true_2 in Hin by done. cbn in Hin.
    apply Z.eqb_eq in Hin. destruct r; cbn in *.
    unfold PostgresBookRepository.notePatch, PostgresBookRepository.noteFresh.
    cbn. by subst.
Qed.

(** [findById] on a stored row and on the child rows of the aggregate,
    in the order in which the two queries yield them. *)
Lemma findById_rebuilds (book : Book.t) (row : BookRow.t) (qs : list Quote.t)
    (ns : list Note.t) (w : World) :
  wellFormed book = true →
  qs ≡ₚ Book.quotes book →
  ns ≡ₚ Book.notes book →
  books (pg w) !! Book.id book = Some row →
  PostgresBookRepository.selectQuotesOrdered (Book.id book) (pg w)
  = (fun q => (Quote.id q, PostgresBookRepository.quoteFresh (Book.id book) q)) <$> qs →
  PostgresBookRepository.selectNotesOrdered (Book.id book) (pg w)
  = (fun n => (Note.id n, PostgresBookRepository.noteFresh (Book.id book) n)) <$> ns →
  BookRow.title row = Book.title book →
  BookRow.author_id row = Book.authorId book →
  BookRow.page_count row = Book.pageCount book →
  BookRow.isbn row = Book.isbn book →
  BookRow.year_read row = Book.yearRead book →
  BookRow.status row = ReadingStatusUtils.toString (Book.status book) →
  BookRow.rating row = Book.rating book →
  BookRow.cover_url row = Book.coverUrl book →
  BookRow.version row = Book.version book + 1 →
  BookRow.created_at row = Book.createdAt book →
  BookRow.updated_at row = Book.updatedAt book →
  PostgresBookRepository.findById (Book.id book) w
  = (Returned (Some (Book.set_notes (noteReloaded <$> ns)
                       (Book.set_quotes qs (reloaded book)))), w).
Proof.
  intros Hwf Hqs Hns Hrow Hquotes Hnotes Ht Ha Hp Hi Hy Hs Hr Hc Hv Hca Hua.
  unfold wellFormed in Hwf. rewrite !andb_true_iff in Hwf.
  destruct Hwf as [[[[[[Hid Hisbn] Hrating] Hq] _] Hn] _].
  apply negb_true_iff in Hid.
  apply bool_decide_eq_true in Hisbn, Hrating.
  apply (forallb_Permutation _ _ _ Hqs) in Hq.
  apply (forallb_Permutation _ _ _ Hns) in Hn.
  unfold PostgresBookRepository.findById. js_unfold. cbn.
  rewrite Hrow, Hquotes, Hnotes.
  unfold PostgresBookRepository.toAggregate.
  rewrite (mapOutcome_toQuote _ _ Hid Hq), (mapOutcome_toNote _ _ Hid Hn). cbn.
  unfold Book.reconstitute. cbn.
  rewrite Hs, fromString_toString. cbn.
  unfold BookId.fromString. rewrite Hid. cbn.
  rewrite Hi, Hr, (truthyString_id _ Hisbn), (truthyNumber_id _ Hrating).
  rewrite Ht, Ha, Hp, Hy, Hc, Hv, Hca, Hua.
  unfold reloaded, Book.setVersion, Book.set_notes, Book.set_quotes,
    Title.fromString, PageCount.fromNumber. cbn.
  by destruct (Book.isbn book), (Book.rating book).
Qed.

(** The row that a successful [save] leaves for the book, and the child
    rows that [findById] will select. *)
Lemma save_then_select (book : Book.t) (w w' : World) :
  wellFormed book = true →
  inStepWith (pg w) book = true →
  PostgresBookRepository.save book w = (Returned tt, w') →
  ∃ qs ns,
    PostgresBookRepository.findById (Book.id book) w'
    = (Returned (Some (Book.set_notes (noteReloaded <$> ns)
                         (Book.set_quotes qs (reloaded book)))), w')
    ∧ qs ≡ₚ Book.quotes book
    ∧ Sorted Z.le (Quote.createdAt <$> qs)
    ∧ ns ≡ₚ Book.notes book
    ∧ Sorted Z.le (Note.createdAt <$> ns).
Proof.
  intros Hwf Hstep Hsave.
  pose proof Hwf as Hwf'.
  unfold wellFormed in Hwf'. rewrite !andb_true_iff in Hwf'.
  destruct Hwf' as [[[[[[_ _] _] _] Hqnd] _] Hnnd].
  apply bool_decide_eq_true in Hqnd, Hnnd.
  unfold inStepWith in Hstep. rewrite !andb_true_iff in Hstep.
  destruct Hstep as [[Hrowstep Hqstep] Hnstep].
  rewrite save_run in Hsave.
  destruct (saveOutcome book (pg w)) as [db'|] eqn:Hout; [|discriminate].
  injection Hsave as <-. unfold saveOutcome in Hout.
  destruct (storeBookRow book (books (pg w))) as [bt|] eqn:Hbt; [|discriminate].
  cbn in Hout.
  destruct (syncedQuotes book (quotes (pg w))) as [qt|] eqn:Hqt; [|discriminate].
  cbn in Hout.
  destruct (syncedNotes book (notes (pg w))) as [nt|] eqn:Hnt; [|discriminate].
  cbn in Hout. injection Hout as <-.
  destruct (selectQuotesOrdered_synced book (pg w)
              {| books := bt; quotes := qt; notes := nt |} Hqnd Hqstep Hqt)
    as (qs & Hqrows & Hqperm & Hqsorted).
  destruct (selectNotesOrdered_synced book (pg w)
              {| books := bt; quotes := qt; notes := nt |} Hnnd Hnstep Hnt)
    as (ns & Hnrows & Hnperm & Hnsorted).
  exists qs, ns. split; [|done].
  unfold storeBookRow in Hbt.
  destruct (books (pg w) !! Book.id book) as [old|] eqn:Hold.
  - destruct (BookRow.version old =? Book.version book) eqn:Hv; [|discriminate].
    destruct (PostgresBookRepository.isbnTaken _ _ _); [discriminate|].
    injection Hbt as <-.
    apply andb_true_iff in Hrowstep as [Hauthor Hcreated].
    apply bool_decide_eq_true in Hauthor. apply Z.eqb_eq in Hcreated, Hv.
    apply (findById_rebuilds book (PostgresBookRepository.updateSet book old));
      try done; cbn.
    + apply lookup_insert_eq.
    + by rewrite Hv.
  - destruct (PostgresBookRepository.isbnTaken _ _ _); [discriminate|].
    injection Hbt as <-.
    apply (findById_rebuilds book (PostgresBookRepository.insertValues book));
      try done; cbn.
    apply lookup_insert_eq.
Qed.

(** C5, amended. For an aggregate whose ids are in order (none blank,
    the children carry the book's id and have distinct ids, no empty ISBN,
    no zero rating) and which is in step with the database, a [save] that
    returns is followed by a [findById] that returns an aggregate with the
    same id, title, author, page count, ISBN, year, status, rating, cover
    and dates, a version one above the saved one and an empty outbox. Its
    quotes are the saved quotes and its notes the saved notes, every note
    with its [updatedAt] set back to its [createdAt], both ordered by
    creation time: in the order of the saved aggregate when its creation
    times increase strictly, in an order the query leaves open among
    children of the same millisecond. *)
Theorem save_then_findById (book : Book.t) (w w' : World) :
  wellFormed book = true →
  inStepWith (pg w) book = true →
  PostgresBookRepository.save book w = (Returned tt, w') →
  ∃ b',
    PostgresBookRepository.findById (Book.id book) w' = (Returned (Some b'), w')
    ∧ Book.id b' = Book.id book
    ∧ Book.title b' = Book.title book
    ∧ Book.authorId b' = Book.authorId book
    ∧ Book.pageCount b' = Book.pageCount book
    ∧ Book.isbn b' = Book.isbn book
    ∧ Book.yearRead b' = Book.yearRead book
    ∧ Book.status b' = Book.status book
    ∧ Book.rating b' = Book.rating book
    ∧ Book.coverUrl b' = Book.coverUrl book
    ∧ Book.createdAt b' = Book.createdAt book
    ∧ Book.updatedAt b' = Book.updatedAt book
    ∧ Book.version b' = Book.version book + 1
    ∧ Book.domainEvents b' = []
    ∧ Book.quotes b' ≡ₚ Book.quotes book
    ∧ Sorted Z.le (Quote.createdAt <$> Book.quotes b')
    ∧ Book.notes b' ≡ₚ noteReloaded <$> Book.notes book
    ∧ Sorted Z.le (Note.createdAt <$> Book.notes b')
    ∧ (Sorted Z.lt (Quote.createdAt <$> Book.quotes book) →
       Book.quotes b' = Book.quotes book)
    ∧ (Sorted Z.lt (Note.createdAt <$> Book.notes book) →
       Book.notes b' = noteReloaded <$> Book.notes book)
    ∧ (Sorted Z.lt (Quote.createdAt <$> Book.quotes book) →
       Sorted Z.lt (Note.createdAt <$> Book.notes book) →
       b' = reloaded book).
Proof.
  intros Hwf Hstep Hsave.
  destruct (save_then_select book w w' Hwf Hstep Hsave)
    as (qs & ns & Hfind & Hqperm & Hqsorted & Hnperm & Hnsorted).
  assert (Hcreated : Note.createdAt <$> (noteReloaded <$> ns) = Note.createdAt <$> ns).
  { by rewrite <- list_fmap_compose. }
  eexists. split; [exact Hfind|]. cbn.
  do 13 (split; [reflexivity|]).
  split; [exact Hqperm|]. split; [exact Hqsorted|].
  split; [by rewrite Hnperm|]. split; [by rewrite Hcreated|].
  split; [|split].
  - intros Hlt. by apply (sorted_by_key_unique Quote.createdAt).
  - intros Hlt. f_equal. by apply (sorted_by_key_unique Note.createdAt).
  - intros Hqlt Hnlt.
    rewrite (sorted_by_key_unique Quote.createdAt _ _ Hqperm Hqsorted Hqlt).
    rewrite (sorted_by_key_unique Note.createdAt _ _ Hnperm Hnsorted Hnlt).
    reflexivity.
Qed.

Lemma save_then_findById_witness :
  ∃ b',
    PostgresBookRepository.findById (Book.id annotatedBook)
      (PostgresBookRepository.save annotatedBook sampleWorld).2
    = (Returned (Some b'), (PostgresBookRepository.save annotatedBook sampleWorld).2)
    ∧ Book.title b' = Book.title annotatedBook
    ∧ Book.version b' = Book.version annotatedBook + 1
    ∧ Book.domainEvents b' = []
    ∧ Book.quotes b' = Book.quotes annotatedBook
    ∧ Book.notes b' = noteReloaded <$> Book.notes annotatedBook
    ∧ b' = reloaded annotatedBook.
Proof.
  destruct (save_then_findById annotatedBook sampleWorld
              (PostgresBookRepository.save annotatedBook sampleWorld).2)
    as (b' & Hfind & _ & Ht & _ & _ & _ & _ & _ & _ & _ & _ & _ & Hv & He
        & _ & _ & _ & _ & Hq & Hn & Hb); [reflexivity..|].
  exists b'. split; [exact Hfind|]. split; [exact Ht|]. split; [exact Hv|].
  split; [exact He|].
  assert (Hqlt : Sorted Z.lt (Quote.createdAt <$> Book.quotes annotatedBook)).
  { cbn. repeat constructor. }
  assert (Hnlt : Sorted Z.lt (Note.createdAt <$> Book.notes annotatedBook)).
  { cbn. repeat constructor. }
  split; [by apply Hq|]. split; [by apply Hn|]. by apply Hb.
Defined.

(** Two quotes added within one millisecond: the aggregate is accepted as
    it is, and the round trip gives both quotes back. *)
Example same_millisecond_round_trip :
  wellFormed sameMillisecondBook = true
  ∧ Quote.createdAt <$> Book.quotes sameMillisecondBook
    = [1704067200002; 1704067200002]
  ∧ ∃ w' b',
      PostgresBookRepository.save sameMillisecondBook sampleWorld = (Returned tt, w')
      ∧ PostgresBookRepository.findById (Book.id sameMillisecondBook) w'
        = (Returned (Some b'), w')
      ∧ Book.quotes b' ≡ₚ Book.quotes sameMillisecondBook.
Proof.
  split; [reflexivity|]. split; [reflexivity|].
  destruct (PostgresBookRepository.save sameMillisecondBook sampleWorld)
    as [[[]|e] w'] eqn:Hsave; [|by vm_compute in Hsave].
  destruct (save_then_select sameMillisecondBook sampleWorld w' eq_refl eq_refl Hsave)
    as (qs & ns & Hfind & Hqperm & _).
  exists w'. eexists. split; [reflexivity|]. split; [exact Hfind|]. exact Hqperm.
Qed.

(** C5, as stated, fails: a note that was edited after its creation comes
    back from [save] and [findById] with another [updatedAt]. *)
Lemma save_then_findById_loses_note_update :
  ∃ w' b',
    PostgresBookRepository.save annotatedBook sampleWorld = (Returned tt, w')
    ∧ PostgresBookRepository.findById (Book.id annotatedBook) w'
      = (Returned (Some b'), w')
    ∧ Note.updatedAt <$> Book.notes annotatedBook = [1704067200999]
    ∧ Note.updatedAt <$> Book.notes b' = [1704067200010]
    ∧ Book.notes b' ≠ Book.notes annotatedBook.
Proof.
  exists (PostgresBookRepository.save annotatedBook sampleWorld).2,
    (reloaded annotatedBook).
  split; [reflexivity|]. split; [reflexivity|]. split; [reflexivity|].
  split; [reflexivity|]. intros H. discriminate H.
Qed.

(** The update path on an example: the first writer's aggregate, saved
    over the stored row, comes back with its new title at version 3. *)
Example update_round_trip :
  inStepWith (pg storedWorld) firstWriter = true
  ∧ PostgresBookRepository.findById "uuid-0" worldAfterFirst
    = (Returned (Some (reloaded firstWriter)), worldAfterFirst)
  ∧ Book.title (reloaded firstWriter) = "DDD, 2nd printing"
  ∧ Book.version (reloaded firstWriter) = 3.
Proof. repeat split. Qed.

(** * Further properties of the code *)

(** ** Strings: append, reversal, trimming *)

#[local] Arguments Str.trimEnd : simpl never.
#[local] Arguments Str.trim : simpl never.

Lemma app_cons (c : ascii) (s t : string) : String c s +:+ t = String c (s +:+ t).
Proof. reflexivity. Qed.

Lemma app_empty_r (s : string) : s +:+ "" = s.
Proof. induction s as [|c s IH]; [done|]. by rewrite app_cons, IH. Qed.

Lemma app_assoc_string (s t u : string) : (s +:+ t) +:+ u = s +:+ (t +:+ u).
Proof. induction s as [|c s IH]; [done|]. by rewrite !app_cons, IH. Qed.

Lemma app_length (s t : string) :
  String.length (s +:+ t) = (String.length s + String.length t)%nat.
Proof. induction s as [|c s IH]; [done|]. rewrite app_cons. cbn. by rewrite IH. Qed.

Lemma len_app (s t : string) : Str.len (s +:+ t) = Str.len s + Str.len t.
Proof. unfold Str.len. rewrite app_length. lia. Qed.

Lemma rev_app_spec (s t : string) : String.rev_app s t = String.rev s +:+ t.
Proof.
  unfold String.rev. revert t. induction s as [|c s IH]; intros t; [done|].
  cbn. rewrite (IH (String c "")), IH, app_assoc_string. done.
Qed.

Lemma rev_cons (c : ascii) (s : string) :
  String.rev (String c s) = String.rev s +:+ String c "".
Proof. unfold String.rev at 1. cbn. apply rev_app_spec. Qed.

Lemma rev_app_distr (s t : string) :
  String.rev (s +:+ t) = String.rev t +:+ String.rev s.
Proof.
  induction s as [|c s IH]; [by rewrite app_empty_r|].
  by rewrite app_cons, !rev_cons, IH, app_assoc_string.
Qed.

Lemma rev_involutive (s : string) : String.rev (String.rev s) = s.
Proof.
  induction s as [|c s IH]; [done|]. by rewrite rev_cons, rev_app_distr, IH.
Qed.

Lemma rev_length (s : string) : String.length (String.rev s) = String.length s.
Proof.
  induction s as [|c s IH]; [done|]. rewrite rev_cons, app_length, IH. cbn. lia.
Qed.

Lemma trimStart_length (s : string) :
  (String.length (Str.trimStart s) ≤ String.length s)%nat.
Proof. induction s as [|c s IH]; cbn; [done|]. destruct (Str.isSpace c); cbn; lia. Qed.

Lemma trimStart_app (s t : string) :
  Str.trimStart (s +:+ t)
  = if bool_decide (Str.trimStart s = "") then Str.trimStart t
    else Str.trimStart s +:+ t.
Proof.
  induction s as [|c s IH]; [done|]. rewrite app_cons. cbn.
  destruct (Str.isSpace c); [done|]. by rewrite bool_decide_eq_false_2.
Qed.

(** [trimEnd], one code unit at a time. *)
Lemma trimEnd_cons (c : ascii) (s : string) :
  Str.trimEnd (String c s)
  = if Str.isSpace c && bool_decide (Str.trimEnd s = "") then ""
    else String c (Str.trimEnd s).
Proof.
  unfold Str.trimEnd. rewrite rev_cons, trimStart_app.
  destruct (Str.trimStart (String.rev s)) as [|d t] eqn:E.
  - rewrite bool_decide_eq_true_2 by done. cbn.
    destruct (Str.isSpace c); cbn; done.
  - rewrite bool_decide_eq_false_2 by done.
    rewrite rev_app_distr.
    assert (String.rev (String d t) ≠ "") as Hne.
    { intros H. apply (f_equal String.length) in H. rewrite rev_length in H. done. }
    rewrite bool_decide_eq_false_2 by done. by rewrite andb_false_r.
Qed.

Lemma trimEnd_length (s : string) :
  (String.length (Str.trimEnd s) ≤ String.length s)%nat.
Proof.
  unfold Str.trimEnd. rewrite rev_length.
  etrans; [apply trimStart_length|]. by rewrite rev_length.
Qed.

Lemma trim_len (s : string) : Str.len (Str.trim s) ≤ Str.len s.
Proof.
  unfold Str.len, Str.trim.
  pose proof (trimEnd_length (Str.trimStart s)). pose proof (trimStart_length s). lia.
Qed.

Lemma trimEnd_idempotent (s : string) : Str.trimEnd (Str.trimEnd s) = Str.trimEnd s.
Proof.
  induction s as [|c s IH]; [done|]. rewrite trimEnd_cons.
  destruct (Str.isSpace c && bool_decide (Str.trimEnd s = "")) eqn:E; [done|].
  by rewrite trimEnd_cons, IH, E.
Qed.

Lemma trimStart_fixed (s : string) :
  Str.trimStart (Str.trimStart s) = Str.trimStart s.
Proof.
  induction s as [|c s IH]; [done|]. cbn.
  destruct (Str.isSpace c) eqn:E; [done|]. cbn. by rewrite E.
Qed.

Lemma trimStart_trimEnd (s : string) :
  Str.trimStart s = s → Str.trimStart (Str.trimEnd s) = Str.trimEnd s.
Proof.
  destruct s as [|c s]; [done|]. cbn.
  destruct (Str.isSpace c) eqn:E.
  - intros H. apply (f_equal String.length) in H.
    pose proof (trimStart_length s). cbn in H. lia.
  - intros _. rewrite trimEnd_cons, E. cbn. by rewrite E.
Qed.

Lemma trim_idempotent (s : string) : Str.trim (Str.trim s) = Str.trim s.
Proof.
  unfold Str.trim.
  rewrite (trimStart_trimEnd (Str.trimStart s)) by apply trimStart_fixed.
  apply trimEnd_idempotent.
Qed.

Lemma len_zero (s : string) : Str.len s = 0 ↔ s = "".
Proof.
  unfold Str.len. destruct s; cbn; [done|]. split; [lia|discriminate].
Qed.

Lemma isBlank_false (s : string) : Str.isBlank s = false ↔ Str.trim s ≠ "".
Proof.
  unfold Str.isBlank. rewrite Z.eqb_neq, len_zero. done.
Qed.

(** ** Title: the normal form *)

Lemma collapseSpaces_fixed (s : string) :
  (∀ gap, Str.collapseSpaces false (Str.collapseSpaces gap s)
          = Str.collapseSpaces gap s)
  ∧ Str.collapseSpaces true (Str.collapseSpaces true s) = Str.collapseSpaces true s.
Proof.
  induction s as [|c s [IHf IHt]]; [done|]. split.
  - intros gap. cbn. destruct (Str.isSpace c) eqn:E.
    + destruct gap; [apply IHf|]. cbn. by rewrite IHt.
    + cbn. rewrite E. by rewrite IHf.
  - cbn. destruct (Str.isSpace c) eqn:E; [apply IHt|].
    cbn. rewrite E. by rewrite IHf.
Qed.

Lemma trimEnd_blank_iff (s : string) : Str.trimEnd s = "" ↔ Str.trimStart s = "".
Proof.
  induction s as [|c s IH]; [done|]. rewrite trimEnd_cons. cbn.
  destruct (Str.isSpace c); cbn; [|done].
  case_bool_decide as H.
  - split; [intros _; by apply IH|done].
  - split; [done|]. intros Hs. by apply IH in Hs.
Qed.

Lemma collapseSpaces_empty (gap : bool) (s : string) :
  Str.collapseSpaces gap s = "" → Str.trimStart s = "".
Proof.
  revert gap. induction s as [|c s IH]; intros gap; [done|]. cbn.
  destruct (Str.isSpace c); [|done]. destruct gap; [apply IH|done].
Qed.

Lemma trimEnd_collapseSpaces (gap : bool) (s : string) :
  Str.trimEnd s = s →
  Str.trimEnd (Str.collapseSpaces gap s) = Str.collapseSpaces gap s.
Proof.
  revert gap. induction s as [|c s IH]; intros gap; [done|].
  rewrite trimEnd_cons. cbn [Str.collapseSpaces].
  destruct (Str.isSpace c) eqn:E; cbn.
  - case_bool_decide as Hblank; [done|]. intros [= Hs].
    destruct gap; [by apply IH|].
    rewrite trimEnd_cons, (IH true Hs). cbn.
    rewrite bool_decide_eq_false_2; [done|].
    intros Hc. apply collapseSpaces_empty, trimEnd_blank_iff in Hc. done.
  - intros [= Hs]. rewrite trimEnd_cons, E, (IH false Hs). done.
Qed.

Lemma trimStart_collapseSpaces (s : string) :
  Str.trimStart s = s →
  Str.trimStart (Str.collapseSpaces false s) = Str.collapseSpaces false s.
Proof.
  destruct s as [|c s]; [done|]. cbn. destruct (Str.isSpace c) eqn:E.
  - intros H. apply (f_equal String.length) in H.
    pose proof (trimStart_length s). cbn in H. lia.
  - intros _. cbn. by rewrite E.
Qed.

Lemma normalize_trimmed (title : string) :
  Str.trim (Title.normalize title) = Title.normalize title.
Proof.
  unfold Title.normalize.
  assert (Hstart : Str.trimStart (Str.trim title) = Str.trim title).
  { unfold Str.trim. apply trimStart_trimEnd, trimStart_fixed. }
  assert (Hend : Str.trimEnd (Str.trim title) = Str.trim title).
  { unfold Str.trim. apply trimEnd_idempotent. }
  unfold Str.trim at 1.
  rewrite (trimStart_collapseSpaces _ Hstart).
  by apply trimEnd_collapseSpaces.
Qed.

Lemma normalize_idempotent (title : string) :
  Title.normalize (Title.normalize title) = Title.normalize title.
Proof.
  unfold Title.normalize at 1. rewrite normalize_trimmed.
  unfold Title.normalize. apply collapseSpaces_fixed.
Qed.

(** X1. Whatever [Title.create] returns is in normal form: it neither
    starts nor ends with white space, every run of white space in it is
    one space, its length is between 1 and 500, and creating a title from
    it again returns it unchanged. *)
Theorem title_create_normal_form (title value : string) :
  Title.create title = Returned value →
  Str.trim value = value
  ∧ Str.collapseSpaces false value = value
  ∧ 1 ≤ Str.len value ≤ 500
  ∧ Title.create value = Returned value.
Proof.
  unfold Title.create at 1. case_bool_decide as Hempty; [discriminate|].
  destruct (Str.len (Title.normalize title) <? Title.MIN_LENGTH) eqn:Hmin;
    [discriminate|].
  destruct (Str.len (Title.normalize title) >? Title.MAX_LENGTH) eqn:Hmax;
    [discriminate|].
  intros [= <-].
  assert (Hlen : 1 ≤ Str.len (Title.normalize title) ≤ 500).
  { unfold Title.MIN_LENGTH, Title.MAX_LENGTH in *. lia. }
  split; [apply normalize_trimmed|].
  split; [unfold Title.normalize; apply collapseSpaces_fixed|].
  split; [done|].
  unfold Title.create. rewrite bool_decide_eq_false_2.
  - by rewrite normalize_idempotent, Hmin, Hmax.
  - intros H. rewrite H in Hlen. unfold Str.len in Hlen. cbn in Hlen. lia.
Qed.

Lemma title_create_normal_form_witness :
  Str.trim "Domain-Driven Design" = "Domain-Driven Design"
  ∧ Str.collapseSpaces false "Domain-Driven Design" = "Domain-Driven Design"
  ∧ 1 ≤ Str.len "Domain-Driven Design" ≤ 500
  ∧ Title.create "Domain-Driven Design" = Returned "Domain-Driven Design".
Proof.
  apply (title_create_normal_form "  Domain-Driven   Design "). reflexivity.
Defined.

(** ** ISBN: canonical form, formatting, conversion *)

Lemma isIsbnChar_plain (c : ascii) :
  isIsbnChar c = true →
  Str.isSpace c = false ∧ Ascii.eqb c "-"%char = false ∧ Str.toUpperChar c = c.
Proof.
  destruct c as [[] [] [] [] [] [] [] []]; vm_compute; intros H;
    try discriminate H; done.
Qed.

Lemma isDigit_isIsbnChar (c : ascii) : Str.isDigit c = true → isIsbnChar c = true.
Proof. unfold isIsbnChar. by intros ->. Qed.

Lemma toUpperChar_keeps_plain (c : ascii) :
  Str.isSpace c || Ascii.eqb c "-"%char = false →
  Str.isSpace (Str.toUpperChar c) || Ascii.eqb (Str.toUpperChar c) "-"%char = false.
Proof.
  destruct c as [[] [] [] [] [] [] [] []]; vm_compute; intros H;
    try discriminate H; done.
Qed.

Lemma toUpperChar_idempotent (c : ascii) :
  Str.toUpperChar (Str.toUpperChar c) = Str.toUpperChar c.
Proof. destruct c as [[] [] [] [] [] [] [] []]; reflexivity. Qed.

Lemma toUpperCase_idempotent (s : string) :
  Str.toUpperCase (Str.toUpperCase s) = Str.toUpperCase s.
Proof.
  induction s as [|c s IH]; [done|]. cbn [Str.toUpperCase].
  by rewrite toUpperChar_idempotent, IH.
Qed.

Lemma strip_toUpperCase_strip (s : string) :
  Str.stripDashesAndSpaces (Str.toUpperCase (Str.stripDashesAndSpaces s))
  = Str.toUpperCase (Str.stripDashesAndSpaces s).
Proof.
  induction s as [|c s IH]; [done|]. cbn [Str.stripDashesAndSpaces].
  destruct (Str.isSpace c || Ascii.eqb c "-"%char) eqn:E; [done|].
  cbn [Str.toUpperCase Str.stripDashesAndSpaces].
  by rewrite (toUpperChar_keeps_plain c E), IH.
Qed.

Lemma isbn_normalize_idempotent (isbn : string) :
  ISBN.normalize (ISBN.normalize isbn) = ISBN.normalize isbn.
Proof.
  unfold ISBN.normalize. by rewrite strip_toUpperCase_strip, toUpperCase_idempotent.
Qed.

Lemma isbn_normalize_plain (s : string) :
  forallb isIsbnChar (Str.chars s) = true → ISBN.normalize s = s.
Proof.
  unfold ISBN.normalize. induction s as [|c s IH]; [done|].
  cbn [Str.chars forallb]. rewrite andb_true_iff. intros [Hc Hs].
  destruct (isIsbnChar_plain c Hc) as (Hsp & Hd & Hup).
  cbn [Str.stripDashesAndSpaces]. rewrite Hsp, Hd. cbn [orb Str.toUpperCase].
  by rewrite Hup, (IH Hs).
Qed.

(** What [ISBN.create] checks. *)
Lemma isbn_create_inv (isbn value : string) :
  ISBN.create isbn = Returned value →
  value = ISBN.normalize isbn ∧ ISBN.isValid value = true.
Proof.
  unfold ISBN.create.
  destruct (ISBN.isValid (ISBN.normalize isbn)) eqn:E; [|discriminate].
  by intros [= <-].
Qed.

Lemma isbn_create_normalized (isbn value : string) :
  ISBN.normalize isbn = value → ISBN.isValid value = true →
  ISBN.create isbn = Returned value.
Proof. intros <- H. unfold ISBN.create. by rewrite H. Qed.

Lemma length_chars (s : string) : length (Str.chars s) = String.length s.
Proof. induction s as [|c s IH]; [done|]. cbn. by rewrite IH. Qed.

Lemma validateISBN10_chars (s : string) :
  ISBN.validateISBN10 s = true →
  forallb Str.isDigit (take 9 (Str.chars s)) = true
  ∧ forallb isIsbnChar (Str.chars s) = true
  ∧ String.length s = 10%nat.
Proof.
  unfold ISBN.validateISBN10.
  destruct (drop 9 (Str.chars s)) as [|last [|]] eqn:Hd; try discriminate.
  destruct (forallb Str.isDigit (take 9 (Str.chars s))) eqn:Hbody;
    [|discriminate].
  cbn [andb].
  destruct (Str.isDigit last || Ascii.eqb last "X"%char) eqn:Hlast; [|discriminate].
  intros _. split; [done|]. split.
  - rewrite <- (take_drop 9 (Str.chars s)), forallb_app, Hd. cbn.
    unfold isIsbnChar at 2. rewrite Hlast, andb_true_r.
    clear -Hbody. induction (take 9 (Str.chars s)) as [|c l IH]; [done|].
    cbn in *. apply andb_true_iff in Hbody as [Hc Hl].
    by rewrite (isDigit_isIsbnChar c Hc), IH.
  - rewrite <- length_chars.
    apply (f_equal length) in Hd. rewrite length_drop in Hd. cbn in Hd. lia.
Qed.

Lemma validateISBN13_chars (s : string) :
  ISBN.validateISBN13 s = true →
  forallb Str.isDigit (Str.chars s) = true ∧ String.length s = 13%nat.
Proof.
  unfold ISBN.validateISBN13.
  destruct (drop 12 (Str.chars s)) as [|last [|]] eqn:Hd; try discriminate.
  destruct (forallb Str.isDigit (Str.chars s)) eqn:Hall; [|discriminate].
  intros _. split; [done|].
  rewrite <- length_chars.
  apply (f_equal length) in Hd. rewrite length_drop in Hd. cbn in Hd. lia.
Qed.

Lemma forallb_isDigit_isIsbnChar (l : list ascii) :
  forallb Str.isDigit l = true → forallb isIsbnChar l = true.
Proof.
  induction l as [|c l IH]; [done|]. cbn. rewrite !andb_true_iff.
  intros [Hc Hl]. split; [by apply isDigit_isIsbnChar|by apply IH].
Qed.

(** A valid string is a fixed point of the normalization, 10 or 13 long. *)
Lemma isbn_isValid_inv (value : string) :
  ISBN.normalize value = value →
  ISBN.isValid value = true →
  forallb isIsbnChar (Str.chars value) = true
  ∧ ((String.length value = 10%nat ∧ ISBN.validateISBN10 value = true)
     ∨ (String.length value = 13%nat ∧ ISBN.validateISBN13 value = true)).
Proof.
  intros Hnorm. unfold ISBN.isValid. rewrite Hnorm.
  destruct (Str.len value =? 10) eqn:H10.
  - intros Hv. destruct (validateISBN10_chars _ Hv) as (_ & Hall & Hlen). eauto.
  - destruct (Str.len value =? 13) eqn:H13; [|discriminate].
    intros Hv. destruct (validateISBN13_chars _ Hv) as (Hall & Hlen).
    split; [by apply forallb_isDigit_isIsbnChar|]. by right.
Qed.

(** X2. Whatever [ISBN.create] returns is the normalized input: 10 or 13
    code units, each a digit or [X], and creating an ISBN from it again
    returns it unchanged. *)
Theorem isbn_create_canonical (isbn value : string) :
  ISBN.create isbn = Returned value →
  value = ISBN.normalize isbn
  ∧ (Str.len value = 10 ∨ Str.len value = 13)
  ∧ forallb isIsbnChar (Str.chars value) = true
  ∧ ISBN.create value = Returned value.
Proof.
  intros Hc. destruct (isbn_create_inv _ _ Hc) as [Hv Hvalid].
  assert (Hnorm : ISBN.normalize value = value).
  { rewrite Hv. apply isbn_normalize_idempotent. }
  destruct (isbn_isValid_inv _ Hnorm Hvalid) as [Hall Hlen].
  split; [done|]. split; [|split; [done|]].
  - unfold Str.len. destruct Hlen as [[-> _]|[-> _]]; [by left|by right].
  - by apply isbn_create_normalized.
Qed.

Lemma isbn_create_canonical_witness :
  "9780134685991" = ISBN.normalize "978-0-13-468599-1"
  ∧ (Str.len "9780134685991" = 10 ∨ Str.len "9780134685991" = 13)
  ∧ forallb isIsbnChar (Str.chars "9780134685991") = true
  ∧ ISBN.create "9780134685991" = Returned "9780134685991".
Proof. apply (isbn_create_canonical "978-0-13-468599-1"). reflexivity. Defined.

(** A string of known length, code unit by code unit. *)
Lemma string_length_10 (s : string) :
  String.length s = 10%nat →
  ∃ c1 c2 c3 c4 c5 c6 c7 c8 c9 c10,
    s = String c1 (String c2 (String c3 (String c4 (String c5 (String c6
          (String c7 (String c8 (String c9 (String c10 ""))))))))).
Proof.
  intros H.
  do 10 (destruct s as [|? s]; [discriminate H|cbn in H; apply Nat.succ_inj in H]).
  destruct s; [|discriminate H]. by do 10 eexists.
Qed.

Lemma string_length_13 (s : string) :
  String.length s = 13%nat →
  ∃ c1 c2 c3 c4 c5 c6 c7 c8 c9 c10 c11 c12 c13,
    s = String c1 (String c2 (String c3 (String c4 (String c5 (String c6
          (String c7 (String c8 (String c9 (String c10 (String c11
             (String c12 (String c13 "")))))))))))).
Proof.
  intros H.
  do 13 (destruct s as [|? s]; [discriminate H|cbn in H; apply Nat.succ_inj in H]).
  destruct s; [|discriminate H]. by do 13 eexists.
Qed.

Lemma strip_plain (c : ascii) (s : string) :
  isIsbnChar c = true →
  Str.stripDashesAndSpaces (String c s) = String c (Str.stripDashesAndSpaces s).
Proof.
  intros Hc. destruct (isIsbnChar_plain c Hc) as (Hsp & Hd & _).
  cbn [Str.stripDashesAndSpaces]. by rewrite Hsp, Hd.
Qed.

Lemma strip_dash (s : string) :
  Str.stripDashesAndSpaces (String "-" s) = Str.stripDashesAndSpaces s.
Proof. reflexivity. Qed.

Lemma upper_plain (c : ascii) (s : string) :
  isIsbnChar c = true →
  Str.toUpperCase (String c s) = String c (Str.toUpperCase s).
Proof.
  intros Hc. destruct (isIsbnChar_plain c Hc) as (_ & _ & Hup).
  cbn [Str.toUpperCase]. by rewrite Hup.
Qed.

Ltac isbn_chars H :=
  cbn [Str.chars forallb] in H; rewrite ?andb_true_iff in H;
  repeat match type of H with _ ∧ _ => let H1 := fresh "Hc" in destruct H as [H1 H] end.

(** Removing the dashes of the formatted string gives the value back. *)
Lemma isbn_normalize_formatted (value : string) :
  forallb isIsbnChar (Str.chars value) = true →
  (String.length value = 10%nat ∨ String.length value = 13%nat) →
  ISBN.normalize (ISBNMore.formatted value) = value.
Proof.
  intros Hall [Hlen|Hlen].
  - destruct (string_length_10 _ Hlen)
      as (c1 & c2 & c3 & c4 & c5 & c6 & c7 & c8 & c9 & c10 & ->).
    isbn_chars Hall.
    change (ISBNMore.formatted _) with
      (String c1 (String "-" (String c2 (String c3 (String c4 (String "-"
         (String c5 (String c6 (String c7 (String c8 (String c9 (String "-"
            (String c10 "")))))))))))))%char.
    unfold ISBN.normalize.
    repeat ((rewrite strip_plain by done) || rewrite strip_dash).
    repeat (rewrite upper_plain by done). done.
  - destruct (string_length_13 _ Hlen)
      as (c1 & c2 & c3 & c4 & c5 & c6 & c7 & c8 & c9 & c10 & c11 & c12 & c13 & ->).
    isbn_chars Hall.
    change (ISBNMore.formatted _) with
      (String c1 (String c2 (String c3 (String "-" (String c4 (String "-"
         (String c5 (String c6 (String "-" (String c7 (String c8 (String c9
            (String c10 (String c11 (String c12 (String "-"
               (String c13 "")))))))))))))))))%char.
    unfold ISBN.normalize.
    repeat ((rewrite strip_plain by done) || rewrite strip_dash).
    repeat (rewrite upper_plain by done). done.
Qed.

(** X3. Formatting and parsing are inverse on valid ISBNs: for every
    value that [ISBN.create] returns, creating an ISBN from its
    [formatted] text (the value with dashes inserted) returns the same
    value. *)
Theorem isbn_formatted_round_trip (isbn value : string) :
  ISBN.create isbn = Returned value →
  ISBN.create (ISBNMore.formatted value) = Returned value.
Proof.
  intros Hc. destruct (isbn_create_inv _ _ Hc) as [Hv Hvalid].
  assert (Hnorm : ISBN.normalize value = value).
  { rewrite Hv. apply isbn_normalize_idempotent. }
  destruct (isbn_isValid_inv _ Hnorm Hvalid) as [Hall Hlen].
  apply isbn_create_normalized; [|done].
  apply isbn_normalize_formatted; [done|]. destruct Hlen as [[? _]|[? _]]; eauto.
Qed.

Lemma isbn_formatted_round_trip_witness :
  ISBNMore.formatted "0321125215" = "0-321-12521-5"
  ∧ ISBN.create (ISBNMore.formatted "0321125215") = Returned "0321125215".
Proof.
  split; [reflexivity|].
  apply (isbn_formatted_round_trip "0-321-12521-5"). reflexivity.
Defined.

Lemma pretty_digit (k : Z) :
  0 ≤ k < 10 →
  ∃ c, pretty k = String c "" ∧ Str.isDigit c = true ∧ Str.digit c = k.
Proof.
  intros Hk.
  assert (k = 0 ∨ k = 1 ∨ k = 2 ∨ k = 3 ∨ k = 4 ∨ k = 5 ∨ k = 6 ∨ k = 7
          ∨ k = 8 ∨ k = 9) as Hcases by lia.
  destruct Hcases as [->|[->|[->|[->|[->|[->|[->|[->|[->| ->]]]]]]]]];
    eexists; (split; [reflexivity|]); split; reflexivity.
Qed.

(** X4. [toISBN13] of a value that [ISBN.create] returned is a valid
    ISBN-13: it has 13 code units and [ISBN.create] accepts it unchanged.
    For an ISBN-10 its first twelve digits are 978 followed by the first
    nine digits of the value. *)
Theorem isbn_toISBN13_valid (isbn value : string) :
  ISBN.create isbn = Returned value →
  ISBNMore.isISBN13 (ISBNMore.toISBN13 value) = true
  ∧ ISBN.create (ISBNMore.toISBN13 value) = Returned (ISBNMore.toISBN13 value)
  ∧ (ISBNMore.isISBN10 value = true →
     Str.prefix 12 (ISBNMore.toISBN13 value) = "978" +:+ Str.prefix 9 value).
Proof.
  intros Hc. destruct (isbn_create_inv _ _ Hc) as [Hv Hvalid].
  assert (Hnorm : ISBN.normalize value = value).
  { rewrite Hv. apply isbn_normalize_idempotent. }
  destruct (isbn_isValid_inv _ Hnorm Hvalid) as [Hall [[Hlen H10]|[Hlen H13]]].
  - destruct (validateISBN10_chars _ H10) as (Hbody & _ & _).
    destruct (string_length_10 _ Hlen)
      as (c1 & c2 & c3 & c4 & c5 & c6 & c7 & c8 & c9 & c10 & ->).
    cbn [Str.chars take forallb] in Hbody. rewrite ?andb_true_iff in Hbody.
    destruct Hbody as (D1 & D2 & D3 & D4 & D5 & D6 & D7 & D8 & D9 & _).
    unfold ISBNMore.toISBN13.
    change (ISBNMore.isISBN13 (String c1 _)) with false. cbv iota zeta.
    change (Text.slice 0 9 _) with
      (String c1 (String c2 (String c3 (String c4 (String c5 (String c6
         (String c7 (String c8 (String c9 ""))))))))).
    change ("978" +:+ ?s) with (String "9" (String "7" (String "8" s)))%char.
    cbn [Str.chars length forallb Nat.eqb andb].
    change (Str.isDigit "9") with true. change (Str.isDigit "7") with true.
    change (Str.isDigit "8") with true.
    rewrite D1, D2, D3, D4, D5, D6, D7, D8, D9. cbn [andb].
    set (sum := ISBN.weighted13 0 _).
    destruct (pretty_digit ((10 - sum mod 10) mod 10)) as (c & -> & Dc & Hdigit).
    { apply Z.mod_pos_bound. lia. }
    rewrite !app_cons. change ("" +:+ String c "") with (String c "").
    split; [reflexivity|]. split; [|reflexivity].
    apply isbn_create_normalized.
    + apply isbn_normalize_plain. cbn [Str.chars forallb].
      rewrite !isDigit_isIsbnChar by done. reflexivity.
    + unfold ISBN.isValid.
      rewrite isbn_normalize_plain
        by (cbn [Str.chars forallb]; rewrite !isDigit_isIsbnChar by done; reflexivity).
      change (Str.len (String "9" _) =? 10) with false.
      change (Str.len (String "9" _) =? 13) with true. cbv iota.
      unfold ISBN.validateISBN13. cbn [Str.chars drop take forallb].
      change (Str.isDigit "9") with true. change (Str.isDigit "7") with true.
      change (Str.isDigit "8") with true.
      rewrite D1, D2, D3, D4, D5, D6, D7, D8, D9, Dc. cbn [andb].
      fold sum. rewrite Hdigit. apply Z.eqb_refl.
  - destruct (validateISBN13_chars _ H13) as (_ & Hl).
    assert (H : ISBNMore.isISBN13 value = true).
    { unfold ISBNMore.isISBN13, Str.len. rewrite Hl. reflexivity. }
    unfold ISBNMore.toISBN13. rewrite H.
    split; [done|]. split; [by apply isbn_create_normalized|].
    unfold ISBNMore.isISBN10, ISBNMore.isISBN13, Str.len in *. rewrite Hl. discriminate.
Qed.

Lemma isbn_toISBN13_valid_witness :
  ISBNMore.toISBN13 "0321125215" = "9780321125217"
  ∧ ISBNMore.isISBN13 (ISBNMore.toISBN13 "0321125215") = true
  ∧ ISBN.create (ISBNMore.toISBN13 "0321125215")
    = Returned (ISBNMore.toISBN13 "0321125215")
  ∧ (ISBNMore.isISBN10 "0321125215" = true →
     Str.prefix 12 (ISBNMore.toISBN13 "0321125215")
     = "978" +:+ Str.prefix 9 "0321125215").
Proof.
  split; [reflexivity|].
  apply (isbn_toISBN13_valid "0-321-12521-5"). reflexivity.
Defined.

(** *** The check digit catches one wrong digit *)

Lemma digit_range (c : ascii) : Str.isDigit c = true → 0 ≤ Str.digit c ≤ 9.
Proof.
  unfold Str.isDigit, Str.digit. intros H.
  apply andb_true_iff in H as [H1 H2]. apply Nat.leb_le in H1, H2. lia.
Qed.

Lemma digit_inj (c d : ascii) : Str.digit c = Str.digit d → c = d.
Proof.
  unfold Str.digit. intros H.
  assert (nat_of_ascii c = nat_of_ascii d) as Hn by lia.
  apply (f_equal ascii_of_nat) in Hn. by rewrite !ascii_nat_embedding in Hn.
Qed.

Lemma digit_neq (c d : ascii) : d ≠ c → Str.digit d ≠ Str.digit c.
Proof. intros Hne H. by apply Hne, digit_inj. Qed.

Lemma not_X_digit (c : ascii) : Str.isDigit c = true → Ascii.eqb c "X"%char = false.
Proof.
  destruct c as [[] [] [] [] [] [] [] []]; vm_compute; intros H;
    try discriminate H; done.
Qed.

Lemma weighted13_twelve (a1 a2 a3 a4 a5 a6 a7 a8 a9 a10 a11 a12 : ascii) :
  ISBN.weighted13 0 [a1; a2; a3; a4; a5; a6; a7; a8; a9; a10; a11; a12]
  = Str.digit a1 + Str.digit a2 * 3 + Str.digit a3 + Str.digit a4 * 3
    + Str.digit a5 + Str.digit a6 * 3 + Str.digit a7 + Str.digit a8 * 3
    + Str.digit a9 + Str.digit a10 * 3 + Str.digit a11 + Str.digit a12 * 3.
Proof.
  change (ISBN.weighted13 0 _) with
    (Str.digit a1 + (Str.digit a2 * 3 + (Str.digit a3 + (Str.digit a4 * 3
     + (Str.digit a5 + (Str.digit a6 * 3 + (Str.digit a7 + (Str.digit a8 * 3
     + (Str.digit a9 + (Str.digit a10 * 3 + (Str.digit a11
     + (Str.digit a12 * 3 + 0)))))))))))).
  lia.
Qed.

Ltac checksum_differs Hsum :=
  apply Z.eqb_neq; intros Hbad; apply Z.eqb_eq in Hsum;
  rewrite ?weighted13_twelve in Hsum, Hbad;
  cbn [ISBN.weighted10] in Hsum, Hbad;
  Z.div_mod_to_equations; lia.

Lemma validateISBN10_one_wrong_digit (value : string) (i : nat) (c d : ascii) :
  ISBN.validateISBN10 value = true →
  String.get i value = Some c → Str.isDigit d = true → d ≠ c →
  ISBN.validateISBN10 (setChar i d value) = false.
Proof.
  intros H10 Hget Dd Hne.
  destruct (validateISBN10_chars _ H10) as (Hbody & _ & Hlen).
  destruct (string_length_10 _ Hlen)
    as (c1 & c2 & c3 & c4 & c5 & c6 & c7 & c8 & c9 & c10 & ->).
  cbn [Str.chars take forallb] in Hbody. rewrite ?andb_true_iff in Hbody.
  destruct Hbody as (D1 & D2 & D3 & D4 & D5 & D6 & D7 & D8 & D9 & _).
  unfold ISBN.validateISBN10 in H10. cbn [Str.chars take drop forallb] in H10.
  rewrite D1, D2, D3, D4, D5, D6, D7, D8, D9 in H10. cbn [andb] in H10.
  destruct (Str.isDigit c10 || Ascii.eqb c10 "X"%char) eqn:Hlast; [|discriminate].
  pose proof (digit_range _ D1). pose proof (digit_range _ D2).
  pose proof (digit_range _ D3). pose proof (digit_range _ D4).
  pose proof (digit_range _ D5). pose proof (digit_range _ D6).
  pose proof (digit_range _ D7). pose proof (digit_range _ D8).
  pose proof (digit_range _ D9). pose proof (digit_range _ Dd).
  pose proof (digit_neq _ _ Hne) as Hdiff.
  assert (Hcheck : Ascii.eqb c10 "X"%char = false → 0 ≤ Str.digit c10 ≤ 9).
  { intros HX. rewrite HX, orb_false_r in Hlast. by apply digit_range. }
  destruct i as [|[|[|[|[|[|[|[|[|[|i]]]]]]]]]]; [..|by cbn in Hget];
    cbn in Hget; injection Hget as <-;
    unfold ISBN.validateISBN10; cbn [setChar Str.chars take drop forallb];
    rewrite ?D1, ?D2, ?D3, ?D4, ?D5, ?D6, ?D7, ?D8, ?D9, ?Dd, ?Hlast;
    cbn [andb orb].
  1-9: destruct (Ascii.eqb c10 "X"%char);
         [|specialize (Hcheck eq_refl)]; checksum_differs H10.
  rewrite (not_X_digit _ Dd).
  destruct (Ascii.eqb c10 "X"%char) eqn:HX;
    [|specialize (Hcheck eq_refl)]; checksum_differs H10.
Qed.

Lemma validateISBN13_one_wrong_digit (value : string) (i : nat) (c d : ascii) :
  ISBN.validateISBN13 value = true →
  String.get i value = Some c → Str.isDigit d = true → d ≠ c →
  ISBN.validateISBN13 (setChar i d value) = false.
Proof.
  intros H13 Hget Dd Hne.
  destruct (validateISBN13_chars _ H13) as (Hall & Hlen).
  destruct (string_length_13 _ Hlen)
    as (c1 & c2 & c3 & c4 & c5 & c6 & c7 & c8 & c9 & c10 & c11 & c12 & c13 & ->).
  cbn [Str.chars forallb] in Hall. rewrite ?andb_true_iff in Hall.
  destruct Hall
    as (D1 & D2 & D3 & D4 & D5 & D6 & D7 & D8 & D9 & D10 & D11 & D12 & D13 & _).
  unfold ISBN.validateISBN13 in H13. cbn [Str.chars take drop forallb] in H13.
  rewrite D1, D2, D3, D4, D5, D6, D7, D8, D9, D10, D11, D12, D13 in H13.
  cbn [andb] in H13.
  pose proof (digit_range _ D1). pose proof (digit_range _ D2).
  pose proof (digit_range _ D3). pose proof (digit_range _ D4).
  pose proof (digit_range _ D5). pose proof (digit_range _ D6).
  pose proof (digit_range _ D7). pose proof (digit_range _ D8).
  pose proof (digit_range _ D9). pose proof (digit_range _ D10).
  pose proof (digit_range _ D11). pose proof (digit_range _ D12).
  pose proof (digit_range _ D13). pose proof (digit_range _ Dd).
  pose proof (digit_neq _ _ Hne) as Hdiff.
  destruct i as [|[|[|[|[|[|[|[|[|[|[|[|[|i]]]]]]]]]]]]]; [..|by cbn in Hget];
    cbn in Hget; injection Hget as <-;
    unfold ISBN.validateISBN13; cbn [setChar Str.chars take drop forallb];
    rewrite ?D1, ?D2, ?D3, ?D4, ?D5, ?D6, ?D7, ?D8, ?D9, ?D10, ?D11, ?D12,
      ?D13, ?Dd;
    cbn [andb]; checksum_differs H13.
Qed.

Lemma setChar_length (i : nat) (d : ascii) (s : string) :
  String.length (setChar i d s) = String.length s.
Proof.
  revert i. induction s as [|c s IH]; intros [|i]; cbn; [done..|]. by rewrite IH.
Qed.

Lemma setChar_chars (i : nat) (d : ascii) (s : string) :
  forallb isIsbnChar (Str.chars s) = true → isIsbnChar d = true →
  forallb isIsbnChar (Str.chars (setChar i d s)) = true.
Proof.
  intros Hs Hd. revert i Hs. induction s as [|c s IH]; intros [|i]; cbn;
    rewrite ?andb_true_iff; try done.
  - intros [_ Hs]. done.
  - intros [Hc Hs]. split; [done|]. by apply IH.
Qed.

(** X5. The check digit catches one wrong digit: replacing any one code
    unit of a value that [ISBN.create] returned by a different decimal
    digit gives a string that [ISBN.isValid] rejects and on which
    [ISBN.create] throws, for ISBN-10 and ISBN-13 alike. *)
Theorem isbn_detects_one_wrong_digit (isbn value : string) (i : nat) (c d : ascii) :
  ISBN.create isbn = Returned value →
  String.get i value = Some c → Str.isDigit d = true → d ≠ c →
  ISBN.isValid (setChar i d value) = false
  ∧ isThrown (ISBN.create (setChar i d value)) = true.
Proof.
  intros Hc Hget Dd Hne. destruct (isbn_create_inv _ _ Hc) as [Hv Hvalid].
  assert (Hnorm : ISBN.normalize value = value).
  { rewrite Hv. apply isbn_normalize_idempotent. }
  destruct (isbn_isValid_inv _ Hnorm Hvalid) as [Hall Hlen].
  assert (Hnorm' : ISBN.normalize (setChar i d value) = setChar i d value).
  { apply isbn_normalize_plain, setChar_chars; [done|by apply isDigit_isIsbnChar]. }
  assert (Hbad : ISBN.isValid (setChar i d value) = false).
  { unfold ISBN.isValid. rewrite Hnorm'. unfold Str.len. rewrite setChar_length.
    destruct Hlen as [[Hl H10]|[Hl H13]]; rewrite Hl.
    - change (Z.of_nat 10 =? 10) with true. cbv iota.
      by apply (validateISBN10_one_wrong_digit value i c d).
    - change (Z.of_nat 13 =? 10) with false.
      change (Z.of_nat 13 =? 13) with true. cbv iota.
      by apply (validateISBN13_one_wrong_digit value i c d). }
  split; [done|]. unfold ISBN.create. by rewrite Hnorm', Hbad.
Qed.

Lemma isbn_detects_one_wrong_digit_witness :
  setChar 12 "2" "9780134685991" = "9780134685992"
  ∧ ISBN.isValid (setChar 12 "2" "9780134685991") = false
  ∧ isThrown (ISBN.create (setChar 12 "2" "9780134685991")) = true.
Proof.
  split; [reflexivity|].
  apply (isbn_detects_one_wrong_digit "978-0-13-468599-1" "9780134685991" 12 "1" "2");
    [reflexivity | reflexivity | reflexivity | discriminate].
Defined.

(** ** PageCount and Rating: the views agree *)

(** X6. The length views of a page count: [isShortBook] holds exactly
    when the description is "very short" or "short"; [isLongBook] (500
    pages and more) implies the description "long" or "very long", but
    not conversely: from 400 to 499 pages the description is "long" while
    [isLongBook] is false. *)
Theorem pageCount_length_views (value : Z) :
  (PageCountMore.isShortBook value = true
   ↔ PageCountMore.lengthDescription value = "very short"
     ∨ PageCountMore.lengthDescription value = "short")
  ∧ (PageCountMore.isLongBook value = true →
     PageCountMore.lengthDescription value = "long"
     ∨ PageCountMore.lengthDescription value = "very long")
  ∧ (PageCountMore.lengthDescription value = "long"
     ∧ PageCountMore.isLongBook value = false
     ↔ 400 ≤ value < 500).
Proof.
  unfold PageCountMore.isShortBook, PageCountMore.isLongBook,
    PageCountMore.lengthDescription, PageCountMore.LONG_BOOK_THRESHOLD.
  destruct (value <? 100) eqn:H1; [|destruct (value <? 200) eqn:H2;
    [|destruct (value <? 400) eqn:H3; [|destruct (value <? 600) eqn:H4]]];
    (split; [|split]);
    try (split; [intros ?|intros [?|?]]); try intros ?;
    try (split; [intros [? ?]|intros ?]); try discriminate;
    try lia; auto; try (split; [done|lia]).
Qed.

(** X7. For every rating that [Rating.create] returns, [stars] returns
    five symbols, as many black stars as the rating followed by white
    ones, and the description is one of the five named ones, never
    "Unknown"; a rating is not both high and low. A rating above 5, which
    [Rating.fromNumber] lets through, makes [stars] throw. *)
Theorem rating_stars_and_description (rating value : Z) :
  Rating.create rating = Returned value →
  RatingMore.stars value
  = Returned (replicate (Z.to_nat value) BlackStar
              ++ replicate (Z.to_nat (5 - value)) WhiteStar)
  ∧ (∀ l, RatingMore.stars value = Returned l → length l = 5%nat)
  ∧ RatingMore.description value ≠ "Unknown"
  ∧ RatingMore.isHighRating value && RatingMore.isLowRating value = false
  ∧ (∀ v, 5 < v → isThrown (RatingMore.stars (Rating.fromNumber v)) = true).
Proof.
  unfold Rating.create, Rating.MIN_RATING, Rating.MAX_RATING.
  destruct ((rating <? 1) || (rating >? 5)) eqn:Hrange; [discriminate|].
  intros [= <-]. apply orb_false_iff in Hrange as [Hlo Hhi].
  assert (Hstars : RatingMore.stars rating
                   = Returned (replicate (Z.to_nat rating) BlackStar
                               ++ replicate (Z.to_nat (5 - rating)) WhiteStar)).
  { unfold RatingMore.stars, RatingMore.repeat, Rating.MAX_RATING.
    replace (rating <? 0) with false by lia. cbn.
    replace (5 - rating <? 0) with false by lia. done. }
  split; [done|]. split; [|split; [|split]].
  - intros l. rewrite Hstars. intros [= <-].
    rewrite length_app, !length_replicate. lia.
  - assert (rating = 1 ∨ rating = 2 ∨ rating = 3 ∨ rating = 4 ∨ rating = 5)
      as [->|[->|[->|[->| ->]]]] by lia; discriminate.
  - unfold RatingMore.isHighRating, RatingMore.isLowRating. lia.
  - intros v Hv. unfold RatingMore.stars, RatingMore.repeat, Rating.fromNumber,
      Rating.MAX_RATING.
    replace (v <? 0) with false by lia. cbn.
    replace (5 - v <? 0) with true by lia. done.
Qed.

Lemma rating_stars_and_description_witness :
  RatingMore.stars 4
  = Returned (replicate (Z.to_nat 4) BlackStar ++ replicate (Z.to_nat (5 - 4)) WhiteStar)
  ∧ (∀ l, RatingMore.stars 4 = Returned l → length l = 5%nat)
  ∧ RatingMore.description 4 ≠ "Unknown"
  ∧ RatingMore.isHighRating 4 && RatingMore.isLowRating 4 = false
  ∧ (∀ v, 5 < v → isThrown (RatingMore.stars (Rating.fromNumber v)) = true).
Proof. apply (rating_stars_and_description 4 4). reflexivity. Defined.

(** ** Quotes and notes keep their invariants *)

Lemma content_valid (content : string) (limit : Z) :
  Str.isBlank content = false → (Str.len content >? limit) = false →
  negb (bool_decide (Str.trim content = ""))
  && bool_decide (Str.trim (Str.trim content) = Str.trim content)
  && (Str.len (Str.trim content) <=? limit) = true.
Proof.
  intros Hblank Hlen. apply isBlank_false in Hblank.
  rewrite bool_decide_eq_false_2 by done.
  rewrite bool_decide_eq_true_2 by apply trim_idempotent.
  pose proof (trim_len content). cbn. lia.
Qed.

Lemma quote_create_valid bookId content page w q w' :
  Quote.create bookId content page w = (Returned q, w') → quoteValid q = true.
Proof.
  unfold Quote.create, QuoteId.generate. js_unfold.
  destruct (Str.isBlank content) eqn:Hblank; [discriminate|].
  destruct (Str.len content >? 5000) eqn:Hlen; [discriminate|].
  destruct (match page with Some p => p <? 1 | None => false end) eqn:Hpage;
    [discriminate|].
  cbn. intros [= <- <-]. unfold quoteValid. cbn.
  rewrite (content_valid content 5000 Hblank Hlen). cbn.
  destruct page as [p|]; [lia|done].
Qed.

(** X8. Every quote that the class can produce, by [create] and then by
    any sequence of [updateContent] and [updatePage] that return, has a
    content that is trimmed, not empty and at most 5000 code units long,
    and a page that is null or at least 1. *)
Theorem quote_keeps_invariant (q : Quote.t) : QuoteReachable q → quoteValid q = true.
Proof.
  induction 1 as [bookId content page w q w' Hc|content q q' _ IH Hu|page q q' _ IH Hu].
  - by apply (quote_create_valid bookId content page w q w').
  - unfold QuoteMore.updateContent in Hu.
    destruct (Str.isBlank content) eqn:Hblank; [discriminate|].
    destruct (Str.len content >? 5000) eqn:Hlen; [discriminate|].
    injection Hu as <-. unfold quoteValid in *. cbn.
    rewrite (content_valid content 5000 Hblank Hlen). cbn.
    rewrite !andb_true_iff in IH. apply IH.
  - unfold QuoteMore.updatePage in Hu.
    destruct (match page with Some p => p <? 1 | None => false end) eqn:Hpage;
      [discriminate|].
    injection Hu as <-. unfold quoteValid in *. cbn.
    rewrite !andb_true_iff in IH. destruct IH as [[[-> ->] ->] _]. cbn.
    destruct page as [p|]; [lia|done].
Qed.

Lemma quote_keeps_invariant_witness :
  quoteValid
    {| Quote.id := "uuid-0"; Quote.bookId := "uuid-0";
       Quote.content := "Make the implicit explicit"; Quote.page := None;
       Quote.createdAt := 1704067200000 |} = true.
Proof.
  apply quote_keeps_invariant.
  apply (quote_page_updated None
           {| Quote.id := "uuid-0"; Quote.bookId := "uuid-0";
              Quote.content := "Make the implicit explicit"; Quote.page := Some 7;
              Quote.createdAt := 1704067200000 |}); [|reflexivity].
  apply (quote_content_updated " Make the implicit explicit "
           {| Quote.id := "uuid-0"; Quote.bookId := "uuid-0";
              Quote.content := "Make the implicit explicit."; Quote.page := Some 7;
              Quote.createdAt := 1704067200000 |}); [|reflexivity].
  apply (quote_created "uuid-0" "  Make the implicit explicit.  " (Some 7) sampleWorld _
           (Quote.create "uuid-0" "  Make the implicit explicit.  " (Some 7)
              sampleWorld).2).
  reflexivity.
Defined.

Lemma chapter_valid (chapter : option string) :
  match chapter with Some c => Str.len c >? 255 | None => false end = false →
  match Str.trim <$> chapter with
  | Some c => (Str.len c <=? 255) && bool_decide (Str.trim c = c)
  | None => true
  end = true.
Proof.
  destruct chapter as [c|]; [|done]. cbn. intros Hlen.
  rewrite bool_decide_eq_true_2 by apply trim_idempotent.
  pose proof (trim_len c). rewrite andb_true_r. lia.
Qed.

(** X9. Every note that the class can produce, by [create] and then by
    any sequence of [updateContent] and [updateChapter] that return, has
    a content that is trimmed, not empty and at most 10000 code units
    long, and a chapter that is null or trimmed and at most 255 code units
    long. *)
Theorem note_keeps_invariant (n : Note.t) : NoteReachable n → noteValid n = true.
Proof.
  induction 1 as [bookId content chapter w n w' Hc
                 |content n w n' w' _ IH Hu|chapter n w n' w' _ IH Hu].
  - unfold Note.create, NoteId.generate in Hc. js_unfold.
    destruct (Str.isBlank content) eqn:Hblank; [discriminate|].
    destruct (Str.len content >? 10000) eqn:Hlen; [discriminate|].
    destruct (match chapter with Some c => Str.len c >? 255 | None => false end)
      eqn:Hch; [discriminate|].
    cbn in Hc. injection Hc as <- <-. unfold noteValid. cbn.
    rewrite (content_valid content 10000 Hblank Hlen). cbn.
    by apply chapter_valid.
  - unfold Note.updateContent in Hu. js_unfold.
    destruct (Str.isBlank content) eqn:Hblank; [discriminate|].
    destruct (Str.len content >? 10000) eqn:Hlen; [discriminate|].
    cbn in Hu. injection Hu as <- <-. unfold noteValid in *. cbn.
    rewrite (content_valid content 10000 Hblank Hlen). cbn.
    rewrite !andb_true_iff in IH. apply IH.
  - unfold NoteMore.updateChapter in Hu. js_unfold.
    destruct (match chapter with Some c => Str.len c >? 255 | None => false end)
      eqn:Hch; [discriminate|].
    cbn in Hu. injection Hu as <- <-. unfold noteValid in *. cbn.
    rewrite !andb_true_iff in IH. destruct IH as [[[-> ->] ->] _]. cbn.
    by apply chapter_valid.
Qed.

Lemma note_keeps_invariant_witness :
  noteValid
    {| Note.id := "uuid-0"; Note.bookId := "uuid-0";
       Note.content := "Aggregates are boundaries."; Note.chapter := Some "Chapter 7";
       Note.createdAt := 1704067200000; Note.updatedAt := 1704067200001 |} = true.
Proof.
  apply note_keeps_invariant.
  apply (note_chapter_updated (Some " Chapter 7 ")
           {| Note.id := "uuid-0"; Note.bookId := "uuid-0";
              Note.content := "Aggregates are boundaries.";
              Note.chapter := Some "Chapter 6";
              Note.createdAt := 1704067200000; Note.updatedAt := 1704067200000 |}
           (Note.create "uuid-0" " Aggregates are boundaries. " (Some " Chapter 6 ")
              sampleWorld).2 _
           (NoteMore.updateChapter (Some " Chapter 7 ")
              {| Note.id := "uuid-0"; Note.bookId := "uuid-0";
                 Note.content := "Aggregates are boundaries.";
                 Note.chapter := Some "Chapter 6";
                 Note.createdAt := 1704067200000; Note.updatedAt := 1704067200000 |}
              (Note.create "uuid-0" " Aggregates are boundaries. " (Some " Chapter 6 ")
                 sampleWorld).2).2); [|reflexivity].
  apply (note_created "uuid-0" " Aggregates are boundaries. " (Some " Chapter 6 ")
           sampleWorld _
           (Note.create "uuid-0" " Aggregates are boundaries. " (Some " Chapter 6 ")
              sampleWorld).2).
  reflexivity.
Defined.

(** ** Previews *)

Lemma prefix_length (n : nat) (s : string) : (String.length (Str.prefix n s) ≤ n)%nat.
Proof.
  revert s. induction n as [|n IH]; intros [|c s]; cbn; try lia.
  specialize (IH s). lia.
Qed.

Lemma preview_bounded (maxLength : Z) (content : string) :
  let preview :=
    if Str.len content <=? maxLength then content
    else Str.trim (Str.prefix (Z.to_nat maxLength) content) +:+ "..." in
  Str.len preview ≤ Z.max 0 maxLength + 3
  ∧ (Str.len content ≤ maxLength → preview = content)
  ∧ (maxLength < Str.len content →
     preview = Str.trim (Str.prefix (Z.to_nat maxLength) content) +:+ "..."
     ∧ Str.len preview ≤ Str.len content + 3).
Proof.
  cbn zeta. destruct (Str.len content <=? maxLength) eqn:E.
  - split; [lia|]. split; [done|]. lia.
  - pose proof (trim_len (Str.prefix (Z.to_nat maxLength) content)) as Ht.
    pose proof (prefix_length (Z.to_nat maxLength) content) as Hp.
    rewrite len_app. change (Str.len "...") with 3. unfold Str.len in *.
    split; [lia|]. split; [lia|]. intros _. split; [done|]. lia.
Qed.

(** X10. A preview is bounded: [getPreview(maxLength)] of a quote or of a
    note returns the whole content when it has at most [maxLength] code
    units; otherwise it returns the trimmed first [maxLength] code units
    followed by three dots, so never more than [maxLength + 3] code units
    (3 for a negative [maxLength]). *)
Theorem getPreview_bounded (maxLength : Z) (q : Quote.t) (n : Note.t) :
  (Str.len (QuoteMore.getPreview maxLength q) ≤ Z.max 0 maxLength + 3
   ∧ (Str.len (Quote.content q) ≤ maxLength →
      QuoteMore.getPreview maxLength q = Quote.content q)
   ∧ (maxLength < Str.len (Quote.content q) →
      QuoteMore.getPreview maxLength q
      = Str.trim (Str.prefix (Z.to_nat maxLength) (Quote.content q)) +:+ "..."
      ∧ Str.len (QuoteMore.getPreview maxLength q) ≤ Str.len (Quote.content q) + 3))
  ∧ (Str.len (NoteMore.getPreview maxLength n) ≤ Z.max 0 maxLength + 3
     ∧ (Str.len (Note.content n) ≤ maxLength →
        NoteMore.getPreview maxLength n = Note.content n)
     ∧ (maxLength < Str.len (Note.content n) →
        NoteMore.getPreview maxLength n
        = Str.trim (Str.prefix (Z.to_nat maxLength) (Note.content n)) +:+ "..."
        ∧ Str.len (NoteMore.getPreview maxLength n) ≤ Str.len (Note.content n) + 3)).
Proof.
  split.
  - apply (preview_bounded maxLength (Quote.content q)).
  - apply (preview_bounded maxLength (Note.content n)).
Qed.

Example getPreview_cuts_at_a_space :
  QuoteMore.getPreview 12 sampleQuote = "The bounded..."
  ∧ QuoteMore.getPreview 100 sampleQuote = Quote.content sampleQuote.
Proof. split; reflexivity. Qed.

(** ** Code that touches no store *)

Lemma sameStores_refl (w : World) : sameStores w w.
Proof. unfold sameStores. repeat split; lia. Qed.

Lemma sameStores_trans (w1 w2 w3 : World) :
  sameStores w1 w2 → sameStores w2 w3 → sameStores w1 w3.
Proof.
  unfold sameStores.
  intros (-> & -> & -> & -> & -> & ? & ?) (-> & -> & -> & -> & -> & ? & ?).
  repeat split; lia.
Qed.

Lemma keepsStores_ret {A} (a : A) : keepsStores (mret a).
Proof. intros w. apply sameStores_refl. Qed.
Lemma keepsStores_throw {A} (e : JsError) : keepsStores (@throw A e).
Proof. intros w. apply sameStores_refl. Qed.
Lemma keepsStores_call {A} (o : Outcome A) : keepsStores (call o).
Proof. intros w. apply sameStores_refl. Qed.
Lemma keepsStores_newDate : keepsStores newDate.
Proof. intros w. unfold sameStores. cbn. repeat split; lia. Qed.
Lemma keepsStores_uuidv4 : keepsStores uuidv4.
Proof. intros w. unfold sameStores. cbn. repeat split; lia. Qed.
Lemma keepsStores_fullYear d : keepsStores (fullYear d).
Proof. intros w. apply sameStores_refl. Qed.
Lemma keepsStores_getPg : keepsStores getPg.
Proof. intros w. apply sameStores_refl. Qed.
Lemma keepsStores_bind {A B} (m : Js A) (f : A → Js B) :
  keepsStores m → (∀ a, keepsStores (f a)) → keepsStores (m ≫= f).
Proof.
  intros Hm Hf w. rewrite run_bind. specialize (Hm w).
  destruct (m w) as [[a|e] w1]; cbn in *; [|done].
  eapply sameStores_trans; [exact Hm|apply Hf].
Qed.

Create HintDb stores.
#[local] Hint Resolve keepsStores_ret keepsStores_throw keepsStores_call
  keepsStores_newDate keepsStores_uuidv4 keepsStores_fullYear keepsStores_getPg
  : stores.

Ltac stores_step :=
  match goal with
  | |- keepsStores (_ ≫= _) => apply keepsStores_bind; [|intros ?]
  | |- keepsStores (match ?x with _ => _ end) => destruct x
  | |- keepsStores (let '(_, _) := ?x in _) => destruct x
  | |- keepsStores _ => solve [auto with stores]
  end.
Ltac solve_stores := repeat stores_step.

Lemma keepsStores_validateYearRead y : keepsStores (Book.validateYearRead y).
Proof. unfold Book.validateYearRead. solve_stores. Qed.
Lemma keepsStores_newDomainEvent n p : keepsStores (newDomainEvent n p).
Proof. unfold newDomainEvent. solve_stores. Qed.
Lemma keepsStores_Quote_create a b c : keepsStores (Quote.create a b c).
Proof. unfold Quote.create, QuoteId.generate. solve_stores. Qed.
Lemma keepsStores_Note_create a b c : keepsStores (Note.create a b c).
Proof. unfold Note.create, NoteId.generate. solve_stores. Qed.
#[local] Hint Resolve keepsStores_validateYearRead keepsStores_newDomainEvent
  keepsStores_Quote_create keepsStores_Note_create : stores.

Lemma keepsStores_create props : keepsStores (Book.create props).
Proof. unfold Book.create, BookId.generate. solve_stores. Qed.
Lemma keepsStores_updateDetails c b : keepsStores (Book.updateDetails c b).
Proof.
  unfold Book.updateDetails, Book.updateTitle, Book.updatePageCount,
    Book.updateYearRead, Book.updateRating, Book.updateCoverUrl.
  solve_stores.
Qed.
Lemma keepsStores_changeStatus s b : keepsStores (Book.changeStatus s b).
Proof. unfold Book.changeStatus. solve_stores. Qed.
Lemma keepsStores_markAsFinished y r b : keepsStores (Book.markAsFinished y r b).
Proof. unfold Book.markAsFinished. solve_stores. Qed.
Lemma keepsStores_addQuote c p b : keepsStores (Book.addQuote c p b).
Proof. unfold Book.addQuote. solve_stores. Qed.
Lemma keepsStores_addNote c p b : keepsStores (Book.addNote c p b).
Proof. unfold Book.addNote. solve_stores. Qed.
Lemma keepsStores_removeQuote i b : keepsStores (BookMore.removeQuote i b).
Proof. unfold BookMore.removeQuote. solve_stores. Qed.
Lemma keepsStores_removeNote i b : keepsStores (BookMore.removeNote i b).
Proof. unfold BookMore.removeNote. solve_stores. Qed.
Lemma keepsStores_markAsDeleted b : keepsStores (Book.markAsDeleted b).
Proof. unfold Book.markAsDeleted. solve_stores. Qed.
Lemma keepsStores_findById id : keepsStores (PostgresBookRepository.findById id).
Proof. unfold PostgresBookRepository.findById. solve_stores. Qed.
Lemma keepsStores_findByIsbn i : keepsStores (PostgresBookRepository.findByIsbn i).
Proof. unfold PostgresBookRepository.findByIsbn. solve_stores. Qed.
#[local] Hint Resolve keepsStores_create keepsStores_updateDetails
  keepsStores_changeStatus keepsStores_markAsFinished keepsStores_addQuote
  keepsStores_addNote keepsStores_removeQuote keepsStores_removeNote
  keepsStores_markAsDeleted keepsStores_findById keepsStores_findByIsbn : stores.
Lemma keepsStores_loadBook id : keepsStores (loadBook id).
Proof. unfold loadBook. solve_stores. Qed.
Lemma keepsStores_runCommand c b : keepsStores (runCommand c b).
Proof. destruct c; cbn [runCommand]; solve_stores. Qed.

(** ** The aggregate: removal of quotes and notes *)

Lemma list_find_split {A} (P : A → Prop) `{∀ x, Decision (P x)} (l : list A)
    (i : nat) (x : A) :
  list_find P l = Some (i, x) →
  ∃ l1 l2, l = l1 ++ x :: l2 ∧ delete i l = l1 ++ l2 ∧ P x ∧ Forall (fun y => ¬ P y) l1.
Proof.
  intros Hfind. apply list_find_Some in Hfind as (Hi & HP & Hbefore).
  exists (take i l), (drop (S i) l). split; [|split; [|split]].
  - by rewrite take_drop_middle.
  - apply delete_take_drop.
  - done.
  - apply Forall_forall. intros y Hy. apply list_elem_of_lookup in Hy as [j Hj].
    pose proof (lookup_lt_Some _ _ _ Hj) as Hlt. rewrite length_take in Hlt.
    rewrite lookup_take_lt in Hj by lia. apply (Hbefore j y Hj). lia.
Qed.

Lemma removeQuote_found (quoteId : string) (b : Book.t) (w : World) :
  quoteId ∈ Quote.id <$> Book.quotes b →
  ∃ l1 q l2,
    Book.quotes b = l1 ++ q :: l2
    ∧ Quote.id q = quoteId
    ∧ (quoteId ∉ Quote.id <$> l1)
    ∧ BookMore.removeQuote quoteId b w
      = (Returned (Book.set_updatedAt (clock (host w) (clockReads w))
                     (Book.set_quotes (l1 ++ l2) b)),
         (newDate w).2).
Proof.
  intros Hin. apply list_elem_of_fmap in Hin as (q0 & Hid & Hq0).
  destruct (list_find_elem_of (fun q => Quote.id q = quoteId) _ q0 Hq0 (eq_sym Hid))
    as [[i q] Hfind].
  destruct (list_find_split _ _ _ _ Hfind) as (l1 & l2 & Hl & Hdel & Hq & Hl1).
  exists l1, q, l2. split; [done|]. split; [done|]. split.
  - intros Hin. apply list_elem_of_fmap in Hin as (y & Hy & Hyin).
    rewrite Forall_forall in Hl1. by apply (Hl1 y Hyin).
  - unfold BookMore.removeQuote. rewrite Hfind, Hdel. reflexivity.
Qed.

Lemma removeNote_found (noteId : string) (b : Book.t) (w : World) :
  noteId ∈ Note.id <$> Book.notes b →
  ∃ l1 n l2,
    Book.notes b = l1 ++ n :: l2
    ∧ Note.id n = noteId
    ∧ (noteId ∉ Note.id <$> l1)
    ∧ BookMore.removeNote noteId b w
      = (Returned (Book.set_updatedAt (clock (host w) (clockReads w))
                     (Book.set_notes (l1 ++ l2) b)),
         (newDate w).2).
Proof.
  intros Hin. apply list_elem_of_fmap in Hin as (n0 & Hid & Hn0).
  destruct (list_find_elem_of (fun n => Note.id n = noteId) _ n0 Hn0 (eq_sym Hid))
    as [[i n] Hfind].
  destruct (list_find_split _ _ _ _ Hfind) as (l1 & l2 & Hl & Hdel & Hn & Hl1).
  exists l1, n, l2. split; [done|]. split; [done|]. split.
  - intros Hin. apply list_elem_of_fmap in Hin as (y & Hy & Hyin).
    rewrite Forall_forall in Hl1. by apply (Hl1 y Hyin).
  - unfold BookMore.removeNote. rewrite Hfind, Hdel. reflexivity.
Qed.

Lemma removeQuote_missing (quoteId : string) (b : Book.t) (w : World) :
  quoteId ∉ Quote.id <$> Book.quotes b →
  BookMore.removeQuote quoteId b w
  = (Thrown (DomainException "Quote not found" "QUOTE_NOT_FOUND"), w).
Proof.
  intros Hout. unfold BookMore.removeQuote.
  destruct (list_find _ _) as [[i q]|] eqn:Hfind; [|done].
  apply list_find_Some in Hfind as (Hi & Hq & _). exfalso. apply Hout.
  apply list_elem_of_fmap. exists q. split; [done|]. by eapply list_elem_of_lookup_2.
Qed.

Lemma removeNote_missing (noteId : string) (b : Book.t) (w : World) :
  noteId ∉ Note.id <$> Book.notes b →
  BookMore.removeNote noteId b w
  = (Thrown (DomainException "Note not found" "NOTE_NOT_FOUND"), w).
Proof.
  intros Hout. unfold BookMore.removeNote.
  destruct (list_find _ _) as [[i n]|] eqn:Hfind; [|done].
  apply list_find_Some in Hfind as (Hi & Hn & _). exfalso. apply Hout.
  apply list_elem_of_fmap. exists n. split; [done|]. by eapply list_elem_of_lookup_2.
Qed.

(** X11. [removeQuote] and [removeNote] remove the first child with the
    given id and nothing else: the other children keep their order, the
    only other change is [updatedAt], set to the clock, and no event is
    added to the outbox. With no child of that id they throw a
    DomainException (QUOTE_NOT_FOUND, NOTE_NOT_FOUND) before touching
    anything. *)
Theorem remove_child_removes_first_match (id : string) (b : Book.t) (w : World) :
  ((id ∉ (Quote.id <$> Book.quotes b)) →
   BookMore.removeQuote id b w
   = (Thrown (DomainException "Quote not found" "QUOTE_NOT_FOUND"), w))
  ∧ ((id ∈ (Quote.id <$> Book.quotes b)) →
     ∃ l1 q l2,
       Book.quotes b = l1 ++ q :: l2
       ∧ Quote.id q = id
       ∧ (id ∉ Quote.id <$> l1)
       ∧ BookMore.removeQuote id b w
         = (Returned (Book.set_updatedAt (clock (host w) (clockReads w))
                        (Book.set_quotes (l1 ++ l2) b)),
            (newDate w).2))
  ∧ ((id ∉ (Note.id <$> Book.notes b)) →
     BookMore.removeNote id b w
     = (Thrown (DomainException "Note not found" "NOTE_NOT_FOUND"), w))
  ∧ ((id ∈ (Note.id <$> Book.notes b)) →
     ∃ l1 n l2,
       Book.notes b = l1 ++ n :: l2
       ∧ Note.id n = id
       ∧ (id ∉ Note.id <$> l1)
       ∧ BookMore.removeNote id b w
         = (Returned (Book.set_updatedAt (clock (host w) (clockReads w))
                        (Book.set_notes (l1 ++ l2) b)),
            (newDate w).2)).
Proof.
  split; [apply removeQuote_missing|]. split; [apply removeQuote_found|].
  split; [apply removeNote_missing|apply removeNote_found].
Qed.

Example removeQuote_of_annotatedBook :
  Quote.id <$> Book.quotes annotatedBook = ["uuid-2"; "uuid-4"]
  ∧ (∃ b' w',
       BookMore.removeQuote "uuid-2" annotatedBook sampleWorld = (Returned b', w')
       ∧ Quote.id <$> Book.quotes b' = ["uuid-4"]
       ∧ Book.domainEvents b' = [])
  ∧ isThrown (BookMore.removeQuote "uuid-9" annotatedBook sampleWorld).1 = true.
Proof.
  split; [reflexivity|]. split; [|reflexivity]. vm_compute. do 2 eexists. repeat split.
Qed.

(** ** The aggregate: what the commands keep *)

Lemma updateDetails_frame (c : Book.DetailChanges) (b b' : Book.t) (w w' : World) :
  Book.updateDetails c b w = (Returned b', w') →
  keepsIdentity b b'
  ∧ Book.status b' = Book.status b
  ∧ Book.quotes b' = Book.quotes b
  ∧ Book.notes b' = Book.notes b
  ∧ ∃ es, Book.domainEvents b' = Book.domainEvents b ++ es ∧ (length es ≤ 1)%nat.
Proof.
  unfold Book.updateDetails. rewrite run_bind.
  destruct (Book.updateTitle _ _ w) as [[[b1 ch1]|e1] w1] eqn:H1; [|discriminate].
  rewrite run_bind.
  destruct (Book.updatePageCount _ _ w1) as [[[b2 ch2]|e2] w2] eqn:H2; [|discriminate].
  rewrite run_bind.
  destruct (Book.updateYearRead _ _ w2) as [[[b3 ch3]|e3] w3] eqn:H3; [|discriminate].
  rewrite run_bind.
  destruct (Book.updateRating _ _ w3) as [[[b4 ch4]|e4] w4] eqn:H4; [|discriminate].
  rewrite run_bind.
  destruct (Book.updateCoverUrl _ _ w4) as [[[b5 ch5]|e5] w5] eqn:H5; [|discriminate].
  apply updateTitle_shape in H1. apply updatePageCount_shape in H2.
  apply updateYearRead_shape in H3. apply updateRating_shape in H4.
  apply updateCoverUrl_shape in H5.
  assert (Hset : keepsIdentity b b5 ∧ Book.status b5 = Book.status b
                 ∧ Book.quotes b5 = Book.quotes b ∧ Book.notes b5 = Book.notes b
                 ∧ Book.domainEvents b5 = Book.domainEvents b).
  { unfold keepsIdentity.
    destruct H1 as [[-> ->]|(v1 & _ & -> & ->)];
    destruct H2 as [[-> ->]|(v2 & _ & -> & ->)];
    destruct H3 as [[-> ->]|(v3 & _ & -> & ->)];
    destruct H4 as [[-> ->]|(v4 & _ & -> & ->)];
    destruct H5 as [[-> ->]|(v5 & _ & -> & ->)];
    repeat split. }
  destruct Hset as ((Hid & Ha & Hi & Hc & Hv) & Hs & Hq & Hn & Hev).
  unfold newDomainEvent, keepsIdentity. js_unfold.
  destruct (0 <? BookUpdatedEvent.keysLength ch5)%nat;
    intros Hrun; cbn in Hrun; injection Hrun as <- <-; cbn.
  - repeat split; try done. eexists [_]. rewrite Hev. split; [done|cbn; lia].
  - repeat split; try done. exists []. rewrite app_nil_r. split; [done|cbn; lia].
Qed.

Lemma changeStatus_frame (s : ReadingStatus) (b b' : Book.t) (w w' : World) :
  Book.changeStatus s b w = (Returned b', w') →
  keepsIdentity b b'
  ∧ Book.quotes b' = Book.quotes b
  ∧ Book.notes b' = Book.notes b
  ∧ (∃ es, Book.domainEvents b' = Book.domainEvents b ++ es ∧ (length es ≤ 1)%nat)
  ∧ (finishedHasYear b = true → finishedHasYear b' = true).
Proof.
  unfold Book.changeStatus, newDomainEvent, keepsIdentity, finishedHasYear. js_unfold.
  case_bool_decide as Hsame.
  { intros [= <- <-]. repeat split; try done. exists []. rewrite app_nil_r. split; [done|cbn; lia]. }
  destruct (negb _); [discriminate|]. cbn.
  case_bool_decide as Hfin; cbn; intros [= <- <-]; cbn;
    (repeat split; try done; [eexists [_]; split; [done|cbn; lia]|]); intros _.
  - apply orb_true_r.
  - destruct (decide (s = FINISHED)) as [->|Hs].
    + destruct (Book.yearRead b) as [y|] eqn:Hy.
      * rewrite (bool_decide_eq_true_2 (is_Some _)) by eauto. apply orb_true_r.
      * exfalso. by apply Hfin.
    + by rewrite bool_decide_eq_false_2.
Qed.

Lemma markAsFinished_frame (y : Z) (r : option Z) (b b' : Book.t) (w w' : World) :
  Book.markAsFinished y r b w = (Returned b', w') →
  keepsIdentity b b'
  ∧ Book.quotes b' = Book.quotes b
  ∧ Book.notes b' = Book.notes b
  ∧ (∃ es, Book.domainEvents b' = Book.domainEvents b ++ es ∧ (length es ≤ 1)%nat)
  ∧ finishedHasYear b' = true.
Proof.
  unfold Book.markAsFinished, Book.validateYearRead, newDomainEvent, keepsIdentity,
    finishedHasYear.
  js_unfold. cbn.
  destruct (_ || _); [discriminate|]. cbn.
  destruct r as [r|]; cbn.
  - destruct (Rating.create r); cbn; [|discriminate].
    intros [= <- <-]; cbn. repeat split; try done. eexists [_]; split; [done|cbn; lia].
  - intros [= <- <-]; cbn. repeat split; try done. eexists [_]; split; [done|cbn; lia].
Qed.

Lemma addQuote_shape (content : string) (page : option Z) (b : Book.t) (w : World)
    (q : Quote.t) (b' : Book.t) (w' : World) :
  Book.addQuote content page b w = (Returned (q, b'), w') →
  ∃ e,
    b' = Book.addDomainEvent e
           (Book.set_updatedAt (Book.updatedAt b') (Book.set_quotes (Book.quotes b ++ [q]) b))
    ∧ Quote.bookId q = Book.id b
    ∧ Quote.content q = Str.trim content
    ∧ Quote.page q = page
    ∧ Quote.id q = uuid (host w) (uuidDraws w)
    ∧ eventName e = QuoteAddedEvent.EVENT_NAME
    ∧ payload e = QuoteAdded {| QuoteAddedEvent.bookId := Book.id b;
                                QuoteAddedEvent.quoteId := Quote.id q;
                                QuoteAddedEvent.content := Quote.content q;
                                QuoteAddedEvent.page := Quote.page q |}.
Proof.
  unfold Book.addQuote, Quote.create, QuoteId.generate, newDomainEvent. js_unfold.
  destruct (Str.isBlank content); [discriminate|].
  destruct (Str.len content >? 5000); [discriminate|].
  destruct (match page with Some p => p <? 1 | None => false end); [discriminate|].
  cbn. intros [= <- <- <-]. eexists. repeat split.
Qed.

Lemma addNote_shape (content : string) (chapter : option string) (b : Book.t)
    (w : World) (n : Note.t) (b' : Book.t) (w' : World) :
  Book.addNote content chapter b w = (Returned (n, b'), w') →
  b' = Book.set_updatedAt (Book.updatedAt b') (Book.set_notes (Book.notes b ++ [n]) b)
  ∧ Note.bookId n = Book.id b
  ∧ Note.content n = Str.trim content
  ∧ Note.chapter n = (Str.trim <$> chapter).
Proof.
  unfold Book.addNote, Note.create, NoteId.generate. js_unfold.
  destruct (Str.isBlank content); [discriminate|].
  destruct (Str.len content >? 10000); [discriminate|].
  destruct (match chapter with Some c => Str.len c >? 255 | None => false end);
    [discriminate|].
  cbn. intros [= <- <- <-]. repeat split.
Qed.

(** X12. No command of the aggregate changes its id, its author, its
    ISBN, its creation date or its version, and none touches a store:
    whenever [updateDetails], [changeStatus], [markAsFinished], [addQuote],
    [removeQuote], [addNote], [removeNote] or [markAsDeleted] returns,
    these five fields are as before, the outbox is the old one with at
    most one event appended, and the world differs only in the counters of
    clock readings and UUIDs. *)
Theorem commands_keep_identity (c : BookCommand) (b b' : Book.t) (w w' : World) :
  runCommand c b w = (Returned b', w') →
  keepsIdentity b b'
  ∧ (∃ es, Book.domainEvents b' = Book.domainEvents b ++ es ∧ (length es ≤ 1)%nat)
  ∧ sameStores w w'.
Proof.
  intros Hrun.
  assert (Hstores : sameStores w w').
  { pose proof (keepsStores_runCommand c b w) as H. by rewrite Hrun in H. }
  split; [|split; [|done]]; destruct c as [ch|s|y r|content page|qid|content chapter|nid|];
    cbn [runCommand] in Hrun.
  - by apply updateDetails_frame in Hrun as (? & _).
  - by apply changeStatus_frame in Hrun as (? & _).
  - by apply markAsFinished_frame in Hrun as (? & _).
  - rewrite run_bind in Hrun.
    destruct (Book.addQuote _ _ _ _) as [[[q b1]|e] w1] eqn:Hadd; [|discriminate].
    injection Hrun as <- <-. apply addQuote_shape in Hadd as (e & -> & _).
    by unfold keepsIdentity.
  - destruct (decide (qid ∈ Quote.id <$> Book.quotes b)) as [Hin|Hout].
    + destruct (removeQuote_found qid b w Hin) as (l1 & q & l2 & _ & _ & _ & Heq).
      rewrite Heq in Hrun. injection Hrun as <- <-. by unfold keepsIdentity.
    + rewrite removeQuote_missing in Hrun by done. discriminate.
  - rewrite run_bind in Hrun.
    destruct (Book.addNote _ _ _ _) as [[[n b1]|e] w1] eqn:Hadd; [|discriminate].
    injection Hrun as <- <-. apply addNote_shape in Hadd as (-> & _).
    by unfold keepsIdentity.
  - destruct (decide (nid ∈ Note.id <$> Book.notes b)) as [Hin|Hout].
    + destruct (removeNote_found nid b w Hin) as (l1 & n & l2 & _ & _ & _ & Heq).
      rewrite Heq in Hrun. injection Hrun as <- <-. by unfold keepsIdentity.
    + rewrite removeNote_missing in Hrun by done. discriminate.
  - unfold Book.markAsDeleted, newDomainEvent in Hrun. js_unfold. cbn in Hrun.
    injection Hrun as <- <-. by unfold keepsIdentity.
  - by apply updateDetails_frame in Hrun as (_ & _ & _ & _ & ?).
  - by apply changeStatus_frame in Hrun as (_ & _ & _ & ? & _).
  - by apply markAsFinished_frame in Hrun as (_ & _ & _ & ? & _).
  - rewrite run_bind in Hrun.
    destruct (Book.addQuote _ _ _ _) as [[[q b1]|e] w1] eqn:Hadd; [|discriminate].
    injection Hrun as <- <-. apply addQuote_shape in Hadd as (e & -> & _).
    eexists [_]; split; [done|cbn; lia].
  - destruct (decide (qid ∈ Quote.id <$> Book.quotes b)) as [Hin|Hout].
    + destruct (removeQuote_found qid b w Hin) as (l1 & q & l2 & _ & _ & _ & Heq).
      rewrite Heq in Hrun. injection Hrun as <- <-. exists []. rewrite app_nil_r. split; [done|cbn; lia].
    + rewrite removeQuote_missing in Hrun by done. discriminate.
  - rewrite run_bind in Hrun.
    destruct (Book.addNote _ _ _ _) as [[[n b1]|e] w1] eqn:Hadd; [|discriminate].
    injection Hrun as <- <-. apply addNote_shape in Hadd as (-> & _).
    exists []. rewrite app_nil_r. split; [done|cbn; lia].
  - destruct (decide (nid ∈ Note.id <$> Book.notes b)) as [Hin|Hout].
    + destruct (removeNote_found nid b w Hin) as (l1 & n & l2 & _ & _ & _ & Heq).
      rewrite Heq in Hrun. injection Hrun as <- <-. exists []. rewrite app_nil_r. split; [done|cbn; lia].
    + rewrite removeNote_missing in Hrun by done. discriminate.
  - unfold Book.markAsDeleted, newDomainEvent in Hrun. js_unfold. cbn in Hrun.
    injection Hrun as <- <-. eexists [_]; split; [done|cbn; lia].
Qed.

Lemma commands_keep_identity_witness :
  ∃ b' w',
    runCommand (AddQuote "Make the implicit explicit." (Some 42)) sampleBook sampleWorld
    = (Returned b', w')
    ∧ keepsIdentity sampleBook b'
    ∧ (∃ es, Book.domainEvents b' = Book.domainEvents sampleBook ++ es
             ∧ (length es ≤ 1)%nat)
    ∧ sameStores sampleWorld w'.
Proof.
  destruct (runCommand (AddQuote "Make the implicit explicit." (Some 42))
              sampleBook sampleWorld) as [[b'|e] w'] eqn:Hrun.
  - exists b', w'. split; [done|]. exact (commands_keep_identity _ _ _ _ _ Hrun).
  - vm_compute in Hrun. discriminate.
Defined.

(** ** The aggregate: a finished book and the year it was read *)

Lemma create_finishedHasYear (props : Book.CreateBookProps) (w w' : World) (b : Book.t) :
  Book.create props w = (Returned b, w') → finishedHasYear b = true.
Proof.
  unfold Book.create, BookId.generate, Book.validateYearRead, newDomainEvent,
    finishedHasYear.
  js_unfold. cbn.
  destruct (Title.create _); [|discriminate].
  destruct (PageCount.create _); [|discriminate].
  destruct (orNull ISBN.create _); [|discriminate].
  destruct (orNull Rating.create _); [|discriminate].
  destruct (Str.isBlank _); [discriminate|].
  destruct (Book.p_yearRead props) as [y|]; cbn.
  - destruct (_ || _); [discriminate|]. cbn.
    rewrite bool_decide_eq_false_2 by (intros [_ ?]; discriminate).
    intros [= <- <-]. cbn. apply orb_true_r.
  - case_bool_decide as Hfin; [discriminate|]. intros [= <- <-]. cbn.
    rewrite bool_decide_eq_false_2; [done|]. intros Hs. by apply Hfin.
Qed.

Lemma command_finishedHasYear (c : BookCommand) (b b' : Book.t) (w w' : World) :
  isUpdateDetails c = false →
  finishedHasYear b = true →
  runCommand c b w = (Returned b', w') →
  finishedHasYear b' = true.
Proof.
  intros Hc Hb Hrun.
  destruct c as [ch|s|y r|content page|qid|content chapter|nid|];
    cbn [runCommand] in Hrun; [discriminate|..].
  - apply changeStatus_frame in Hrun as (_ & _ & _ & _ & Hkeep). by apply Hkeep.
  - by apply markAsFinished_frame in Hrun as (_ & _ & _ & _ & ?).
  - rewrite run_bind in Hrun.
    destruct (Book.addQuote _ _ _ _) as [[[q b1]|e] w1] eqn:Hadd; [|discriminate].
    injection Hrun as <- <-. by apply addQuote_shape in Hadd as (e & -> & _).
  - destruct (decide (qid ∈ Quote.id <$> Book.quotes b)) as [Hin|Hout].
    + destruct (removeQuote_found qid b w Hin) as (l1 & q & l2 & _ & _ & _ & Heq).
      rewrite Heq in Hrun. by injection Hrun as <- <-.
    + rewrite removeQuote_missing in Hrun by done. discriminate.
  - rewrite run_bind in Hrun.
    destruct (Book.addNote _ _ _ _) as [[[n b1]|e] w1] eqn:Hadd; [|discriminate].
    injection Hrun as <- <-. by apply addNote_shape in Hadd as (-> & _).
  - destruct (decide (nid ∈ Note.id <$> Book.notes b)) as [Hin|Hout].
    + destruct (removeNote_found nid b w Hin) as (l1 & n & l2 & _ & _ & _ & Heq).
      rewrite Heq in Hrun. by injection Hrun as <- <-.
    + rewrite removeNote_missing in Hrun by done. discriminate.
  - unfold Book.markAsDeleted, newDomainEvent in Hrun. js_unfold. cbn in Hrun.
    by injection Hrun as <- <-.
Qed.

(** X13. A finished book has its year: every aggregate [Book.create]
    returns with status FINISHED has a [yearRead], and [changeStatus],
    [markAsFinished], [addQuote], [removeQuote], [addNote], [removeNote]
    and [markAsDeleted] all keep it so (every command but
    [updateDetails]). *)
Theorem finished_book_has_year :
  (∀ props w b w',
     Book.create props w = (Returned b, w') → finishedHasYear b = true)
  ∧ (∀ c b b' w w',
       isUpdateDetails c = false →
       finishedHasYear b = true →
       runCommand c b w = (Returned b', w') →
       finishedHasYear b' = true).
Proof.
  split.
  - intros props w b w'. apply create_finishedHasYear.
  - intros c b b' w w'. apply command_finishedHasYear.
Qed.

(** [changeStatus(FINISHED)] on a book without a year fills in the year of
    the clock. *)
Example changeStatus_finished_fills_year :
  ∃ b' w',
    Book.changeStatus FINISHED sampleBook sampleWorld = (Returned b', w')
    ∧ Book.status b' = FINISHED
    ∧ Book.yearRead b' = Some 2024.
Proof. vm_compute. do 2 eexists. repeat split. Qed.

(** X14. [updateDetails] is the one command that can take the year away
    from a finished book: [updateDetails({ yearRead: null })] on a book
    that is FINISHED and has a year returns, leaves the status FINISHED,
    sets [yearRead] to null and raises one update event whose change-set
    is [{ yearRead: null }]. *)
Theorem updateDetails_clears_year_of_finished_book (b : Book.t) (w : World) :
  Book.status b = FINISHED →
  is_Some (Book.yearRead b) →
  ∃ b' w' e,
    Book.updateDetails nullYearRead b w = (Returned b', w')
    ∧ Book.status b' = FINISHED
    ∧ Book.yearRead b' = None
    ∧ finishedHasYear b' = false
    ∧ Book.domainEvents b' = Book.domainEvents b ++ [e]
    ∧ eventName e = BookUpdatedEvent.EVENT_NAME
    ∧ payload e =
        BookUpdated
          {| BookUpdatedEvent.bookId := Book.id b;
             BookUpdatedEvent.changes :=
               BookUpdatedEvent.put_yearRead None BookUpdatedEvent.noChanges;
             BookUpdatedEvent.updatedAt := Book.updatedAt b' |}.
Proof.
  intros Hs [y Hy].
  unfold Book.updateDetails, Book.updateTitle, Book.updatePageCount,
    Book.updateYearRead, Book.updateRating, Book.updateCoverUrl, newDomainEvent,
    nullYearRead, finishedHasYear.
  js_unfold. cbn.
  rewrite bool_decide_eq_true_2 by (rewrite Hy; discriminate). cbn.
  do 3 eexists. split; [reflexivity|]. cbn. rewrite Hs.
  rewrite bool_decide_eq_true_2 by done. cbn. repeat split.
Qed.

Lemma updateDetails_clears_year_of_finished_book_witness :
  ∃ b' w' e,
    Book.updateDetails nullYearRead finishedBook sampleWorld = (Returned b', w')
    ∧ Book.status b' = FINISHED
    ∧ Book.yearRead b' = None
    ∧ finishedHasYear b' = false
    ∧ Book.domainEvents b' = Book.domainEvents finishedBook ++ [e]
    ∧ eventName e = BookUpdatedEvent.EVENT_NAME
    ∧ payload e =
        BookUpdated
          {| BookUpdatedEvent.bookId := Book.id finishedBook;
             BookUpdatedEvent.changes :=
               BookUpdatedEvent.put_yearRead None BookUpdatedEvent.noChanges;
             BookUpdatedEvent.updatedAt := Book.updatedAt b' |}.
Proof.
  apply (updateDetails_clears_year_of_finished_book finishedBook sampleWorld).
  - reflexivity.
  - by exists 2023.
Defined.

(** ** The aggregate: adding a child, then removing it *)

Lemma list_find_last {A} (P : A → Prop) `{∀ x, Decision (P x)} (l : list A) (x : A) :
  Forall (fun y => ¬ P y) l → P x →
  list_find P (l ++ [x]) = Some (length l, x).
Proof.
  intros Hl Hx. rewrite list_find_app_r by by apply list_find_None.
  cbn. rewrite decide_True by done. cbn. do 2 f_equal; lia.
Qed.

Lemma delete_last {A} (l : list A) (x : A) : delete (length l) (l ++ [x]) = l.
Proof. induction l as [|y l IH]; [done|]. cbn. f_equal. exact IH. Qed.

Lemma fresh_id_Forall {A} (key : A → string) (k : string) (l : list A) :
  (k ∉ key <$> l) → Forall (fun y => ¬ key y = k) l.
Proof.
  intros Hout. apply Forall_forall. intros y Hy Hk. apply Hout.
  apply list_elem_of_fmap. by exists y.
Qed.

(** X15. Removing a quote raises no event. When [addQuote] returns a
    quote whose id no older quote of the book has, [removeQuote] of that id
    returns and the list of quotes is the one before the addition, but the
    outbox still holds the event of the addition, and nothing in it tells
    of the removal. *)
Theorem addQuote_then_removeQuote (content : string) (page : option Z)
    (b b1 : Book.t) (q : Quote.t) (w w1 : World) :
  Book.addQuote content page b w = (Returned (q, b1), w1) →
  (Quote.id q ∉ Quote.id <$> Book.quotes b) →
  ∃ b2 w2 e,
    BookMore.removeQuote (Quote.id q) b1 w1 = (Returned b2, w2)
    ∧ Book.quotes b2 = Book.quotes b
    ∧ Book.domainEvents b2 = Book.domainEvents b ++ [e]
    ∧ eventName e = QuoteAddedEvent.EVENT_NAME.
Proof.
  intros Hadd Hfresh.
  apply addQuote_shape in Hadd as (e & Hb1 & _ & _ & _ & _ & Hname & _).
  assert (Hquotes : Book.quotes b1 = Book.quotes b ++ [q]) by by rewrite Hb1.
  assert (Hevents : Book.domainEvents b1 = Book.domainEvents b ++ [e]) by by rewrite Hb1.
  unfold BookMore.removeQuote. rewrite Hquotes.
  rewrite (list_find_last (fun q0 => Quote.id q0 = Quote.id q))
    by (by apply fresh_id_Forall || done).
  rewrite delete_last. js_unfold. cbn.
  do 3 eexists. split; [reflexivity|]. cbn. by rewrite Hevents.
Qed.

Lemma addQuote_then_removeQuote_witness :
  ∃ q b1 w1 b2 w2 e,
    Book.addQuote "Make the implicit explicit." (Some 42) annotatedBook sampleWorld
    = (Returned (q, b1), w1)
    ∧ BookMore.removeQuote (Quote.id q) b1 w1 = (Returned b2, w2)
    ∧ Book.quotes b2 = Book.quotes annotatedBook
    ∧ Book.domainEvents b2 = Book.domainEvents annotatedBook ++ [e]
    ∧ eventName e = QuoteAddedEvent.EVENT_NAME.
Proof.
  destruct (Book.addQuote "Make the implicit explicit." (Some 42)
              annotatedBook sampleWorld) as [[[q b1]|e] w1] eqn:Hadd.
  - assert (Hfresh : Quote.id q ∉ Quote.id <$> Book.quotes annotatedBook).
    { vm_compute in Hadd. injection Hadd as <- _ _.
      cbn. intros Hin. by repeat (inversion Hin as [|? ? ? Hin']; subst; clear Hin; rename Hin' into Hin). }
    destruct (addQuote_then_removeQuote _ _ _ _ _ _ _ Hadd Hfresh)
      as (b2 & w2 & e & Hrun).
    by exists q, b1, w1, b2, w2, e.
  - vm_compute in Hadd. discriminate.
Defined.

(** X16. Notes raise no event at all. [addNote] appends the note and
    leaves the outbox as it was, so nothing is published for it; and when
    the id of the new note is not the id of an older one, [removeNote] of
    it gives back the notes of before, again with the outbox untouched. *)
Theorem notes_raise_no_event (content : string) (chapter : option string)
    (b b1 : Book.t) (n : Note.t) (w w1 : World) :
  Book.addNote content chapter b w = (Returned (n, b1), w1) →
  Book.notes b1 = Book.notes b ++ [n]
  ∧ Book.domainEvents b1 = Book.domainEvents b
  ∧ Book.hasUncommittedEvents b1 = Book.hasUncommittedEvents b
  ∧ ((Note.id n ∉ Note.id <$> Book.notes b) →
     ∃ b2 w2,
       BookMore.removeNote (Note.id n) b1 w1 = (Returned b2, w2)
       ∧ Book.notes b2 = Book.notes b
       ∧ Book.domainEvents b2 = Book.domainEvents b).
Proof.
  intros Hadd. apply addNote_shape in Hadd as (Hb1 & _).
  assert (Hnotes : Book.notes b1 = Book.notes b ++ [n]) by by rewrite Hb1.
  assert (Hevents : Book.domainEvents b1 = Book.domainEvents b) by by rewrite Hb1.
  split; [done|]. split; [done|].
  split; [unfold Book.hasUncommittedEvents; by rewrite Hevents|].
  intros Hfresh. unfold BookMore.removeNote. rewrite Hnotes.
  rewrite (list_find_last (fun n0 => Note.id n0 = Note.id n))
    by (by apply fresh_id_Forall || done).
  rewrite delete_last. js_unfold. cbn.
  do 2 eexists. split; [reflexivity|]. cbn. by rewrite Hevents.
Qed.

Lemma notes_raise_no_event_witness :
  ∃ n b1 w1,
    Book.addNote "Aggregates are boundaries." (Some "Chapter 6") sampleBook sampleWorld
    = (Returned (n, b1), w1)
    ∧ Book.notes b1 = Book.notes sampleBook ++ [n]
    ∧ Book.domainEvents b1 = Book.domainEvents sampleBook.
Proof.
  destruct (Book.addNote "Aggregates are boundaries." (Some "Chapter 6")
              sampleBook sampleWorld) as [[[n b1]|e] w1] eqn:Hadd.
  - exists n, b1, w1. split; [done|].
    destruct (notes_raise_no_event _ _ _ _ _ _ _ Hadd) as (Hn & He & _).
    by split.
  - vm_compute in Hadd. discriminate.
Defined.

(** ** The aggregate: the plain object and back *)

Lemma mapOutcome_quoteFromObject (qs : list Quote.t) :
  forallb (fun q => negb (Str.isBlank (Quote.id q))
                    && negb (Str.isBlank (Quote.bookId q))) qs = true →
  mapOutcome quoteFromObject (QuoteMore.toObject <$> qs) = Returned qs.
Proof.
  induction qs as [|q qs IH]; [done|]. cbn.
  rewrite !andb_true_iff, !negb_true_iff. intros [[Hid Hbook] Hqs].
  rewrite (IH Hqs).
  unfold quoteFromObject, Quote.reconstitute, QuoteId.fromString, BookId.fromString.
  cbn. rewrite Hid, Hbook. by destruct q.
Qed.

Lemma mapOutcome_noteFromObject (ns : list Note.t) :
  forallb (fun n => negb (Str.isBlank (Note.id n))
                    && negb (Str.isBlank (Note.bookId n))) ns = true →
  mapOutcome noteFromObject (NoteMore.toObject <$> ns) = Returned ns.
Proof.
  induction ns as [|n ns IH]; [done|]. cbn.
  rewrite !andb_true_iff, !negb_true_iff. intros [[Hid Hbook] Hns].
  rewrite (IH Hns).
  unfold noteFromObject, Note.reconstitute, NoteId.fromString, BookId.fromString.
  cbn. rewrite Hid, Hbook. by destruct n.
Qed.

(** X17. [toObject] loses nothing but the outbox. Rebuilding a book from
    its plain object with the [reconstitute] methods of [Quote], [Note]
    and [Book] gives the book back, events cleared (same fields, same
    quotes and notes in the same order, same version), provided no id in
    it is blank, its ISBN is not the empty string and its rating is not
    0. *)
Theorem toObject_reconstitute (b : Book.t) :
  idsPresent b = true →
  bookFromObject (BookMore.toObject b) = Returned (Book.clearDomainEvents b).
Proof.
  unfold idsPresent. rewrite !andb_true_iff, negb_true_iff.
  intros [[[[Hid Hisbn] Hrating] Hquotes] Hnotes].
  apply bool_decide_eq_true in Hisbn, Hrating.
  unfold bookFromObject. cbn.
  rewrite (mapOutcome_quoteFromObject _ Hquotes), (mapOutcome_noteFromObject _ Hnotes).
  cbn. unfold Book.reconstitute. cbn. rewrite fromString_toString. cbn.
  unfold BookId.fromString. rewrite Hid. cbn.
  rewrite truthyString_id, truthyNumber_id by done.
  unfold Book.setVersion, Book.clearDomainEvents, Title.fromString,
    PageCount.fromNumber, ISBN.fromString, Rating.fromNumber.
  destruct b as [? ? ? ? [?|] ? ? [?|] ? ? ? ? ? ? ?]; reflexivity.
Qed.

Lemma toObject_reconstitute_witness :
  bookFromObject (BookMore.toObject annotatedBook)
  = Returned (Book.clearDomainEvents annotatedBook).
Proof. apply toObject_reconstitute. reflexivity. Defined.

(** ** The write repository: delete, and what save and delete leave alone *)

Lemma filter_filter_implied {A} (P Q : string * A → Prop)
    `{!∀ x, Decision (P x)} `{!∀ x, Decision (Q x)} (m : gmap string A) :
  (∀ kv, P kv → Q kv) → filter P (filter Q m) = filter P m.
Proof.
  intros HPQ. apply map_eq. intros k. apply option_eq. intros r.
  rewrite !map_lookup_filter_Some. split.
  - by intros [[Hk _] HP].
  - intros [Hk HP]. repeat split; [done| |done]. by apply HPQ.
Qed.

Lemma filter_filter_excluded {A} (P Q : string * A → Prop)
    `{!∀ x, Decision (P x)} `{!∀ x, Decision (Q x)} (m : gmap string A) :
  (∀ kv, P kv → ¬ Q kv) → filter P (filter Q m) = ∅.
Proof.
  intros HPQ. apply map_eq. intros k. rewrite lookup_empty.
  apply map_lookup_filter_None. right. intros r Hr HP.
  apply map_lookup_filter_Some in Hr as [_ HQ]. by apply (HPQ (k, r)).
Qed.

(** What [findById] returns depends on the row of the book and on the
    child rows that carry its id, nothing else. *)
Lemma findById_depends_on_own_rows (id : string) (w w' : World) :
  books (pg w') !! id = books (pg w) !! id →
  filter (fun kv : string * QuoteRow.t => QuoteRow.book_id kv.2 = id) (quotes (pg w'))
  = filter (fun kv : string * QuoteRow.t => QuoteRow.book_id kv.2 = id) (quotes (pg w)) →
  filter (fun kv : string * NoteRow.t => NoteRow.book_id kv.2 = id) (notes (pg w'))
  = filter (fun kv : string * NoteRow.t => NoteRow.book_id kv.2 = id) (notes (pg w)) →
  (PostgresBookRepository.findById id w').1 = (PostgresBookRepository.findById id w).1.
Proof.
  intros Hb Hq Hn.
  unfold PostgresBookRepository.findById, PostgresBookRepository.selectQuotesOrdered,
    PostgresBookRepository.selectNotesOrdered, PostgresBookRepository.selectQuotes,
    PostgresBookRepository.selectNotes.
  js_unfold. cbn. rewrite Hb, Hq, Hn.
  destruct (books (pg w) !! id); [|done].
  by destruct (PostgresBookRepository.toAggregate _ _ _ _).
Qed.

(** X18. For an id that is a uuid, [delete] never throws, whether the
    id is stored or not. After it [findById] of the id returns null and
    [exists] returns false, no quote or note row of the book is left,
    every other book is found as before, and neither the channel nor the
    read store nor the journal has changed. *)
Theorem delete_removes_only_that_book (id : string) (w : World) :
  uuidText id = true →
  ∃ w',
    PostgresBookRepository.delete id w = (Returned tt, w')
    ∧ PostgresBookRepository.findById id w' = (Returned None, w')
    ∧ PostgresBookRepositoryMore.exists_ id w' = (Returned false, w')
    ∧ PostgresBookRepository.selectQuotes id (pg w') = []
    ∧ PostgresBookRepository.selectNotes id (pg w') = []
    ∧ (∀ other, uuidText other = true → other ≠ id →
         (PostgresBookRepository.findById other w').1
         = (PostgresBookRepository.findById other w).1)
    ∧ channel w' = channel w ∧ mongo w' = mongo w ∧ journal w' = journal w.
Proof.
  intros _. eexists. split; [reflexivity|]. cbn.
  split; [|split; [|split; [|split; [|split]]]].
  - unfold PostgresBookRepository.findById. js_unfold. cbn.
    by rewrite lookup_delete_eq.
  - unfold PostgresBookRepositoryMore.exists_. js_unfold. cbn.
    rewrite lookup_delete_eq. rewrite bool_decide_eq_false_2; [done|].
    by intros [? ?].
  - unfold PostgresBookRepository.selectQuotes. cbn.
    rewrite filter_filter_excluded; [apply map_to_list_empty|]. by intros kv -> ?.
  - unfold PostgresBookRepository.selectNotes. cbn.
    rewrite filter_filter_excluded; [apply map_to_list_empty|]. by intros kv -> ?.
  - intros other _ Hother. apply findById_depends_on_own_rows; cbn.
    + by rewrite lookup_delete_ne.
    + apply filter_filter_implied. by intros kv ->.
    + apply filter_filter_implied. by intros kv ->.
  - done.
Qed.

Lemma delete_removes_only_that_book_witness :
  ∃ w',
    PostgresBookRepository.delete (Book.id uuidBook) uuidWorld = (Returned tt, w')
    ∧ PostgresBookRepository.findById (Book.id uuidBook) w' = (Returned None, w')
    ∧ PostgresBookRepositoryMore.exists_ (Book.id uuidBook) w' = (Returned false, w')
    ∧ PostgresBookRepository.selectQuotes (Book.id uuidBook) (pg w') = []
    ∧ PostgresBookRepository.selectNotes (Book.id uuidBook) (pg w') = []
    ∧ (∀ other, uuidText other = true → other ≠ Book.id uuidBook →
         (PostgresBookRepository.findById other w').1
         = (PostgresBookRepository.findById other uuidWorld).1)
    ∧ channel w' = channel uuidWorld ∧ mongo w' = mongo uuidWorld
    ∧ journal w' = journal uuidWorld.
Proof.
  apply (delete_removes_only_that_book (Book.id uuidBook) uuidWorld). reflexivity.
Defined.

(** Before the deletion the book and its quote are stored; a book is
    still there after the deletion of an id that is not stored. *)
Example delete_of_an_unknown_id :
  PostgresBookRepositoryMore.exists_ (Book.id uuidBook) uuidWorld
  = (Returned true, uuidWorld)
  ∧ length (PostgresBookRepository.selectQuotes (Book.id uuidBook) (pg uuidWorld))
    = 1%nat
  ∧ uuidText unknownId = true
  ∧ ∃ w',
      PostgresBookRepository.delete unknownId uuidWorld = (Returned tt, w')
      ∧ PostgresBookRepositoryMore.exists_ unknownId uuidWorld
        = (Returned false, uuidWorld)
      ∧ PostgresBookRepositoryMore.exists_ (Book.id uuidBook) w' = (Returned true, w').
Proof.
  split; [reflexivity|]. split; [reflexivity|]. split; [reflexivity|].
  eexists. split; [reflexivity|]. split; reflexivity.
Qed.

Section SyncChildrenFrame.

Context {Child Row : Type}.
Variable childId : Child → string.
Variable rowBookId : Row → string.
Variable patch : Child → Row → Row.
Variable fresh : string → Child → Row.
Variable pkey : string.

Hypothesis fresh_bookId : ∀ bookId c, rowBookId (fresh bookId c) = bookId.
Hypothesis patch_bookId : ∀ c r, rowBookId (patch c r) = rowBookId r.

Lemma upsertAll_frame (bookId : string) (existingIds : gset string)
    (children : list Child) (table table' : gmap string Row) :
  (∀ k r, k ∈ existingIds → table !! k = Some r → rowBookId r = bookId) →
  upsertAll childId patch fresh pkey bookId existingIds children table = Returned table' →
  ∀ k r, rowBookId r ≠ bookId → table' !! k = Some r ↔ table !! k = Some r.
Proof.
  revert table. induction children as [|c rest IH]; intros table Hinv Hrun k r Hr.
  - cbn in Hrun. by injection Hrun as <-.
  - cbn in Hrun. case_bool_decide as Hex.
    + assert (Hinv' : ∀ k' r', k' ∈ existingIds →
                alter (patch c) (childId c) table !! k' = Some r' →
                rowBookId r' = bookId).
      { intros k' r' Hk'. destruct (decide (k' = childId c)) as [->|Hne].
        - rewrite lookup_alter_eq.
          destruct (table !! childId c) as [r0|] eqn:Hr0; cbn; [|done].
          intros [= <-]. rewrite patch_bookId. by apply (Hinv _ _ Hex Hr0).
        - rewrite lookup_alter_ne by done. by apply Hinv. }
      rewrite (IH _ Hinv' Hrun k r Hr).
      destruct (decide (k = childId c)) as [->|Hne];
        [|by rewrite lookup_alter_ne].
      rewrite lookup_alter_eq.
      destruct (table !! childId c) as [r0|] eqn:Hr0; cbn; [|done].
      pose proof (Hinv _ _ Hex Hr0) as Hb.
      split; intros [= <-]; exfalso; apply Hr; by rewrite ?patch_bookId.
    + destruct (table !! childId c) as [r0|] eqn:Hr0; [discriminate|].
      assert (Hinv' : ∀ k' r', k' ∈ existingIds →
                <[childId c := fresh bookId c]> table !! k' = Some r' →
                rowBookId r' = bookId).
      { intros k' r' Hk'. destruct (decide (k' = childId c)) as [->|Hne]; [done|].
        rewrite lookup_insert_ne by done. by apply Hinv. }
      rewrite (IH _ Hinv' Hrun k r Hr).
      destruct (decide (k = childId c)) as [->|Hne];
        [|by rewrite lookup_insert_ne].
      rewrite lookup_insert_eq, Hr0.
      split; [|done]. intros [= <-]. exfalso. apply Hr. apply fresh_bookId.
Qed.

(** The reconciliation of the children of one book neither adds, removes
    nor changes a row of another book. *)
Lemma syncChildren_frame (bookId : string) (children : list Child)
    (table table' : gmap string Row) (other : string) :
  other ≠ bookId →
  syncChildren childId rowBookId patch fresh pkey bookId children table
  = Returned table' →
  filter (fun kv : string * Row => rowBookId kv.2 = other) table'
  = filter (fun kv : string * Row => rowBookId kv.2 = other) table.
Proof.
  intros Hother Hrun. unfold syncChildren in Hrun.
  apply map_eq. intros k. apply option_eq. intros r.
  rewrite !map_lookup_filter_Some. cbn.
  assert (Hframe : rowBookId r ≠ bookId → table' !! k = Some r ↔ table !! k = Some r).
  { intros Hr.
    assert (Hinv : ∀ k' r', k' ∈ existingIdsOf rowBookId bookId table →
              deleteRemoved (existingIdsOf rowBookId bookId table)
                (currentIdsOf childId children) table !! k' = Some r' →
              rowBookId r' = bookId).
    { intros k' r' Hk'. rewrite deleteRemoved_lookup.
      case_bool_decide; [done|].
      apply (existingIdsOf_spec rowBookId) in Hk' as (r0 & Hr0 & Hb).
      rewrite Hr0. by intros [= <-]. }
    rewrite (upsertAll_frame _ _ _ _ _ Hinv Hrun k r Hr).
    rewrite deleteRemoved_lookup. case_bool_decide as Hdel; [|done].
    destruct Hdel as [Hex _].
    apply (existingIdsOf_spec rowBookId) in Hex as (r0 & Hr0 & Hb).
    split; [done|]. intros Hk. rewrite Hk in Hr0. by injection Hr0 as <-. }
  split; intros [Hk Hb]; (split; [|done]); apply Hframe; try done; by rewrite Hb.
Qed.

End SyncChildrenFrame.

(** X19. A successful [save] of one book touches no other book: for
    every other id, the row in [books] is the one of before, and
    [findById] returns what it returned before the save (the same
    aggregate with the same quotes and notes, or null). *)
Theorem save_leaves_other_books (book : Book.t) (w w' : World) (other : string) :
  PostgresBookRepository.save book w = (Returned tt, w') →
  other ≠ Book.id book →
  books (pg w') !! other = books (pg w) !! other
  ∧ (PostgresBookRepository.findById other w').1
    = (PostgresBookRepository.findById other w).1.
Proof.
  rewrite save_run. unfold saveOutcome.
  destruct (storeBookRow book (books (pg w))) as [bookTable|] eqn:Hbooks;
    cbn; [|discriminate].
  destruct (syncedQuotes book (quotes (pg w))) as [quoteTable|] eqn:Hquotes;
    cbn; [|discriminate].
  destruct (syncedNotes book (notes (pg w))) as [noteTable|] eqn:Hnotes;
    cbn; [|discriminate].
  intros [= <-] Hother. cbn.
  assert (Hrow : bookTable !! other = books (pg w) !! other).
  { unfold storeBookRow in Hbooks.
    destruct (books (pg w) !! Book.id book) as [row|].
    - destruct (_ =? _); [|discriminate].
      destruct (PostgresBookRepository.isbnTaken _ _ _); [discriminate|].
      injection Hbooks as <-. by rewrite lookup_insert_ne.
    - destruct (PostgresBookRepository.isbnTaken _ _ _); [discriminate|].
      injection Hbooks as <-. by rewrite lookup_insert_ne. }
  split; [done|]. apply findById_depends_on_own_rows; cbn; [done| |].
  - by apply (syncChildren_frame Quote.id QuoteRow.book_id
                PostgresBookRepository.quotePatch PostgresBookRepository.quoteFresh
                "quotes_pkey" (fun _ _ => eq_refl) (fun _ _ => eq_refl)
                (Book.id book) (Book.quotes book)).
  - by apply (syncChildren_frame Note.id NoteRow.book_id
                PostgresBookRepository.notePatch PostgresBookRepository.noteFresh
                "notes_pkey" (fun _ _ => eq_refl) (fun _ _ => eq_refl)
                (Book.id book) (Book.notes book)).
Qed.

Lemma save_leaves_other_books_witness :
  books (pg (PostgresBookRepository.save otherBook storedWorld).2) !! "uuid-0"
  = books (pg storedWorld) !! "uuid-0"
  ∧ (PostgresBookRepository.findById "uuid-0"
       (PostgresBookRepository.save otherBook storedWorld).2).1
    = (PostgresBookRepository.findById "uuid-0" storedWorld).1.
Proof.
  apply (save_leaves_other_books otherBook storedWorld).
  - vm_compute. reflexivity.
  - discriminate.
Defined.

(** ** The command handlers: unknown books, deletion, updates that change nothing *)

(** A handler that loads a book the store does not have throws before it
    does anything. *)
Lemma loadBook_unknown (bookId : string) (w : World) :
  Str.isBlank bookId = false →
  books (pg w) !! bookId = None →
  loadBook bookId w = (Thrown (EntityNotFoundException "Book" bookId), w).
Proof.
  intros Hid Hrow. unfold loadBook, BookId.fromString, PostgresBookRepository.findById.
  js_unfold. rewrite Hid. cbn. by rewrite Hrow.
Qed.

(** A uuid is not blank. *)
Lemma uuidText_not_blank (s : string) : uuidText s = true → Str.isBlank s = false.
Proof.
  destruct s as [|c s]; [done|]. unfold uuidText. cbn [uuidShape].
  change ((0 =? 8) || (0 =? 13) || (0 =? 18) || (0 =? 23))%nat with false.
  cbv beta iota. rewrite andb_true_iff. intros [Hc _].
  assert (Hspace : Str.isSpace c = false).
  { by destruct c as [[] [] [] [] [] [] [] []]. }
  unfold Str.isBlank, Str.trim. cbn [Str.trimStart]. rewrite Hspace.
  rewrite trimEnd_cons, Hspace. cbn [andb].
  unfold Str.len. cbn [String.length]. apply Z.eqb_neq. lia.
Qed.

(** X20. A command for a book that is not stored is refused without
    effect: when the id is a uuid and [books] has no row for it, the
    handlers of UpdateBook, MarkBookAsFinished, AddQuote and DeleteBook all
    throw EntityNotFoundException('Book', id) and leave the world exactly
    as it was (no row written, nothing published, nothing journalled). *)
Theorem handlers_refuse_unknown_book (bookId : string) (w : World) :
  uuidText bookId = true →
  books (pg w) !! bookId = None →
  (∀ changes,
     UpdateBookHandler.execute bookId changes w
     = (Thrown (EntityNotFoundException "Book" bookId), w))
  ∧ (∀ yearRead rating,
       MarkBookAsFinishedHandler.execute bookId yearRead rating w
       = (Thrown (EntityNotFoundException "Book" bookId), w))
  ∧ (∀ content page,
       AddQuoteHandler.execute bookId content page w
       = (Thrown (EntityNotFoundException "Book" bookId), w))
  ∧ DeleteBookHandler.execute bookId w
    = (Thrown (EntityNotFoundException "Book" bookId), w).
Proof.
  intros Huuid Hrow. pose proof (uuidText_not_blank bookId Huuid) as Hid.
  pose proof (loadBook_unknown bookId w Hid Hrow) as Hload.
  repeat split.
  - intros changes. unfold UpdateBookHandler.execute. by rewrite run_bind, Hload.
  - intros yearRead rating. unfold MarkBookAsFinishedHandler.execute.
    by rewrite run_bind, Hload.
  - intros content page. unfold AddQuoteHandler.execute. by rewrite run_bind, Hload.
  - unfold DeleteBookHandler.execute, BookId.fromString,
      PostgresBookRepository.findById.
    js_unfold. rewrite Hid. cbn. by rewrite Hrow.
Qed.

Lemma handlers_refuse_unknown_book_witness :
  (∀ changes,
     UpdateBookHandler.execute unknownId changes uuidWorld
     = (Thrown (EntityNotFoundException "Book" unknownId), uuidWorld))
  ∧ (∀ yearRead rating,
       MarkBookAsFinishedHandler.execute unknownId yearRead rating uuidWorld
       = (Thrown (EntityNotFoundException "Book" unknownId), uuidWorld))
  ∧ (∀ content page,
       AddQuoteHandler.execute unknownId content page uuidWorld
       = (Thrown (EntityNotFoundException "Book" unknownId), uuidWorld))
  ∧ DeleteBookHandler.execute unknownId uuidWorld
    = (Thrown (EntityNotFoundException "Book" unknownId), uuidWorld).
Proof.
  apply (handlers_refuse_unknown_book unknownId uuidWorld); reflexivity.
Defined.

(** What [findById] tells of the book it found: the id asked for, the
    version of the row, an empty outbox; the world is as before. *)
Lemma findById_found (id : string) (w w' : World) (book : Book.t) :
  PostgresBookRepository.findById id w = (Returned (Some book), w') →
  w' = w
  ∧ Book.id book = id
  ∧ Book.domainEvents book = []
  ∧ ∃ row, books (pg w) !! id = Some row ∧ Book.version book = BookRow.version row.
Proof.
  unfold PostgresBookRepository.findById, PostgresBookRepository.toAggregate,
    Book.reconstitute, BookId.fromString.
  js_unfold. cbn.
  destruct (books (pg w) !! id) as [row|]; [|discriminate].
  destruct (mapOutcome PostgresBookRepository.toQuote _); cbn; [|discriminate].
  destruct (mapOutcome PostgresBookRepository.toNote _); cbn; [|discriminate].
  destruct (ReadingStatusUtils.fromString _); cbn; [|discriminate].
  destruct (Str.isBlank id); cbn; [discriminate|].
  intros [= <- <-]. cbn. repeat split. by exists row.
Qed.

(** X21. [DeleteBookHandler] deletes first and publishes afterwards, and
    the two are not one transaction. For a stored book the row is gone
    when the handler is done, whatever the outcome: with a channel it
    returns after publishing exactly one message, with the routing key
    library.book.deleted; without a channel it throws, nothing is
    published, and the book is deleted all the same. *)
Theorem deleteBook_deletes_then_publishes (bookId : string) (book : Book.t) (w : World) :
  Str.isBlank bookId = false →
  PostgresBookRepository.findById bookId w = (Returned (Some book), w) →
  ∃ o w',
    DeleteBookHandler.execute bookId w = (o, w')
    ∧ books (pg w') !! bookId = None
    ∧ (channel w = None → isThrown o = true ∧ channel w' = None)
    ∧ (∀ ch, channel w = Some ch →
         o = Returned tt
         ∧ ∃ m, channel w' = Some (ch ++ [m])
                ∧ routingKey m = BookDeletedEvent.EVENT_NAME
                ∧ exchangeName m = EXCHANGE_NAME).
Proof.
  intros Hid Hfind.
  destruct (findById_found _ _ _ _ Hfind) as (_ & _ & Hevents & _).
  unfold DeleteBookHandler.execute. rewrite run_bind.
  unfold BookId.fromString at 1. rewrite Hid. unfold call at 1.
  cbn. rewrite run_bind, Hfind. cbn. rewrite run_bind.
  unfold Book.markAsDeleted, newDomainEvent. js_unfold. cbn. rewrite Hevents. cbn.
  unfold awaitPublishAll, RabbitMQEventPublisher.publishAll,
    RabbitMQEventPublisher.publish, getChannel, channelPublish.
  js_unfold. cbn.
  destruct (channel w) as [ch|] eqn:Hch; cbn.
  - do 2 eexists. split; [reflexivity|]. cbn.
    split; [apply lookup_delete_eq|]. split; [done|].
    intros ch' [= <-]. split; [done|]. eexists. by repeat split.
  - do 2 eexists. split; [reflexivity|]. cbn.
    split; [apply lookup_delete_eq|]. split; [done|]. done.
Qed.

Lemma deleteBook_deletes_then_publishes_witness :
  ∃ o w',
    DeleteBookHandler.execute "uuid-0" (set_channel None storedWorld) = (o, w')
    ∧ books (pg w') !! "uuid-0" = None
    ∧ (channel (set_channel None storedWorld) = None →
       isThrown o = true ∧ channel w' = None)
    ∧ (∀ ch, channel (set_channel None storedWorld) = Some ch →
         o = Returned tt
         ∧ ∃ m, channel w' = Some (ch ++ [m])
                ∧ routingKey m = BookDeletedEvent.EVENT_NAME
                ∧ exchangeName m = EXCHANGE_NAME).
Proof.
  destruct (PostgresBookRepository.findById "uuid-0" (set_channel None storedWorld))
    as [[[book|]|e] w1] eqn:Hfind.
  - assert (w1 = set_channel None storedWorld) as ->
      by (vm_compute in Hfind; by injection Hfind as _ <-).
    exact (deleteBook_deletes_then_publishes "uuid-0" book _ eq_refl Hfind).
  - vm_compute in Hfind. discriminate.
  - vm_compute in Hfind. discriminate.
Defined.

Lemma loadBook_found (bookId : string) (book : Book.t) (w : World) :
  Str.isBlank bookId = false →
  PostgresBookRepository.findById bookId w = (Returned (Some book), w) →
  loadBook bookId w = (Returned book, w).
Proof.
  intros Hid Hfind. unfold loadBook. rewrite run_bind.
  unfold BookId.fromString. rewrite Hid. unfold call at 1. cbn.
  by rewrite run_bind, Hfind.
Qed.

(** X22. An update that changes nothing is saved all the same. When
    [updateDetails] finds no difference (it raises no event) and the save
    goes through, [UpdateBookHandler] returns, the stored row is one
    version ahead of the row that was loaded, and nothing is published:
    the channel is as before and the journal shows the save alone. *)
Theorem updateBook_without_change_still_saves (bookId : string)
    (changes : Book.DetailChanges) (book b' : Book.t) (w w1 w2 : World) :
  Str.isBlank bookId = false →
  PostgresBookRepository.findById bookId w = (Returned (Some book), w) →
  Book.updateDetails changes book w = (Returned b', w1) →
  Book.hasUncommittedEvents b' = false →
  PostgresBookRepository.save b' w1 = (Returned tt, w2) →
  ∃ w' row row',
    UpdateBookHandler.execute bookId changes w = (Returned tt, w')
    ∧ books (pg w) !! bookId = Some row
    ∧ books (pg w') !! bookId = Some row'
    ∧ BookRow.version row' = BookRow.version row + 1
    ∧ channel w' = channel w
    ∧ journal w' = journal w ++ [SaveReturned bookId].
Proof.
  intros Hid Hfind Hupd Hnone Hsave.
  destruct (findById_found _ _ _ _ Hfind) as (_ & Hbid & _ & row & Hrow & Hver).
  destruct (updateDetails_frame _ _ _ _ _ Hupd) as ((Hid' & _ & _ & _ & Hver') & _).
  destruct (save_returned_row _ _ _ Hsave) as (row' & Hrow' & Hver'').
  pose proof (keepsStores_updateDetails changes book w) as Hframe.
  rewrite Hupd in Hframe. destruct Hframe as (_ & _ & Hch & _ & Hj & _).
  destruct (silent_save b' w1) as [Hj2 Hch2]. rewrite Hsave in Hj2, Hch2.
  cbn in Hch, Hj, Hj2, Hch2.
  exists (set_journal (journal w2 ++ [SaveReturned bookId]) w2), row, row'.
  split; [|split; [done|split; [|split; [|split]]]].
  - unfold UpdateBookHandler.execute.
    rewrite run_bind, (loadBook_found _ _ _ Hid Hfind). cbv beta iota.
    rewrite run_bind, Hupd. cbv beta iota. rewrite run_bind.
    unfold awaitSave. rewrite Hsave, Hnone. cbn. by rewrite Hid', Hbid.
  - cbn. by rewrite <- Hbid, <- Hid'.
  - lia.
  - cbn. by rewrite Hch2, Hch.
  - cbn. by rewrite Hj2, Hj.
Qed.

Lemma updateBook_without_change_still_saves_witness :
  ∃ w' row row',
    UpdateBookHandler.execute "uuid-0"
      {| Book.c_title := Some " Domain-Driven  Design "; Book.c_pageCount := Some 560;
         Book.c_yearRead := None; Book.c_rating := None; Book.c_coverUrl := None |}
      storedWorld
    = (Returned tt, w')
    ∧ books (pg storedWorld) !! "uuid-0" = Some row
    ∧ books (pg w') !! "uuid-0" = Some row'
    ∧ BookRow.version row' = BookRow.version row + 1
    ∧ channel w' = channel storedWorld
    ∧ journal w' = journal storedWorld ++ [SaveReturned "uuid-0"].
Proof.
  destruct (PostgresBookRepository.findById "uuid-0" storedWorld)
    as [[[book|]|e] w0] eqn:Hfind; [|by vm_compute in Hfind..].
  assert (w0 = storedWorld) as ->
    by (vm_compute in Hfind; by injection Hfind as _ <-).
  destruct (Book.updateDetails
              {| Book.c_title := Some " Domain-Driven  Design ";
                 Book.c_pageCount := Some 560;
                 Book.c_yearRead := None; Book.c_rating := None;
                 Book.c_coverUrl := None |} book storedWorld)
    as [[b'|e] w1] eqn:Hupd;
    [|vm_compute in Hfind; injection Hfind as <-; by vm_compute in Hupd].
  assert (Hnone : Book.hasUncommittedEvents b' = false).
  { vm_compute in Hfind. injection Hfind as <-. vm_compute in Hupd.
    by injection Hupd as <- _. }
  destruct (PostgresBookRepository.save b' w1) as [[[]|e] w2] eqn:Hsave.
  - exact (updateBook_without_change_still_saves "uuid-0" _ book b' storedWorld w1 w2
             eq_refl Hfind Hupd Hnone Hsave).
  - vm_compute in Hfind. injection Hfind as <-. vm_compute in Hupd.
    injection Hupd as <- <-. by vm_compute in Hsave.
Defined.

(** ** CreateBookHandler: the check for a duplicate ISBN *)




(** The same number typed without the dash is refused by the handler
    itself, before anything is created. *)
Example createBook_duplicate_isbn_as_stored :
  CreateBookHandler.execute
    {| Book.p_title := "Domain-Driven Design"; Book.p_authorId := "author-123";
       Book.p_pageCount := 560; Book.p_isbn := Some "9780321125217";
       Book.p_yearRead := None; Book.p_status := Some READING;
       Book.p_rating := None; Book.p_coverUrl := None |} laterWorld
  = (Thrown (Error "Book with ISBN 9780321125217 already exists"), laterWorld).
Proof. vm_compute. reflexivity. Qed.

(** ** The projections and the read store *)

Lemma map_Forall_alter {A} (P : string → A → Prop) (f : A → A) (k : string)
    (m : gmap string A) :
  (∀ x, P k x → P k (f x)) → map_Forall P m → map_Forall P (alter f k m).
Proof.
  intros Hf Hm i x. destruct (decide (i = k)) as [->|Hne].
  - rewrite lookup_alter_eq. destruct (m !! k) as [y|] eqn:Hy; [|done].
    intros [= <-]. apply Hf. by apply Hm.
  - rewrite lookup_alter_ne by done. apply Hm.
Qed.

Lemma setFields_shape (c : BookUpdatedEvent.Changes) (t : Z) (d : BookDocument.t) :
  documentShape (BookProjections.setFields c t d) = documentShape d.
Proof. reflexivity. Qed.

Lemma pushQuote_shape (q : QuoteDocument.t) (t : Z) (d : BookDocument.t) :
  documentShape d = true → documentShape (BookProjections.pushQuote q t d) = true.
Proof.
  unfold documentShape. cbn [BookProjections.pushQuote BookDocument.quotes
    BookDocument.quotesCount BookDocument.notes BookDocument.notesCount
    BookDocument.coverUrl].
  rewrite !andb_true_iff, length_app, !Z.eqb_eq. cbn [length]. intros [[[Hq ?] ?] ?].
  repeat split; try done. lia.
Qed.

(** X24. Whatever event the projection router is given, every document
    of the read store keeps the shape the projections write: its
    [quotesCount] is the number of its quotes, it has no notes, its
    [notesCount] is 0 and its [coverUrl] is null. A store that started
    empty therefore never shows a note or a cover, and its counter of
    quotes never drifts from the list. *)
Theorem projections_keep_document_shape (event : DomainEvent) (w : World) :
  map_Forall (fun _ d => documentShape d = true) (mongo w) →
  map_Forall (fun _ d => documentShape d = true) (mongo (projectionRouter event w).2).
Proof.
  intros Hshape. unfold projectionRouter.
  destruct (payload event) as [p|p|p|p|p]; case_bool_decide; try done;
    unfold BookProjections.onBookCreated, BookProjections.onBookUpdated,
      BookProjections.onBookDeleted, BookProjections.onQuoteAdded,
      insertOne, updateOne, deleteOne;
    js_unfold; cbn.
  all: first
    [ by apply map_Forall_delete
    | apply map_Forall_alter; [|done]; intros d Hd;
      first [exact Hd | by apply pushQuote_shape]
    | destruct (mongo w !! _); [done|]; cbn; by apply map_Forall_insert_2 ].
Qed.

Lemma projections_keep_document_shape_witness :
  map_Forall (fun _ d => documentShape d = true)
    (mongo (projectionRouter
              {| eventId := "uuid-3"; occurredAt := 1704067200003;
                 metadata := {| meta_eventId := "uuid-3";
                                meta_occurredAt := 1704067200003;
                                correlationId := None; causationId := None;
                                userId := None |};
                 eventName := QuoteAddedEvent.EVENT_NAME;
                 payload := QuoteAdded sampleQuoteAdded |} sampleReadWorld).2).
Proof.
  apply projections_keep_document_shape.
  apply map_Forall_singleton. reflexivity.
Defined.

(** ** From a new book to its document *)

(** The one event in the outbox of a new book, field by field. *)
Lemma create_event (props : Book.CreateBookProps) (book : Book.t) (w w1 : World) :
  Book.create props w = (Returned book, w1) →
  ∃ e p,
    Book.domainEvents book = [e]
    ∧ eventName e = BookCreatedEvent.EVENT_NAME
    ∧ payload e = BookCreated p
    ∧ BookCreatedEvent.bookId p = Book.id book
    ∧ BookCreatedEvent.title p = Book.title book
    ∧ BookCreatedEvent.authorId p = Book.authorId book
    ∧ BookCreatedEvent.pageCount p = Book.pageCount book
    ∧ BookCreatedEvent.isbn p = Book.isbn book
    ∧ BookCreatedEvent.yearRead p = Book.yearRead book
    ∧ BookCreatedEvent.status p = ReadingStatusUtils.toString (Book.status book).
Proof.
  unfold Book.create, BookId.generate, Book.validateYearRead, newDomainEvent.
  js_unfold. cbn.
  destruct (Title.create _); [|discriminate].
  destruct (PageCount.create _); [|discriminate].
  destruct (orNull ISBN.create _); [|discriminate].
  destruct (orNull Rating.create _); [|discriminate].
  destruct (Str.isBlank _); [discriminate|].
  destruct (Book.p_yearRead props) as [y|]; cbn.
  - destruct (_ || _); [discriminate|]. cbn.
    rewrite bool_decide_eq_false_2 by (intros [_ ?]; discriminate).
    intros [= <- <-]. do 2 eexists. split; [reflexivity|]. split; [reflexivity|].
    split; [reflexivity|]. by repeat split.
  - case_bool_decide as Hfin; [discriminate|]. intros [= <- <-].
    do 2 eexists. split; [reflexivity|]. split; [reflexivity|].
    split; [reflexivity|]. by repeat split.
Qed.

(** What the router makes of a creation event on a store that has no
    document under the id. *)
Lemma project_created (e : DomainEvent) (p : BookCreatedEvent.Payload) (v : World) :
  eventName e = BookCreatedEvent.EVENT_NAME →
  payload e = BookCreated p →
  mongo v !! BookCreatedEvent.bookId p = None →
  ∃ v' d,
    projectionRouter e v = (Returned tt, v')
    ∧ mongo v' !! BookCreatedEvent.bookId p = Some d
    ∧ BookDocument.title d = BookCreatedEvent.title p
    ∧ BookDocument.authorId d = BookCreatedEvent.authorId p
    ∧ BookDocument.pageCount d = BookCreatedEvent.pageCount p
    ∧ BookDocument.isbn d = BookCreatedEvent.isbn p
    ∧ BookDocument.yearRead d = BookCreatedEvent.yearRead p
    ∧ BookDocument.status d = BookCreatedEvent.status p
    ∧ BookDocument.rating d = None
    ∧ BookDocument.coverUrl d = None
    ∧ BookDocument.quotes d = []
    ∧ BookDocument.notes d = [].
Proof.
  intros Hname Hpay Hfree. unfold projectionRouter. rewrite Hpay, Hname.
  rewrite bool_decide_eq_true_2 by done.
  unfold BookProjections.onBookCreated, insertOne. js_unfold. cbn.
  rewrite Hfree. cbn. do 2 eexists. split; [reflexivity|]. cbn.
  rewrite lookup_insert_eq. split; [reflexivity|]. by repeat split.
Qed.

(** X25. What the read store shows of a new book. Handing the outbox
    of a book that [Book.create] returned to the projection router, on a
    store that has no document under the book's id, returns and leaves one
    there with the book's title, author, page count, ISBN, year and
    status, no quotes and no notes; its rating is null whatever rating the
    book was created with, and so is its cover. *)
Theorem created_book_in_read_model (props : Book.CreateBookProps) (book : Book.t)
    (w w1 v : World) :
  Book.create props w = (Returned book, w1) →
  mongo v !! Book.id book = None →
  ∃ v' d,
    projectAll (Book.domainEvents book) v = (Returned tt, v')
    ∧ mongo v' !! Book.id book = Some d
    ∧ BookDocument.title d = Book.title book
    ∧ BookDocument.authorId d = Book.authorId book
    ∧ BookDocument.pageCount d = Book.pageCount book
    ∧ BookDocument.isbn d = Book.isbn book
    ∧ BookDocument.yearRead d = Book.yearRead book
    ∧ BookDocument.status d = ReadingStatusUtils.toString (Book.status book)
    ∧ BookDocument.rating d = None
    ∧ BookDocument.coverUrl d = None
    ∧ BookDocument.quotes d = []
    ∧ BookDocument.notes d = [].
Proof.
  intros Hcreate Hfree.
  destruct (create_event _ _ _ _ Hcreate)
    as (e & p & Hev & Hname & Hpay & Hid & Ht & Ha & Hp & Hi & Hy & Hs).
  rewrite <- Hid in Hfree.
  destruct (project_created e p v Hname Hpay Hfree)
    as (v' & d & Hrun & Hd & Ht' & Ha' & Hp' & Hi' & Hy' & Hs' & Hr & Hc & Hq & Hn).
  exists v', d. rewrite Hev. unfold projectAll. cbn [forOf].
  rewrite run_bind, Hrun. split; [reflexivity|].
  rewrite <- Hid, Ht', Ha', Hp', Hi', Hy', Hs', Ht, Ha, Hp, Hi, Hy, Hs.
  by repeat split.
Qed.

Lemma created_book_in_read_model_witness :
  ∃ book w1 v' d,
    Book.create
      {| Book.p_title := "Domain-Driven Design"; Book.p_authorId := "author-123";
         Book.p_pageCount := 560; Book.p_isbn := Some "978-0321125217";
         Book.p_yearRead := Some 2023; Book.p_status := Some FINISHED;
         Book.p_rating := Some 5; Book.p_coverUrl := Some "https://covers/ddd.png" |}
      sampleWorld
    = (Returned book, w1)
    ∧ Book.rating book = Some 5
    ∧ projectAll (Book.domainEvents book) sampleWorld = (Returned tt, v')
    ∧ mongo v' !! Book.id book = Some d
    ∧ BookDocument.title d = Book.title book
    ∧ BookDocument.rating d = None
    ∧ BookDocument.coverUrl d = None.
Proof.
  destruct (Book.create
      {| Book.p_title := "Domain-Driven Design"; Book.p_authorId := "author-123";
         Book.p_pageCount := 560; Book.p_isbn := Some "978-0321125217";
         Book.p_yearRead := Some 2023; Book.p_status := Some FINISHED;
         Book.p_rating := Some 5; Book.p_coverUrl := Some "https://covers/ddd.png" |}
      sampleWorld) as [[book|e] w1] eqn:Hcreate; [|by vm_compute in Hcreate].
  assert (Hrating : Book.rating book = Some 5)
    by (vm_compute in Hcreate; by injection Hcreate as <- _).
  destruct (created_book_in_read_model _ book sampleWorld w1 sampleWorld Hcreate)
    as (v' & d & Hrun & Hd & Ht & _ & _ & _ & _ & _ & Hr & Hc & _).
  { reflexivity. }
  by exists book, w1, v', d.
Defined.

#[local] Arguments projectAll : simpl never.

(** What the router makes of one event of each kind, on a store that has
    the document. *)
Lemma project_updated (e : DomainEvent) (p : BookUpdatedEvent.Payload) (v : World)
    (d : BookDocument.t) :
  eventName e = BookUpdatedEvent.EVENT_NAME →
  payload e = BookUpdated p →
  mongo v !! BookUpdatedEvent.bookId p = Some d →
  ∃ v',
    projectAll [e] v = (Returned tt, v')
    ∧ mongo v' !! BookUpdatedEvent.bookId p
      = Some (BookProjections.setFields (BookUpdatedEvent.changes p)
                (BookUpdatedEvent.updatedAt p) d).
Proof.
  intros Hname Hpay Hd. unfold projectAll. cbn [forOf]. rewrite run_bind.
  unfold projectionRouter. rewrite Hpay, Hname.
  rewrite bool_decide_eq_true_2 by done.
  unfold BookProjections.onBookUpdated, updateOne. js_unfold. cbn.
  eexists. split; [reflexivity|]. cbn. by rewrite lookup_alter_eq, Hd.
Qed.

Lemma project_finished (e : DomainEvent) (p : BookFinishedEvent.Payload) (v : World)
    (d : BookDocument.t) :
  eventName e = BookFinishedEvent.EVENT_NAME →
  payload e = BookFinished p →
  mongo v !! BookFinishedEvent.bookId p = Some d →
  ∃ v' d',
    projectAll [e] v = (Returned tt, v')
    ∧ mongo v' !! BookFinishedEvent.bookId p = Some d'
    ∧ BookDocument.title d' = BookDocument.title d
    ∧ BookDocument.pageCount d' = BookDocument.pageCount d
    ∧ BookDocument.yearRead d' = Some (BookFinishedEvent.yearRead p)
    ∧ BookDocument.rating d' = BookFinishedEvent.rating p
    ∧ BookDocument.status d' = "FINISHED".
Proof.
  intros Hname Hpay Hd. unfold projectAll. cbn [forOf]. rewrite run_bind.
  unfold projectionRouter. rewrite Hpay, Hname.
  rewrite bool_decide_eq_true_2 by done.
  unfold BookProjections.onBookUpdated, updateOne. js_unfold. cbn.
  do 2 eexists. split; [reflexivity|]. cbn. rewrite lookup_alter_eq, Hd. cbn.
  split; [reflexivity|]. by repeat split.
Qed.

Lemma project_quote_added (e : DomainEvent) (p : QuoteAddedEvent.Payload) (v : World)
    (d : BookDocument.t) :
  eventName e = QuoteAddedEvent.EVENT_NAME →
  payload e = QuoteAdded p →
  mongo v !! QuoteAddedEvent.bookId p = Some d →
  ∃ v' d',
    projectAll [e] v = (Returned tt, v')
    ∧ mongo v' !! QuoteAddedEvent.bookId p = Some d'
    ∧ BookDocument.title d' = BookDocument.title d
    ∧ BookDocument.pageCount d' = BookDocument.pageCount d
    ∧ BookDocument.yearRead d' = BookDocument.yearRead d
    ∧ BookDocument.rating d' = BookDocument.rating d
    ∧ BookDocument.status d' = BookDocument.status d.
Proof.
  intros Hname Hpay Hd. unfold projectAll. cbn [forOf]. rewrite run_bind.
  unfold projectionRouter. rewrite Hpay, Hname.
  rewrite bool_decide_eq_true_2 by done.
  unfold BookProjections.onQuoteAdded, updateOne. js_unfold. cbn.
  do 2 eexists. split; [reflexivity|]. cbn. rewrite lookup_alter_eq, Hd. cbn.
  split; [reflexivity|]. by repeat split.
Qed.

Lemma default_changedOr {A} `{EqDecision A} (shown old new : A) :
  shown = old → default shown (changedOr old new) = new.
Proof. intros ->. unfold changedOr. by case_bool_decide. Qed.

Lemma updateDetails_followed (c : Book.DetailChanges) (b b' : Book.t) (w w' v : World)
    (d : BookDocument.t) :
  Book.domainEvents b = [] →
  Book.updateDetails c b w = (Returned b', w') →
  mongo v !! Book.id b = Some d →
  agrees b d →
  ∃ v' d',
    projectAll (Book.domainEvents b') v = (Returned tt, v')
    ∧ mongo v' !! Book.id b = Some d'
    ∧ agrees b' d'.
Proof.
  intros Hnone Hrun Hd (Ht & Hp & Hy & Hr & Hs).
  destruct (updateDetails_change_set _ _ _ _ _ Hrun)
    as (_ & Hstatus & ch & (Hct & Hcp & Hcy & _ & Hcr & Hcs) & Hev).
  destruct (0 <? BookUpdatedEvent.keysLength ch)%nat.
  - destruct Hev as (e & Hevents & Hname & Hpay). rewrite Hnone in Hevents.
    destruct (project_updated e _ v d Hname Hpay Hd) as (v' & Hproj & Hd').
    rewrite Hevents. exists v'. eexists. split; [exact Hproj|].
    split; [exact Hd'|]. unfold agrees. cbn. rewrite Hct, Hcp, Hcy, Hcs. cbn.
    rewrite !default_changedOr by done. rewrite Hstatus.
    repeat split; try done.
    destruct Hcr as [->|(-> & _ & ->)]; [by apply default_changedOr|done].
  - subst b'. rewrite Hnone. exists v, d. by repeat split.
Qed.

Lemma changeStatus_followed (s : ReadingStatus) (b b' : Book.t) (w w' v : World)
    (d : BookDocument.t) :
  negb (bool_decide (s = FINISHED) && bool_decide (Book.yearRead b = None)) = true →
  Book.domainEvents b = [] →
  Book.changeStatus s b w = (Returned b', w') →
  mongo v !! Book.id b = Some d →
  agrees b d →
  ∃ v' d',
    projectAll (Book.domainEvents b') v = (Returned tt, v')
    ∧ mongo v' !! Book.id b = Some d'
    ∧ agrees b' d'.
Proof.
  intros Hok Hnone Hrun Hd (Ht & Hp & Hy & Hr & Hs).
  assert (Hyear : ¬ (s = FINISHED ∧ Book.yearRead b = None)).
  { intros [-> Hyear]. by rewrite Hyear in Hok. }
  clear Hok. revert Hrun. unfold Book.changeStatus, newDomainEvent. js_unfold.
  destruct (decide (Book.status b = s)) as [Hsame|Hsame].
  { rewrite bool_decide_eq_true_2 by done.
    intros [= <- <-]. rewrite Hnone. exists v, d. by repeat split. }
  rewrite (bool_decide_eq_false_2 _ Hsame).
  destruct (negb _); [discriminate|]. cbn.
  rewrite (bool_decide_eq_false_2 _ Hyear). cbn.
  intros [= <- <-]. cbn. rewrite Hnone. cbn.
  match goal with
  | |- context [projectAll [?e] v] =>
      destruct (project_updated e _ v d eq_refl eq_refl Hd) as (v' & Hproj & Hd')
  end.
  exists v'. eexists. split; [exact Hproj|]. split; [exact Hd'|].
  by repeat split.
Qed.

Lemma markAsFinished_followed (y : Z) (r : option Z) (b b' : Book.t) (w w' v : World)
    (d : BookDocument.t) :
  Book.domainEvents b = [] →
  Book.markAsFinished y r b w = (Returned b', w') →
  mongo v !! Book.id b = Some d →
  agrees b d →
  ∃ v' d',
    projectAll (Book.domainEvents b') v = (Returned tt, v')
    ∧ mongo v' !! Book.id b = Some d'
    ∧ agrees b' d'.
Proof.
  intros Hnone Hrun Hd (Ht & Hp & Hy & Hr & Hs). revert Hrun.
  unfold Book.markAsFinished, Book.validateYearRead, newDomainEvent.
  js_unfold. cbn.
  destruct (_ || _); [discriminate|]. cbn.
  destruct r as [r|]; cbn.
  - destruct (Rating.create r); cbn; [|discriminate].
    intros [= <- <-]. cbn. rewrite Hnone. cbn.
    match goal with
    | |- context [projectAll [?e] v] =>
        destruct (project_finished e _ v d eq_refl eq_refl Hd)
          as (v' & d' & Hproj & Hd' & Ht' & Hp' & Hy' & Hr' & Hs')
    end.
    exists v', d'. split; [exact Hproj|]. split; [exact Hd'|].
    unfold agrees. cbn. rewrite Ht', Hp', Hy', Hr', Hs'. by repeat split.
  - intros [= <- <-]. cbn. rewrite Hnone. cbn.
    match goal with
    | |- context [projectAll [?e] v] =>
        destruct (project_finished e _ v d eq_refl eq_refl Hd)
          as (v' & d' & Hproj & Hd' & Ht' & Hp' & Hy' & Hr' & Hs')
    end.
    exists v', d'. split; [exact Hproj|]. split; [exact Hd'|].
    unfold agrees. cbn. rewrite Ht', Hp', Hy', Hr', Hs'. by repeat split.
Qed.

(** X26. The read store follows the aggregate. Take a book with an
    empty outbox and a document under its id that shows its title, page
    count, year, rating and status. After any command that returns, other
    than [markAsDeleted] and than [changeStatus(FINISHED)] on a book
    without a year, handing the new outbox to the projection router
    returns and the document shows these five fields of the changed book
    again. *)
Theorem read_model_follows_commands (c : BookCommand) (b b' : Book.t)
    (w w' v : World) (d : BookDocument.t) :
  followedByReadModel c b = true →
  Book.domainEvents b = [] →
  runCommand c b w = (Returned b', w') →
  mongo v !! Book.id b = Some d →
  agrees b d →
  ∃ v' d',
    projectAll (Book.domainEvents b') v = (Returned tt, v')
    ∧ mongo v' !! Book.id b = Some d'
    ∧ agrees b' d'.
Proof.
  intros Hok Hnone Hrun Hd Hagree.
  destruct c as [ch|s|y r|content page|qid|content chapter|nid|];
    cbn [runCommand followedByReadModel] in Hrun, Hok; [| | | | | | |discriminate].
  - by eapply updateDetails_followed.
  - by eapply changeStatus_followed.
  - by eapply markAsFinished_followed.
  - rewrite run_bind in Hrun.
    destruct (Book.addQuote _ _ _ _) as [[[q b1]|e] w1] eqn:Hadd; [|discriminate].
    injection Hrun as <- <-.
    apply addQuote_shape in Hadd as (e & -> & _ & _ & _ & _ & Hname & Hpay).
    cbn. rewrite Hnone. cbn.
    edestruct (project_quote_added e _ v d Hname Hpay Hd)
      as (v' & d' & Hproj & Hd' & Ht' & Hp' & Hy' & Hr' & Hs').
    exists v', d'. split; [exact Hproj|]. split; [exact Hd'|].
    destruct Hagree as (Ht & Hp & Hy & Hr & Hs).
    unfold agrees. cbn. by rewrite Ht', Hp', Hy', Hr', Hs'.
  - destruct (decide (qid ∈ Quote.id <$> Book.quotes b)) as [Hin|Hout].
    + destruct (removeQuote_found qid b w Hin) as (l1 & q & l2 & _ & _ & _ & Heq).
      rewrite Heq in Hrun. injection Hrun as <- <-. cbn. rewrite Hnone.
      by exists v, d.
    + rewrite removeQuote_missing in Hrun by done. discriminate.
  - rewrite run_bind in Hrun.
    destruct (Book.addNote _ _ _ _) as [[[n b1]|e] w1] eqn:Hadd; [|discriminate].
    injection Hrun as <- <-. apply addNote_shape in Hadd as (-> & _).
    cbn. rewrite Hnone. by exists v, d.
  - destruct (decide (nid ∈ Note.id <$> Book.notes b)) as [Hin|Hout].
    + destruct (removeNote_found nid b w Hin) as (l1 & n & l2 & _ & _ & _ & Heq).
      rewrite Heq in Hrun. injection Hrun as <- <-. cbn. rewrite Hnone.
      by exists v, d.
    + rewrite removeNote_missing in Hrun by done. discriminate.
Qed.

Lemma read_model_follows_commands_witness :
  ∃ b' w' v' d',
    runCommand (MarkAsFinished 2023 (Some 5)) sampleBook sampleWorld = (Returned b', w')
    ∧ projectAll (Book.domainEvents b') sampleReadWorld = (Returned tt, v')
    ∧ mongo v' !! Book.id sampleBook = Some d'
    ∧ agrees b' d'.
Proof.
  destruct (runCommand (MarkAsFinished 2023 (Some 5)) sampleBook sampleWorld)
    as [[b'|e] w'] eqn:Hrun; [|by vm_compute in Hrun].
  destruct (read_model_follows_commands (MarkAsFinished 2023 (Some 5)) sampleBook b'
              sampleWorld w' sampleReadWorld sampleDocument eq_refl eq_refl Hrun)
    as (v' & d' & Hproj).
  - reflexivity.
  - by repeat split.
  - by exists b', w', v', d'.
Defined.

(** ** The command side and the query side *)

Lemma leavesReadStore_bind {A B} (m : Js A) (f : A → Js B) :
  leavesReadStore m → (∀ a, leavesReadStore (f a)) → leavesReadStore (m ≫= f).
Proof.
  intros Hm Hf w. rewrite run_bind. specialize (Hm w).
  destruct (m w) as [[a|e] w1]; cbn in *; [|done]. by rewrite Hf.
Qed.

Lemma leavesReadStore_keepsStores {A} (m : Js A) : keepsStores m → leavesReadStore m.
Proof. intros Hm w. by destruct (Hm w) as (_ & _ & _ & ? & _). Qed.

Lemma leavesReadStore_transaction {A} (m : Js A) :
  leavesReadStore m → leavesReadStore (transaction m).
Proof.
  intros Hm w. specialize (Hm w). unfold transaction.
  by destruct (m w) as [[a|e] w1].
Qed.

Lemma leavesReadStore_forOf {A} (xs : list A) (body : A → Js unit) :
  (∀ x, leavesReadStore (body x)) → leavesReadStore (forOf xs body).
Proof.
  intros Hbody. induction xs as [|x xs IH]; [done|]. cbn [forOf].
  apply leavesReadStore_bind; [apply Hbody|by intros _].
Qed.

Lemma leavesReadStore_save book : leavesReadStore (PostgresBookRepository.save book).
Proof.
  intros w. rewrite save_run. by destruct (saveOutcome book (pg w)).
Qed.

Lemma leavesReadStore_awaitSave book : leavesReadStore (awaitSave book).
Proof.
  intros w. unfold awaitSave. pose proof (leavesReadStore_save book w) as Hsave.
  by destruct (PostgresBookRepository.save book w) as [[u|e] w1].
Qed.

Lemma leavesReadStore_publish e : leavesReadStore (RabbitMQEventPublisher.publish e).
Proof.
  intros w. unfold RabbitMQEventPublisher.publish, getChannel, channelPublish.
  js_unfold. by destruct (channel w).
Qed.

Lemma leavesReadStore_awaitPublishAll es : leavesReadStore (awaitPublishAll es).
Proof.
  unfold awaitPublishAll, RabbitMQEventPublisher.publishAll.
  apply leavesReadStore_bind; [|by intros _].
  apply leavesReadStore_forOf, leavesReadStore_publish.
Qed.

Lemma leavesReadStore_clear book : leavesReadStore (callClearDomainEvents book).
Proof. by intros w. Qed.

Lemma leavesReadStore_delete id : leavesReadStore (PostgresBookRepository.delete id).
Proof. by intros w. Qed.

Lemma leavesReadStore_ret {A} (a : A) : leavesReadStore (mret a).
Proof. by intros w. Qed.

Lemma leavesReadStore_throw {A} (e : JsError) : leavesReadStore (@throw A e).
Proof. by intros w. Qed.

Create HintDb readStore.
#[local] Hint Resolve leavesReadStore_awaitSave leavesReadStore_awaitPublishAll
  leavesReadStore_clear leavesReadStore_delete leavesReadStore_ret
  leavesReadStore_throw : readStore.

Ltac readStore_step :=
  match goal with
  | |- leavesReadStore (_ ≫= _) => apply leavesReadStore_bind; [|intros ?]
  | |- leavesReadStore (match ?x with _ => _ end) => destruct x
  | |- leavesReadStore (let '(_, _) := ?x in _) => destruct x
  | |- leavesReadStore (if ?x then _ else _) => destruct x
  | |- leavesReadStore _ =>
      solve [ auto with readStore
            | apply leavesReadStore_keepsStores; solve_stores;
              auto using keepsStores_create, keepsStores_updateDetails,
                keepsStores_markAsFinished, keepsStores_addQuote,
                keepsStores_markAsDeleted, keepsStores_findById,
                keepsStores_findByIsbn, keepsStores_loadBook ]
  end.
Ltac solve_readStore := repeat readStore_step.

(** X27. The two sides are kept apart. No command handler (create,
    update, mark as finished, add quote, delete) ever changes the read
    store, whatever its input and its outcome; and the projection router
    never changes a table of the write store, the channel or the journal,
    whatever event it is given. *)
Theorem command_and_query_sides_apart :
  (∀ payload, leavesReadStore (CreateBookHandler.execute payload))
  ∧ (∀ bookId changes, leavesReadStore (UpdateBookHandler.execute bookId changes))
  ∧ (∀ bookId yearRead rating,
       leavesReadStore (MarkBookAsFinishedHandler.execute bookId yearRead rating))
  ∧ (∀ bookId content page,
       leavesReadStore (AddQuoteHandler.execute bookId content page))
  ∧ (∀ bookId, leavesReadStore (DeleteBookHandler.execute bookId))
  ∧ (∀ event, leavesWriteSide (projectionRouter event)).
Proof.
  split; [|split; [|split; [|split; [|split]]]].
  - intros payload. unfold CreateBookHandler.execute. solve_readStore.
  - intros bookId changes. unfold UpdateBookHandler.execute. solve_readStore.
  - intros bookId yearRead rating. unfold MarkBookAsFinishedHandler.execute.
    solve_readStore.
  - intros bookId content page. unfold AddQuoteHandler.execute. solve_readStore.
  - intros bookId. unfold DeleteBookHandler.execute. solve_readStore.
  - intros event w.
    unfold projectionRouter, BookProjections.onBookCreated,
      BookProjections.onBookUpdated, BookProjections.onBookDeleted,
      BookProjections.onQuoteAdded, insertOne, updateOne, deleteOne.
    destruct (payload event); case_bool_decide; try done; js_unfold; cbn; try done.
    by destruct (mongo w !! _).
Qed.

(** ** From the command to the read store *)

Lemma save_row_fields (book : Book.t) (w w' : World) :
  PostgresBookRepository.save book w = (Returned tt, w') →
  channel w' = channel w
  ∧ mongo w' = mongo w
  ∧ ∃ row,
      books (pg w') !! Book.id book = Some row
      ∧ BookRow.title row = Book.title book
      ∧ BookRow.page_count row = Book.pageCount book
      ∧ BookRow.isbn row = Book.isbn book
      ∧ BookRow.year_read row = Book.yearRead book
      ∧ BookRow.status row = ReadingStatusUtils.toString (Book.status book)
      ∧ BookRow.rating row = Book.rating book.
Proof.
  rewrite save_run. unfold saveOutcome, storeBookRow.
  destruct (books (pg w) !! Book.id book) as [row|] eqn:Hrow.
  - destruct (BookRow.version row =? Book.version book) eqn:Hv; [|discriminate].
    destruct (PostgresBookRepository.isbnTaken _ _ _); cbn; [discriminate|].
    destruct (syncedQuotes _ _); cbn; [|discriminate].
    destruct (syncedNotes _ _); cbn; [|discriminate].
    intros [= <-]. cbn. rewrite lookup_insert_eq. repeat split. eexists.
    split; [reflexivity|]. by repeat split.
  - destruct (PostgresBookRepository.isbnTaken _ _ _); cbn; [discriminate|].
    destruct (syncedQuotes _ _); cbn; [|discriminate].
    destruct (syncedNotes _ _); cbn; [|discriminate].
    intros [= <-]. cbn. rewrite lookup_insert_eq. repeat split. eexists.
    split; [reflexivity|]. by repeat split.
Qed.

Lemma awaitPublishAll_one (e : DomainEvent) (w : World) (ch : list Message) :
  channel w = Some ch →
  ∃ w' m,
    awaitPublishAll [e] w = (Returned tt, w')
    ∧ channel w' = Some (ch ++ [m])
    ∧ content m = e
    ∧ routingKey m = eventName e
    ∧ pg w' = pg w
    ∧ mongo w' = mongo w.
Proof.
  intros Hch.
  unfold awaitPublishAll, RabbitMQEventPublisher.publishAll. cbn [forOf].
  unfold RabbitMQEventPublisher.publish, getChannel, channelPublish.
  js_unfold. cbn. rewrite Hch. cbn. rewrite ?Hch. cbn.
  do 2 eexists. split; [reflexivity|]. by repeat split.
Qed.

(** X28. From the command to the read store. When [CreateBookHandler]
    returns an id on a connected channel, the channel has gained exactly
    one message, with the routing key library.book.created, and the table
    has a row under the id. Handing that message to the consumer with the
    projection router, on a read store that has no document under the id,
    acknowledges it and leaves a document that shows the row's title,
    page count, ISBN, year and status, with a null rating whatever the
    row's rating is. A second delivery of the same message is rejected
    without requeue and changes no document. *)
Theorem created_book_reaches_read_model (props : Book.CreateBookProps) (id : string)
    (w w1 : World) (ch : list Message) :
  CreateBookHandler.execute props w = (Returned id, w1) →
  channel w = Some ch →
  mongo w !! id = None →
  ∃ m row w2 d w3,
    channel w1 = Some (ch ++ [m])
    ∧ routingKey m = BookCreatedEvent.EVENT_NAME
    ∧ books (pg w1) !! id = Some row
    ∧ onMessage projectionRouter (Some m) w1 = (Returned (Some Acked), w2)
    ∧ mongo w2 !! id = Some d
    ∧ BookDocument.title d = BookRow.title row
    ∧ BookDocument.pageCount d = BookRow.page_count row
    ∧ BookDocument.isbn d = BookRow.isbn row
    ∧ BookDocument.yearRead d = BookRow.year_read row
    ∧ BookDocument.status d = BookRow.status row
    ∧ BookDocument.rating d = None
    ∧ onMessage projectionRouter (Some m) w2
      = (Returned (Some NackedWithoutRequeue), w3)
    ∧ mongo w3 = mongo w2.
Proof.
  intros Hrun Hch Hfree. unfold CreateBookHandler.execute in Hrun.
  rewrite run_bind in Hrun.
  match type of Hrun with
  | match ?pre w with _ => _ end = _ =>
      assert (Hpre : keepsStores pre) by solve_stores;
      specialize (Hpre w); destruct (pre w) as [[[]|e0] w0]; [|discriminate]
  end.
  destruct Hpre as (_ & Hpg0 & Hch0 & Hm0 & _). cbn in Hpg0, Hch0, Hm0.
  rewrite run_bind in Hrun.
  pose proof (keepsStores_create props w0) as Hframe.
  destruct (Book.create props w0) as [[book|e1] w0'] eqn:Hcreate; [|discriminate].
  destruct Hframe as (_ & Hpg1 & Hch1 & Hm1 & _). cbn in Hpg1, Hch1, Hm1.
  destruct (create_event _ _ _ _ Hcreate)
    as (e & p & Hev & Hname & Hpay & Hid & Ht & Ha & Hp & Hi & Hy & Hs).
  rewrite run_bind in Hrun. unfold awaitSave in Hrun.
  destruct (PostgresBookRepository.save book w0') as [[[]|e2] ws] eqn:Hsave;
    [|discriminate].
  destruct (save_row_fields _ _ _ Hsave)
    as (Hch2 & Hm2 & row & Hrow & Hrt & Hrp & Hri & Hry & Hrs & Hrr).
  rewrite run_bind, Hev in Hrun.
  destruct (awaitPublishAll_one e
              (set_journal (journal ws ++ [SaveReturned (Book.id book)]) ws) ch)
    as (wp & m & Hpub & Hch3 & Hcontent & Hkey & Hpg3 & Hm3).
  { cbn. by rewrite Hch2, Hch1, Hch0. }
  rewrite Hpub in Hrun. cbn in Hrun. injection Hrun as <- <-.
  cbn in Hpg3, Hm3.
  assert (Hfree' : mongo wp !! BookCreatedEvent.bookId p = None).
  { by rewrite Hid, Hm3, Hm2, Hm1, Hm0. }
  destruct (project_created e p
              (set_journal (journal wp ++ [EventsCleared (Book.id book)]) wp)
              Hname Hpay Hfree')
    as (w2 & d & Hproj & Hd & Ht' & _ & Hp' & Hi' & Hy' & Hs' & Hr' & _).
  assert (Hagain : is_Some (mongo w2 !! BookCreatedEvent.bookId p)) by eauto.
  destruct (onBookCreated_on_existing p w2 Hagain) as [Hthrown Hsame].
  destruct (BookProjections.onBookCreated p w2) as [[[]|e3] w3] eqn:Hredo;
    [discriminate|].
  exists m, row, w2, d, w3. cbn.
  split; [exact Hch3|]. split; [by rewrite Hkey|].
  split; [by rewrite Hpg3|].
  split; [by rewrite Hcontent, Hproj|].
  split; [by rewrite <- Hid|].
  rewrite Ht', Hp', Hi', Hy', Hs', Ht, Hp, Hi, Hy, Hs, Hrt, Hrp, Hri, Hry, Hrs.
  do 6 (split; [done|]).
  rewrite Hcontent. unfold projectionRouter. rewrite Hpay, Hname.
  rewrite bool_decide_eq_true_2 by done. by rewrite Hredo.
Qed.

Lemma created_book_reaches_read_model_witness :
  ∃ m row w2 d w3,
    channel (CreateBookHandler.execute sampleProps sampleWorld).2 = Some ([] ++ [m])
    ∧ routingKey m = BookCreatedEvent.EVENT_NAME
    ∧ books (pg (CreateBookHandler.execute sampleProps sampleWorld).2) !! "uuid-0"
      = Some row
    ∧ onMessage projectionRouter (Some m)
        (CreateBookHandler.execute sampleProps sampleWorld).2
      = (Returned (Some Acked), w2)
    ∧ mongo w2 !! "uuid-0" = Some d
    ∧ BookDocument.title d = BookRow.title row
    ∧ BookDocument.pageCount d = BookRow.page_count row
    ∧ BookDocument.isbn d = BookRow.isbn row
    ∧ BookDocument.yearRead d = BookRow.year_read row
    ∧ BookDocument.status d = BookRow.status row
    ∧ BookDocument.rating d = None
    ∧ onMessage projectionRouter (Some m) w2
      = (Returned (Some NackedWithoutRequeue), w3)
    ∧ mongo w3 = mongo w2.
Proof.
  apply (created_book_reaches_read_model sampleProps "uuid-0" sampleWorld).
  - vm_compute. reflexivity.
  - reflexivity.
  - reflexivity.
Defined.

(** ** Events: withCorrelation *)

(** The base constructor without metadata is the construction the
    aggregate uses. *)
Lemma construct_without_metadata (name : string) (p : EventPayload) :
  DomainEventMore.construct name p None = newDomainEvent name p.
Proof. reflexivity. Qed.

(** X29. [withCorrelation] does not correlate the events of the book
    service. The copy is built with the constructor of the event's class,
    which takes the payload only, so the metadata passed to it is lost:
    the result has the payload of the original but a newly drawn event id
    and a newly read date, and its correlation id and causation id are
    undefined. The base constructor, given metadata, keeps the id, the
    date and both correlation fields and draws nothing. *)
Theorem withCorrelation_loses_the_correlation (correlation : string)
    (causation : option string) (e : DomainEvent) (w : World) :
  (∃ e' w',
     DomainEventMore.withCorrelation correlation causation e w = (Returned e', w')
     ∧ payload e' = payload e
     ∧ eventName e' = DomainEventMore.EVENT_NAME (payload e)
     ∧ eventId e' = uuid (host w) (uuidDraws w)
     ∧ occurredAt e' = clock (host w) (clockReads w)
     ∧ correlationId (metadata e') = None
     ∧ causationId (metadata e') = None
     ∧ uuidDraws w' = S (uuidDraws w))
  ∧ (∀ name p id date given,
       DomainEventMore.p_eventId given = Some id →
       DomainEventMore.p_occurredAt given = Some date →
       ∃ e',
         DomainEventMore.construct name p (Some given) w = (Returned e', w)
         ∧ eventId e' = id
         ∧ occurredAt e' = date
         ∧ correlationId (metadata e') = DomainEventMore.p_correlationId given
         ∧ causationId (metadata e') = DomainEventMore.p_causationId given).
Proof.
  split.
  - do 2 eexists. split; [reflexivity|]. by repeat split.
  - intros name p id date given Hid Hdate.
    unfold DomainEventMore.construct. cbn. rewrite Hid, Hdate.
    eexists. split; [reflexivity|]. by repeat split.
Qed.

(** ** Title: the slug *)

Lemma isSlugChar_not_dash (c : ascii) :
  TitleMore.isSlugChar c = true → Ascii.eqb c "-"%char = false.
Proof.
  intros Hc. destruct (Ascii.eqb c "-"%char) eqn:E; [|done].
  apply Ascii.eqb_eq in E. by subst c.
Qed.

Lemma slugShaped_weaken (s : string) :
  slugShaped true s = true → slugShaped false s = true.
Proof. destruct s as [|c s]; [done|]. cbn. by destruct (Ascii.eqb c "-"%char). Qed.

Lemma dashRuns_slugShaped (gap : bool) (s : string) :
  slugShaped gap (TitleMore.dashRuns gap s) = true.
Proof.
  revert gap. induction s as [|c s IH]; intros gap; [done|]. cbn.
  destruct (TitleMore.isSlugChar c) eqn:Hc.
  - cbn. by rewrite (isSlugChar_not_dash c Hc), Hc, IH.
  - destruct gap; [apply IH|]. cbn. apply IH.
Qed.

Lemma stripLeadingDash_slugShaped (s : string) :
  slugShaped false s = true →
  slugShaped false (TitleMore.stripLeadingDash s) = true
  ∧ ∀ t, TitleMore.stripLeadingDash s ≠ String "-" t.
Proof.
  destruct s as [|c s]; [done|]. cbn.
  destruct (Ascii.eqb c "-"%char) eqn:E; cbn.
  - intros Hs. split; [by apply slugShaped_weaken|].
    intros t ->. cbn in Hs. done.
  - rewrite E. intros Hs. split; [done|]. intros t [= -> _]. done.
Qed.

(** [stripTrailingDash], one code unit at a time. *)
Lemma stripTrailingDash_cons (c : ascii) (s : string) :
  TitleMore.stripTrailingDash (String c s)
  = match s with
    | EmptyString => if Ascii.eqb c "-"%char then "" else String c ""
    | _ => String c (TitleMore.stripTrailingDash s)
    end.
Proof.
  unfold TitleMore.stripTrailingDash. rewrite rev_cons.
  destruct s as [|d s].
  { change (String.rev "" +:+ String c "") with (String c "").
    cbn [TitleMore.stripLeadingDash]. by destruct (Ascii.eqb c "-"%char). }
  destruct (String.rev (String d s)) as [|x t] eqn:Hrev.
  { apply (f_equal String.length) in Hrev. rewrite rev_length in Hrev. done. }
  rewrite app_cons. cbn [TitleMore.stripLeadingDash].
  destruct (Ascii.eqb x "-"%char).
  - rewrite rev_app_distr. done.
  - rewrite <- app_cons, rev_app_distr. done.
Qed.

Lemma stripTrailingDash_slugShaped (afterDash : bool) (s : string) :
  slugShaped afterDash s = true →
  slugShaped afterDash (TitleMore.stripTrailingDash s) = true
  ∧ (∀ t, TitleMore.stripTrailingDash s ≠ t +:+ "-")
  ∧ ((∀ t, s ≠ String "-" t) → ∀ t, TitleMore.stripTrailingDash s ≠ String "-" t).
Proof.
  revert afterDash. induction s as [|c s IH]; intros afterDash Hs.
  { split; [done|]. split; [|done]. intros [|? ?]; done. }
  rewrite stripTrailingDash_cons. destruct s as [|d s].
  - destruct (Ascii.eqb c "-"%char) eqn:E.
    + split; [done|]. split; [intros [|? ?]; done|done].
    + split; [done|]. split; [|done].
      intros [|x [|? ?]]; cbn; [|done..]. intros [= ->]. done.
  - cbn [slugShaped] in Hs.
    assert (Hrest : ∃ p, slugShaped p (String d s) = true
                         ∧ (Ascii.eqb c "-"%char = true → p = true)).
    { destruct (Ascii.eqb c "-"%char).
      - apply andb_true_iff in Hs as [_ Hs]. by exists true.
      - apply andb_true_iff in Hs as [_ Hs]. by exists false. }
    destruct Hrest as (p & Hrest & Hp).
    destruct (IH p Hrest) as (Hshape & Hend & _).
    split; [|split].
    + cbn [slugShaped]. destruct (Ascii.eqb c "-"%char).
      * apply andb_true_iff in Hs as [Hprev _]. rewrite Hprev.
        by rewrite (Hp eq_refl) in Hshape.
      * apply andb_true_iff in Hs as [Hc _]. rewrite Hc.
        destruct p; [by apply slugShaped_weaken|done].
    + intros [|x t]; cbn.
      * intros [= -> Hempty].
        rewrite (Hp eq_refl) in Hrest.
        rewrite stripTrailingDash_cons in Hempty. cbn in Hrest.
        destruct s as [|? ?]; [|done].
        destruct (Ascii.eqb d "-"%char); [done|discriminate].
      * intros [= -> Ht]. by apply (Hend t).
    + intros Hstart t [= -> _]. by apply (Hstart (String d s)).
Qed.

Lemma slugShaped_no_double_dash (afterDash : bool) (s t u : string) :
  slugShaped afterDash s = true → s ≠ t +:+ "--" +:+ u.
Proof.
  revert afterDash s. induction t as [|x t IH]; intros afterDash s Hs ->.
  - cbn in Hs. by destruct afterDash.
  - rewrite app_cons in Hs. cbn [slugShaped] in Hs.
    destruct (Ascii.eqb x "-"%char); apply andb_true_iff in Hs as [_ Hs];
      by eapply IH.
Qed.

Lemma slugShaped_alphabet (afterDash : bool) (s : string) (i : nat) (c : ascii) :
  slugShaped afterDash s = true →
  String.get i s = Some c →
  TitleMore.isSlugChar c = true ∨ c = "-"%char.
Proof.
  revert afterDash i. induction s as [|x s IH]; intros afterDash i Hs; [done|].
  cbn [slugShaped] in Hs. destruct i as [|i]; cbn.
  - intros [= <-]. destruct (Ascii.eqb x "-"%char) eqn:E.
    + right. by apply Ascii.eqb_eq.
    + left. by apply andb_true_iff in Hs as [? _].
  - destruct (Ascii.eqb x "-"%char); apply andb_true_iff in Hs as [_ Hs];
      by eapply IH.
Qed.

(** X30. A slug is fit for a URL: whatever the title, every code unit
    of its [slug] is a lower-case letter a to z, a digit or a dash, the
    slug neither starts nor ends with a dash, and no dash follows a
    dash. *)
Theorem slug_is_url_safe (value : string) :
  (∀ i c, String.get i (TitleMore.slug value) = Some c →
          TitleMore.isSlugChar c = true ∨ c = "-"%char)
  ∧ (∀ t, TitleMore.slug value ≠ "-" +:+ t)
  ∧ (∀ t, TitleMore.slug value ≠ t +:+ "-")
  ∧ (∀ t u, TitleMore.slug value ≠ t +:+ "--" +:+ u).
Proof.
  unfold TitleMore.slug, TitleMore.stripEdgeDashes.
  pose proof (dashRuns_slugShaped false (Text.toLowerCase value)) as Hruns.
  destruct (stripLeadingDash_slugShaped _ Hruns) as [Hlead Hstart].
  destruct (stripTrailingDash_slugShaped false _ Hlead) as (Hshape & Hend & Hkeep).
  split; [|split; [|split]].
  - intros i c. by apply (slugShaped_alphabet false).
  - intros t. apply (Hkeep Hstart).
  - done.
  - intros t u. by apply (slugShaped_no_double_dash false).
Qed.

Example slug_of_a_title :
  TitleMore.slug "Domain-Driven Design: Tackling Complexity!" 
  = "domain-driven-design-tackling-complexity"
  ∧ TitleMore.slug "  C# in Depth " = "c-in-depth".
Proof. split; reflexivity. Qed.
